(** * gammacat.output: output generation and validation

    A shallow embedding of [gammacat/output.py]: the path configuration
    ([OutputDataConfig]), the reader/validator ([OutputData]) and the
    generator ([OutputDataMaker]), together with the parts of the Python
    runtime they rely on (pathlib's pure POSIX paths and the selectors of
    [rglob], [repr], [sorted], [set], a file tree with [mkdir] and file
    writes, the logger).

    Strings are byte strings; Python orders [str] by code point, which
    coincides with the byte-wise lexicographic order of the UTF-8 encoding,
    so [String.le] is the order used by [sorted]. *)

From Stdlib Require Import Ascii.
From stdpp Require Import gmap strings list sorting pretty.

Set Warnings "-register-all,-clear-no-such-hyp".

(** ** Python [str] operations *)

Module Str.

Definition slash : ascii := "/"%char.

(** [s.split(sep)] for a one-character separator. *)
Fixpoint split (sep : ascii) (s : string) : list string :=
  match s with
  | EmptyString => [EmptyString]
  | String c s' =>
      if decide (c = sep) then EmptyString :: split sep s'
      else match split sep s' with
           | [] => [String c EmptyString]
           | w :: ws => String c w :: ws
           end
  end.

(** [sep.join(l)] *)
Fixpoint join (sep : string) (l : list string) : string :=
  match l with
  | [] => EmptyString
  | [x] => x
  | x :: l' => x +:+ sep +:+ join sep l'
  end.

(** [s.lstrip(c)] for a single character. *)
Fixpoint lstrip (c : ascii) (s : string) : string :=
  match s with
  | EmptyString => EmptyString
  | String a s' => if decide (a = c) then lstrip c s' else s
  end.

(** [c in s] *)
Fixpoint contains (c : ascii) (s : string) : bool :=
  match s with
  | EmptyString => false
  | String a s' => bool_decide (a = c) || contains c s'
  end.

(** [s.endswith(c)] for a single character. *)
Fixpoint endswith (c : ascii) (s : string) : bool :=
  match s with
  | EmptyString => false
  | String a EmptyString => bool_decide (a = c)
  | String _ s' => endswith c s'
  end.

(** ['**' in s] *)
Fixpoint contains_double_star (s : string) : bool :=
  match s with
  | String a s' =>
      match s' with
      | String b _ =>
          (bool_decide (a = "*"%char) && bool_decide (b = "*"%char))
          || contains_double_star s'
      | EmptyString => false
      end
  | EmptyString => false
  end.

End Str.

(** ** pathlib: [PurePosixPath]

    A path is its root (the empty string, one slash or two slashes) and the
    list of its components; the components never contain a slash, are never
    empty and never a single dot, because [parse_parts] drops those. *)

Record PurePath : Type := mkPath { root : string; parts : list string }.

Global Instance PurePath_eq_dec : EqDecision PurePath.
Proof. solve_decision. Defined.

Module Pathlib.

(** [_PosixFlavour.splitroot] *)
Definition splitroot (part : string) : string * string :=
  match part with
  | String c _ =>
      if decide (c = Str.slash) then
        let stripped := Str.lstrip Str.slash part in
        if decide (String.length part - String.length stripped = 2)
        then ("//", stripped) else ("/", stripped)
      else ("", part)
  | EmptyString => ("", part)
  end.

(** A component kept by [parse_parts]: [if x and x != '.'] *)
Definition kept (x : string) : Prop := x ≠ "" ∧ x ≠ ".".

Global Instance kept_dec x : Decision (kept x).
Proof. unfold kept. apply _. Defined.

(** [_Flavour.parse_parts] on a single string argument: [Path(s)] *)
Definition parse_parts (s : string) : PurePath :=
  let '(r, rel) := splitroot s in
  mkPath r (filter kept (Str.split Str.slash rel)).

(** [self / key] for a string [key] ([join_parsed_parts]): an anchored right
    operand replaces the left one. *)
Definition joinpath (p : PurePath) (s : string) : PurePath :=
  let q := parse_parts s in
  if decide (root q = "") then mkPath (root p) (parts p ++ parts q) else q.

(** [str(p)] *)
Definition str (p : PurePath) : string :=
  let s := root p +:+ Str.join "/" (parts p) in
  if decide (s = "") then "." else s.

(** [p.parent] *)
Definition parent (p : PurePath) : PurePath :=
  mkPath (root p) (removelast (parts p)).

(** [p.name] *)
Definition name (p : PurePath) : string := List.last (parts p) "".

(** The key under which a path is stored in a file tree. *)
Definition key (p : PurePath) : string * list string := (root p, parts p).

(** [other] followed by at least one more component gives [p]. *)
Definition strip_prefix (pre l : list string) : option (list string) :=
  if decide (take (length pre) l = pre) then Some (drop (length pre) l) else None.

End Pathlib.

Notation "p </> s" := (Pathlib.joinpath p s) (at level 40, left associativity).

(** ** Python values, [repr] and ordered dictionaries *)

Inductive json : Type :=
  | JNull
  | JBool (b : bool)
  | JNum (z : Z)
  | JStr (s : string)
  | JList (l : list json)
  | JObj (kv : list (string * json)).

(** [OrderedDict]: keys in insertion order; assigning an existing key keeps
    its position. *)
Module OrderedDict.

Definition t : Type := list (string * json).

Definition empty : t := [].

Fixpoint setitem (k : string) (v : json) (d : t) : t :=
  match d with
  | [] => [(k, v)]
  | (k', v') :: d' =>
      if decide (k = k') then (k, v) :: d' else (k', v') :: setitem k v d'
  end.

Fixpoint getitem (k : string) (d : t) : option json :=
  match d with
  | [] => None
  | (k', v') :: d' => if decide (k = k') then Some v' else getitem k d'
  end.

Definition keys (d : t) : list string := d.*1.

End OrderedDict.

Module Repr.

Definition quote1 : ascii := "039"%char.
Definition quote2 : ascii := "034"%char.
Definition backslash : ascii := "092"%char.

Definition hex_digit (n : N) : ascii :=
  (if n <? 10 then ascii_of_N (48 + n) else ascii_of_N (87 + n))%N.

(** One character of [repr(s)] with [q] the chosen quote. Characters outside
    ASCII are taken to be printable and are kept as they are. *)
Definition repr_char (q c : ascii) : string :=
  let n := N_of_ascii c in
  if decide (c = backslash) then String backslash (String backslash "")
  else if decide (c = q) then String backslash (String q "")
  else if decide (n = 9%N) then String backslash "t"
  else if decide (n = 10%N) then String backslash "n"
  else if decide (n = 13%N) then String backslash "r"
  else if decide (n < 32 ∨ n = 127)%N then
    String backslash (String "x" (String (hex_digit (n / 16)) (String (hex_digit (n mod 16)) "")))
  else String c "".

Fixpoint repr_body (q : ascii) (s : string) : string :=
  match s with
  | EmptyString => EmptyString
  | String c s' => repr_char q c +:+ repr_body q s'
  end.

(** [repr(s)] for a [str]: single quotes unless the string has a single quote
    and no double quote. *)
Definition repr_str (s : string) : string :=
  let q := if Str.contains quote1 s && negb (Str.contains quote2 s)
           then quote2 else quote1 in
  String q (repr_body q s +:+ String q "").

(** [repr(l)] for a list of [str]; this is what [format] of a list gives. *)
Definition repr_list (l : list string) : string :=
  "[" +:+ Str.join ", " (repr_str <$> l) +:+ "]".

End Repr.

(** [sorted(xs)] on strings. Python's sort is stable; on the duplicate-free
    lists it is applied to here every sorting algorithm gives the same list. *)
Definition sorted (l : list string) : list string := merge_sort String.le l.

(** [set(xs)] *)
Definition py_set (l : list string) : gset string := list_to_set l.

(** ** Exceptions, the logger and the file tree *)

Inductive exn : Type :=
  | ValueError (msg : string)
  | TypeError (msg : string)
  | KeyError (k : string)
  | NotImplementedError (msg : string)
  | FileExistsError (p : PurePath)
  | FileNotFoundError (p : PurePath)
  | NotADirectoryError (p : PurePath)
  | IsADirectoryError (p : PurePath).

(** The outcome of a call: [inl e] when it raises [e]. *)
Abbreviation result A := (exn + A)%type.

Inductive level : Type := DEBUG | INFO | ERROR.

Record log_record : Type := LogRecord { lvl : level; msg : string }.

(** What a file holds: text or bytes, or a JSON document as handed to
    [write_json], which keeps the order of the keys. *)
Inductive file_content : Type :=
  | Text (s : string)
  | Json (doc : json).

Inductive node : Type :=
  | File (c : file_content)
  | Dir.

(** A snapshot of the file tree: the nodes by path. The root and the current
    directory (the paths without components) are always directories. Paths
    are compared as written: two spellings of one file are two paths. *)
Abbreviation FS := (gmap (string * list string) node).

Module Os.

(** Path resolution of the directories [seen ++ todo] below the root [r],
    the components in [seen] being resolved already: the first component
    that is not a directory gives the error. A component [..] is looked up
    like any other name and not resolved to the parent directory: the
    statements that depend on it take paths without [..]. *)
Fixpoint resolve_dirs (fs : FS) (r : string) (seen todo : list string) : option exn :=
  match todo with
  | [] => None
  | c :: todo' =>
      let p := mkPath r (seen ++ [c]) in
      match fs !! Pathlib.key p with
      | Some Dir => resolve_dirs fs r (seen ++ [c]) todo'
      | Some (File _) => Some (NotADirectoryError p)
      | None => Some (FileNotFoundError p)
      end
  end.

(** [os.stat(p)], with [None] for a path that does not resolve: what lies
    below a name that is not a directory cannot be reached. *)
Definition stat (fs : FS) (p : PurePath) : option node :=
  match resolve_dirs fs (root p) [] (removelast (parts p)) with
  | Some _ => None
  | None =>
      match parts p with
      | [] => Some Dir
      | _ => fs !! Pathlib.key p
      end
  end.

(** [Path.is_file()] and [Path.is_dir()]: false for what does not resolve. *)
Definition is_file (fs : FS) (p : PurePath) : bool :=
  match stat fs p with Some (File _) => true | _ => false end.

Definition is_dir (fs : FS) (p : PurePath) : bool :=
  match stat fs p with Some Dir => true | _ => false end.

(** [Path.exists()] *)
Definition path_exists (fs : FS) (p : PurePath) : bool :=
  match stat fs p with Some _ => true | None => false end.

(** [os.mkdir(p)] *)
Definition mkdir (fs : FS) (p : PurePath) : result FS :=
  match parts p with
  | [] => inl (FileExistsError p)
  | _ =>
      match resolve_dirs fs (root p) [] (removelast (parts p)) with
      | Some e => inl e
      | None =>
          match fs !! Pathlib.key p with
          | Some _ => inl (FileExistsError p)
          | None => inr (<[Pathlib.key p := Dir]> fs)
          end
      end
  end.

(** [open(p, 'w')], writing [c] and closing: creates or truncates. *)
Definition write (fs : FS) (p : PurePath) (c : file_content) : result FS :=
  match parts p with
  | [] => inl (IsADirectoryError p)
  | _ =>
      match resolve_dirs fs (root p) [] (removelast (parts p)) with
      | Some e => inl e
      | None =>
          match fs !! Pathlib.key p with
          | Some Dir => inl (IsADirectoryError p)
          | _ => inr (<[Pathlib.key p := File c]> fs)
          end
      end
  end.

End Os.

(** [Path.mkdir(parents=False, exist_ok=True)] *)
Definition Path_mkdir_exist_ok (fs : FS) (p : PurePath) : result FS :=
  match Os.mkdir fs p with
  | inr fs' => inr fs'
  | inl (FileNotFoundError q) => inl (FileNotFoundError q)
  | inl e => if Os.is_dir fs p then inr fs else inl e
  end.

(** [Path.mkdir(parents=True, exist_ok=True)] on the path with root [r] and
    the components [rev_parts] in reverse order: on [FileNotFoundError] the
    parent is made first. *)
Fixpoint Path_mkdir_rev (fs : FS) (r : string) (rev_parts : list string) : result FS :=
  let p := mkPath r (reverse rev_parts) in
  match Os.mkdir fs p with
  | inr fs' => inr fs'
  | inl (FileNotFoundError q) =>
      match rev_parts with
      | [] => inl (FileNotFoundError q)
      | _ :: rev_parent =>
          match Path_mkdir_rev fs r rev_parent with
          | inl e => inl e
          | inr fs' => Path_mkdir_exist_ok fs' p
          end
      end
  | inl e => if Os.is_dir fs p then inr fs else inl e
  end.

Definition Path_mkdir_parents (fs : FS) (p : PurePath) : result FS :=
  Path_mkdir_rev fs (root p) (reverse (parts p)).

(** ** The state of a run and its monad

    [input_data_cache] is the cell behind the [lazyproperty]
    [OutputDataMaker.input_data]: empty on a new maker, and holding the very
    objects that [process] mutates afterwards. *)

Record InputData (SED : Type) : Type := mkInputData {
  (** [datasets.to_dict()['data']] *)
  datasets : list json;
  (** [sources.to_dict()['data']] *)
  sources : list json;
  (** [seds.data] *)
  seds : list SED;
}.
Global Arguments mkInputData {_} _ _ _.
Global Arguments datasets {_} _.
Global Arguments sources {_} _.
Global Arguments seds {_} _.

Record world (SED : Type) : Type := mkWorld {
  fs : FS;
  logs : list log_record;
  input_data_cache : option (InputData SED);
}.
Global Arguments mkWorld {_} _ _ _.
Global Arguments fs {_} _.
Global Arguments logs {_} _.
Global Arguments input_data_cache {_} _.

Definition M (SED A : Type) : Type := world SED → world SED * result A.

Global Instance M_ret {SED : Type} : MRet (M SED) := λ A a w, (w, inr a).
Global Instance M_bind {SED : Type} : MBind (M SED) := λ A B f m w,
  match m w with
  | (w', inr a) => f a w'
  | (w', inl e) => (w', inl e)
  end.

(** A pure computation that may raise. *)
Definition lift {SED A : Type} (r : result A) : M SED A := λ w, (w, r).

Definition get_fs {SED : Type} : M SED FS := λ w, (w, inr (fs w)).

(** A file-tree operation: the tree changes only when it succeeds. *)
Definition fs_op {SED : Type} (f : FS → result FS) : M SED unit := λ w,
  match f (fs w) with
  | inr fs' => (mkWorld fs' (logs w) (input_data_cache w), inr tt)
  | inl e => (w, inl e)
  end.

Definition emit {SED : Type} (l : level) (m : string) : M SED unit := λ w,
  (mkWorld (fs w) (logs w ++ [LogRecord l m]) (input_data_cache w), inr tt).

Definition get_cache {SED : Type} : M SED (option (InputData SED)) := λ w,
  (w, inr (input_data_cache w)).

Definition set_cache {SED : Type} (i : InputData SED) : M SED unit := λ w,
  (mkWorld (fs w) (logs w) (Some i), inr tt).

Global Instance result_ret : MRet (sum exn) := λ A a, inr a.
Global Instance result_bind : MBind (sum exn) := λ A B f r,
  match r with
  | inr a => f a
  | inl e => inl e
  end.
Global Instance result_fmap : FMap (sum exn) := λ A B f r,
  match r with
  | inr a => inr (f a)
  | inl e => inl e
  end.

(** ** The collaborators

    The modules [gammacat.info], [gammacat.sed] and [gammacat.input] are not
    among the sources; they and astropy's tables are parameters, used through
    the interface below. [fnmatch] is the matching of one file name against
    one pattern component, as pathlib's globbing uses it
    ([fnmatch name pattern]). *)

Record SED (Table : Type) : Type := mkSED { sed_table : Table; sed_path : string }.
Global Arguments mkSED {_} _ _.
Global Arguments sed_table {_} _.
Global Arguments sed_path {_} _.

Class Collaborators : Type := {
  Table : Type;
  Meta : Type;
  (** [table.meta] *)
  table_meta : Table → Meta;
  (** the text that [table.write(..., format='ascii.ecsv')] writes *)
  table_ecsv : Table → string;
  (** [gammacat_info.base_dir] and [gammacat_info.info_dict] *)
  base_dir : PurePath;
  info_dict : json;
  (** [gammacat_tag.source_dataset_filename] and [gammacat_tag.source_str] *)
  source_dataset_filename : Meta → string;
  source_str : Meta → string;
  (** [SED.process], which changes the object it is called on *)
  process : SED Table → SED Table;
  (** [SEDList.read().data] *)
  SEDList_read : list (SED Table);
  (** [InputData.read()] *)
  InputData_read : InputData (SED Table);
  fnmatch : string → string → bool;
}.

Abbreviation Run A := (M (SED Table) A).

(** ** [log_list_difference] *)

Definition log_list_difference `{Collaborators} (actual expected : list string) : Run unit :=
  let missing := sorted (elements (py_set expected ∖ py_set actual)) in
  (if decide (missing ≠ []) then emit ERROR ("Missing: " +:+ Repr.repr_list missing)
   else mret tt);;
  let extra := sorted (elements (py_set actual ∖ py_set expected)) in
  if decide (extra ≠ []) then emit ERROR ("Extra: " +:+ Repr.repr_list extra)
  else mret tt.

(** ** [OutputDataConfig] *)

Module OutputDataConfig.
Section config.
Context `{Collaborators}.

Definition path : PurePath := base_dir </> "docs/data".

Definition gammacat_yaml : PurePath := path </> "gammacat.yaml".
Definition gammacat_ecsv : PurePath := path </> "gammacat.ecsv".
Definition gammacat_fits : PurePath := path </> "gammacat.fits.gz".

Definition index_datasets_json : PurePath := path </> "gammacat-datasets.json".
Definition index_sources_json : PurePath := path </> "gammacat-sources.json".

Definition make_filename (meta : Meta) (datatype : string) (relative : bool)
    : result PurePath :=
  let tag := source_dataset_filename meta in
  let base_path := if relative then Pathlib.parse_parts "" else path in
  let source_path := base_path </> "sources" </> source_str meta in
  if decide (datatype = "sed") then inr (source_path </> (tag +:+ "_sed.ecsv"))
  else if decide (datatype = "lc") then inr (source_path </> (tag +:+ "_lc.ecsv"))
  else inl (ValueError ("Invalid datatype: " +:+ datatype)).

End config.
End OutputDataConfig.

(** ** [OutputData] *)

(** ** pathlib: the selectors behind [Path.glob] and [Path.rglob]

    As in CPython 3.11. The scan does not follow the order of the
    traversal: a selector is given as the test whether it yields an entry. *)

Module Glob.
Section glob.
Context `{Collaborators}.

(** [_is_wildcard_pattern] *)
Definition is_wildcard_pattern (pat : string) : bool :=
  Str.contains "*" pat || Str.contains "?" pat || Str.contains "[" pat.

(** The selector classes; [dironly] is whether there are child parts. *)
Inductive selector : Type :=
  | TerminatingSelector
  | PreciseSelector (name : string) (dironly : bool) (successor : selector)
  | WildcardSelector (pat : string) (dironly : bool) (successor : selector)
  | RecursiveWildcardSelector (successor : selector).

(** [_make_selector(pattern_parts, flavour)]; without parts it is the
    terminating selector that [_Selector.__init__] takes as the successor. *)
Fixpoint make_selector (pattern_parts : list string) : result selector :=
  match pattern_parts with
  | [] => inr TerminatingSelector
  | pat :: child_parts =>
      if decide (pat = "") then inr TerminatingSelector
      else if decide (pat = "**") then
        successor ← make_selector child_parts;
        inr (RecursiveWildcardSelector successor)
      else if Str.contains_double_star pat then
        inl (ValueError "Invalid pattern: '**' can only be an entire path component")
      else
        successor ← make_selector child_parts;
        let dironly := bool_decide (child_parts ≠ []) in
        inr (if is_wildcard_pattern pat
             then WildcardSelector pat dironly successor
             else PreciseSelector pat dironly successor)
  end.

(** Whether [sel._select_from], called on the directory with the components
    [seen] below [dir], yields the path with the further components [rel].
    The precise selector asks for the child of its name, the wildcard
    selector takes the entries of the directory whose names match, the
    recursive one starts its successor in the directory and in every
    directory below it. *)
Fixpoint yields (fs : FS) (dir : PurePath) (sel : selector) (seen rel : list string)
    {struct sel} : bool :=
  match sel with
  | TerminatingSelector => bool_decide (rel = [])
  | PreciseSelector name dironly successor =>
      match rel with
      | n :: rel' =>
          let path := mkPath (root dir) (parts dir ++ seen ++ [n]) in
          bool_decide (n = name)
          && (if dironly then Os.is_dir fs path else Os.path_exists fs path)
          && yields fs dir successor (seen ++ [n]) rel'
      | [] => false
      end
  | WildcardSelector pat dironly successor =>
      match rel with
      | n :: rel' =>
          let path := mkPath (root dir) (parts dir ++ seen ++ [n]) in
          Os.path_exists fs path
          && (if dironly then Os.is_dir fs path else true)
          && fnmatch n pat
          && yields fs dir successor (seen ++ [n]) rel'
      | [] => false
      end
  | RecursiveWildcardSelector successor =>
      (fix iterate_directories (seen rel : list string) {struct rel} : bool :=
         yields fs dir successor seen rel
         || match rel with
            | n :: rel' =>
                Os.is_dir fs (mkPath (root dir) (parts dir ++ seen ++ [n]))
                && iterate_directories (seen ++ [n]) rel'
            | [] => false
            end) seen rel
  end.

End glob.
End Glob.

Module OutputData.
Section output_data.
Context `{Collaborators}.

Record t : Type := mk {
  path : PurePath;
  index_dataset : option json;
  index_sources : option json;
  gammacat : option Table;
}.

(** [OutputData(index_dataset=None, index_sources=None, gammacat=None)] *)
Definition init (index_dataset index_sources : option json) (gammacat : option Table) : t :=
  mk OutputDataConfig.path index_dataset index_sources gammacat.

(** [p.relative_to(other)] *)
Definition relative_to (p other : PurePath) : result PurePath :=
  if decide (root p = root other) then
    match Pathlib.strip_prefix (parts other) (parts p) with
    | Some rel => inr (mkPath "" rel)
    | None => inl (ValueError (Pathlib.str p +:+ " does not start with " +:+ Pathlib.str other))
    end
  else inl (ValueError (Pathlib.str p +:+ " does not start with " +:+ Pathlib.str other)).

(** The entries of the tree strictly below [dir] that can be reached, with
    their components relative to [dir], in the order in which the tree lists
    them. *)
Definition entries_below (fs : FS) (dir : PurePath) : list (list string) :=
  omap (λ kn : (string * list string) * node,
          if decide (kn.1.1 = root dir) then
            match Pathlib.strip_prefix (parts dir) kn.1.2 with
            | Some (c :: rel) =>
                match Os.stat fs (mkPath kn.1.1 kn.1.2) with
                | Some _ => Some (c :: rel)
                | None => None
                end
            | _ => None
            end
          else None)
       (map_to_list fs).

(** [dir.rglob(pattern)]: the paths that the selector for [**] followed by
    the parts of the pattern yields from [dir], each once, in the order of
    the tree and not of the traversal. A pattern that ends with a slash has
    an empty last part. *)
Definition rglob (fs : FS) (dir : PurePath) (pattern : string) : result (list PurePath) :=
  let pat := Pathlib.parse_parts pattern in
  if decide (root pat = "") then
    let pattern_parts :=
      parts pat ++ (if Str.endswith Str.slash pattern then [""] else []) in
    selector ← Glob.make_selector ("**" :: pattern_parts);
    inr (if Os.is_dir fs dir then
           (λ rel, mkPath (root dir) (parts dir ++ rel)) <$>
             filter (λ rel, Glob.yields fs dir selector [] rel = true)
                    ([] :: entries_below fs dir)
         else [])
  else inl (NotImplementedError "Non-relative patterns are unsupported").

Definition list_of_files (self : t) (pattern : string) : Run (list string) :=
  tree ← get_fs;
  found ← lift (rglob tree (path self) pattern);
  lift (mapM (λ p, Pathlib.str <$> relative_to p (path self))
             (filter (λ p, Os.is_file tree p = true) found)).

(** [value[k]] for a string [k] *)
Definition getitem (value : option json) (k : string) : result json :=
  match value with
  | Some (JObj kv) =>
      match OrderedDict.getitem k kv with
      | Some v => inr v
      | None => inl (KeyError k)
      end
  | Some (JList _) => inl (TypeError "list indices must be integers or slices, not str")
  | Some (JStr _) => inl (TypeError "string indices must be integers")
  | _ => inl (TypeError "object is not subscriptable")
  end.

(** The recorded file list as a list of [str]. The index written by
    [make_index_files_datasets] holds an array of strings; other values are
    not part of this model and are turned down here. *)
Definition as_paths (v : json) : result (list string) :=
  match v with
  | JList l =>
      mapM (λ x, match x with
                 | JStr s => inr s
                 | _ => inl (TypeError "the recorded file list holds a value that is not a str")
                 end) l
  | _ => inl (TypeError "the recorded file list is not an array")
  end.

Definition expected_files_extra : list string :=
  [ "README.md";
    "gammacat-datasets.json";
    "gammacat-sources.json";
    "gammacat.fits.gz";
    "gammacat.ecsv";
    "gammacat.yaml" ].

Definition validate_list_of_files (self : t) : Run unit :=
  actual ← list_of_files self "*";
  expected ← lift (getitem (index_dataset self) "files" ≫= as_paths);
  log_list_difference actual expected;;
  expected_files_sed ← lift (mapM
    (λ sed, Pathlib.str <$>
       OutputDataConfig.make_filename (table_meta (sed_table sed)) "sed" true)
    SEDList_read);
  let expected_files := expected_files_extra ++ expected_files_sed in
  log_list_difference actual expected_files.

Definition validate (self : t) : Run unit :=
  emit INFO "Validating output data ...";;
  validate_list_of_files self.

End output_data.
End OutputData.

(** ** [OutputDataMaker] *)

Module OutputDataMaker.
Section maker.
Context `{Collaborators}.

(** Modelled from the spec: [write_json(data, path)] of [gammacat.utils],
    which is not among the sources. It writes the object as JSON to the path
    and keeps the order of the keys; the file is opened for writing as any
    other. *)
Definition write_json (data : json) (path : PurePath) : Run unit :=
  fs_op (λ tree, Os.write tree path (Json data)).

(** The [lazyproperty] [input_data]: read on first use, then kept. *)
Definition input_data : Run (InputData (SED Table)) :=
  cached ← get_cache;
  match cached with
  | Some i => mret i
  | None =>
      emit INFO "Reading input data ...";;
      set_cache InputData_read;;
      mret InputData_read
  end.

(** The objects in [input_data.seds.data] after some of them were processed:
    the object is changed where it lives. *)
Definition store_seds (l : list (SED Table)) : Run unit :=
  cached ← get_cache;
  match cached with
  | Some i => set_cache (mkInputData (datasets i) (sources i) l)
  | None => mret tt
  end.

(** The loop of [make_sed_files], with [done] the objects already visited.
    The table is written to the path itself (the code passes [str(path)],
    which names the same file) and replaces a file that is there. *)
Fixpoint make_sed_loop (done todo : list (SED Table)) : Run unit :=
  match todo with
  | [] => mret tt
  | sed :: rest =>
      emit DEBUG ("Processing SED: " +:+ sed_path sed);;
      let sed' := process sed in
      store_seds (done ++ sed' :: rest);;
      path ← lift (OutputDataConfig.make_filename (table_meta (sed_table sed')) "sed" false);
      fs_op (λ tree, Path_mkdir_parents tree (Pathlib.parent path));;
      emit INFO ("Writing " +:+ Pathlib.str path);;
      fs_op (λ tree, Os.write tree path (Text (table_ecsv (sed_table sed'))));;
      make_sed_loop (done ++ [sed']) rest
  end.

Definition make_sed_files : Run unit :=
  i ← input_data;
  make_sed_loop [] (seds i).

Definition make_index_files_datasets : Run unit :=
  let data := OrderedDict.empty in
  let data := OrderedDict.setitem "info" info_dict data in
  i ← input_data;
  let data := OrderedDict.setitem "data" (JList (datasets i)) data in
  files ← OutputData.list_of_files (OutputData.init None None None) "*";
  let data := OrderedDict.setitem "files" (JList (JStr <$> files)) data in
  let path := OutputDataConfig.index_datasets_json in
  write_json (JObj data) path.

Definition make_index_files_sources : Run unit :=
  let data := OrderedDict.empty in
  let data := OrderedDict.setitem "info" info_dict data in
  i ← input_data;
  let data := OrderedDict.setitem "data" (JList (sources i)) data in
  let path := OutputDataConfig.index_sources_json in
  write_json (JObj data) path.

Definition make_index_files : Run unit :=
  make_index_files_datasets;;
  make_index_files_sources.

Definition make_all : Run unit :=
  make_sed_files;;
  make_index_files.

End maker.
End OutputDataMaker.

(** * Notions used in the statements and in the proofs *)

(** A single component: what [sources] or a file name is. *)
Definition component (s : string) : Prop :=
  s ≠ "" ∧ s ≠ "." ∧ Str.contains Str.slash s = false.

(** A path with its content, as [make_sed_files] writes it: the parent
    directory is made, then the file is written. *)
Definition put (tree : FS) (p : PurePath) (c : file_content) : result FS :=
  tree' ← Path_mkdir_parents tree (Pathlib.parent p);
  Os.write tree' p c.

(** A list of such writes in a row, stopping at the first that raises. *)
Fixpoint puts (tree : FS) (l : list (PurePath * file_content)) : result FS :=
  match l with
  | [] => inr tree
  | (p, c) :: l' =>
      match put tree p c with
      | inr tree' => puts tree' l'
      | inl e => inl e
      end
  end.

(** The content written last to the key [k] by the list of writes [l]. *)
Fixpoint last_write (k : string * list string) (l : list (PurePath * file_content))
    : option file_content :=
  match l with
  | [] => None
  | (p, c) :: l' =>
      match last_write k l' with
      | Some c' => Some c'
      | None => if decide (Pathlib.key p = k) then Some c else None
      end
  end.

(** Directories stay directories and files stay files. *)
Definition keeps (t t' : FS) : Prop :=
  ∀ k, match t !! k with
       | Some Dir => t' !! k = Some Dir
       | Some (File _) => ∃ c, t' !! k = Some (File c)
       | None => True
       end.

(** What is there stays as it is, and what is new is a directory. *)
Definition grows (t t' : FS) : Prop :=
  ∀ k, match t !! k with
       | Some n => t' !! k = Some n
       | None => t' !! k = None ∨ t' !! k = Some Dir
       end.

(** Every path of [l] is a file of the tree in a directory of the tree. *)
Definition settled (t : FS) (l : list (PurePath * file_content)) : Prop :=
  Forall (λ pc, parts pc.1 ≠ [] ∧ Os.is_dir t (Pathlib.parent pc.1) = true ∧
                ∃ c0, t !! Pathlib.key pc.1 = Some (File c0)) l.

(** The writes of [l] alone, one after the other. *)
Definition overwrite (t : FS) (l : list (PurePath * file_content)) : FS :=
  foldl (λ t' pc, <[Pathlib.key pc.1 := File pc.2]> t') t l.

Section notions.
Context `{Collaborators}.

(** A name against one part of a pattern: by [fnmatch] when the part has a
    wildcard, else by equality. *)
Definition name_match (n p : string) : bool :=
  if Glob.is_wildcard_pattern p then fnmatch n p else bool_decide (n = p).

(** The last components of [rel] match the parts [ps] of a pattern one by
    one, whatever the depth; without parts, [rel] is a directory. This is
    what [rglob] selects for a pattern whose parts are free of [**]. *)
Definition tail_matches (fs : FS) (dir : PurePath) (ps rel : list string) : bool :=
  match ps with
  | [] => Os.is_dir fs (mkPath (root dir) (parts dir ++ rel))
  | _ => bool_decide (length ps ≤ length rel ∧
           Forall2 (λ n p, name_match n p = true) (drop (length rel - length ps) rel) ps)
  end.

(** The relative components of the regular files that [list_of_files] finds
    for such a pattern. *)
Definition listed_below (tree : FS) (dir : PurePath) (ps : list string) : list (list string) :=
  filter (λ rel, Os.is_file tree (mkPath (root dir) (parts dir ++ rel)) = true)
    (filter (λ rel, tail_matches tree dir ps rel = true)
       (OutputData.entries_below tree dir)).

(** The selector for parts that are free of [**]. *)
Fixpoint plain_selector (ps : list string) : Glob.selector :=
  match ps with
  | [] => Glob.TerminatingSelector
  | p :: ps' =>
      if Glob.is_wildcard_pattern p
      then Glob.WildcardSelector p (bool_decide (ps' ≠ [])) (plain_selector ps')
      else Glob.PreciseSelector p (bool_decide (ps' ≠ [])) (plain_selector ps')
  end.

(** The selectors that yield directories only: each one asks for a
    directory before it hands over to its successor. *)
Fixpoint dirs_only (sel : Glob.selector) : bool :=
  match sel with
  | Glob.TerminatingSelector => true
  | Glob.PreciseSelector _ dironly successor => dironly && dirs_only successor
  | Glob.WildcardSelector _ dironly successor => dironly && dirs_only successor
  | Glob.RecursiveWildcardSelector successor => dirs_only successor
  end.

(** The relative components of the regular files that [list_of_files] finds
    with the selector [sel]. *)
Definition found_below (tree : FS) (dir : PurePath) (sel : Glob.selector)
    : list (list string) :=
  filter (λ rel, Os.is_file tree (mkPath (root dir) (parts dir ++ rel)) = true)
    (filter (λ rel, Glob.yields tree dir sel [] rel = true)
       (OutputData.entries_below tree dir)).

(** The files listed by [list_of_files()] depend on the tree alone. *)
Definition listing (tree : FS) : list string :=
  (λ rel, Pathlib.str (mkPath "" rel)) <$>
    listed_below tree OutputDataConfig.path (parts (Pathlib.parse_parts "*")).

(** The path and the content that [make_sed_files] writes for a processed
    SED. *)
Definition sed_write (sed : SED Table) : PurePath * file_content :=
  (OutputDataConfig.path </> "sources" </> source_str (table_meta (sed_table sed))
     </> (source_dataset_filename (table_meta (sed_table sed)) +:+ "_sed.ecsv"),
   Text (table_ecsv (sed_table sed))).

(** The strings that the tagging functions give for [m] name a place below
    the directory they are joined to: neither the directory name nor the
    file name begins with a slash or has a part [..]. *)
Definition sed_below (m : Meta) : Prop :=
  root (Pathlib.parse_parts (source_str m)) = "" ∧
  root (Pathlib.parse_parts (source_dataset_filename m)) = "" ∧
  (".." ∉ parts (Pathlib.parse_parts (source_str m))) ∧
  (".." ∉ parts (Pathlib.parse_parts (source_dataset_filename m +:+ "_sed.ecsv"))).

(** The input data a maker works on: what it holds, or else what it reads. *)
Definition current_input (w : world (SED Table)) : InputData (SED Table) :=
  default InputData_read (input_data_cache w).

(** The state in which the input data has been read, if it was not yet. *)
Definition loaded (w : world (SED Table)) : world (SED Table) :=
  match input_data_cache w with
  | Some _ => w
  | None =>
      mkWorld (fs w) (logs w ++ [LogRecord INFO "Reading input data ..."])
        (Some InputData_read)
  end.

End notions.

(** * [OutputData.read] and [OutputData.__str__]

    Reading goes through astropy's FITS reader and through [json.load]; both
    are parameters here, together with [len] of a table. *)

Module OutputDataReader.
Section reader.
Context `{Collaborators}.

(** [json.loads] on the text of a file that was not written by [write_json]. *)
Variable json_loads : string → result json.
(** What astropy's FITS reader makes of the content of a file. *)
Variable fits_read : file_content → result Table.
(** [len(table)] *)
Variable table_len : Table → nat.

(** [open(p)] for reading, and reading all of it. *)
Definition open_read (tree : FS) (p : PurePath) : result file_content :=
  match Os.resolve_dirs tree (root p) [] (removelast (parts p)) with
  | Some e => inl e
  | None =>
      match parts p with
      | [] => inl (IsADirectoryError p)
      | _ =>
          match tree !! Pathlib.key p with
          | Some (File c) => inr c
          | Some Dir => inl (IsADirectoryError p)
          | None => inl (FileNotFoundError p)
          end
      end
  end.

(** Modelled from the spec: [load_json(path)] of [gammacat.utils], which is
    not among the sources. It opens the file and gives back the object in
    it: the document that [write_json] stored, with its key order, or what
    [json.loads] makes of any other text. *)
Definition load_json (p : PurePath) : Run json :=
  tree ← get_fs;
  c ← lift (open_read tree p);
  lift (match c with
        | Json doc => inr doc
        | Text s => json_loads s
        end).

(** [Table.read(str(path), format='fits')] *)
Definition Table_read (p : PurePath) : Run Table :=
  tree ← get_fs;
  c ← lift (open_read tree p);
  lift (fits_read c).

(** The class method [OutputData.read]. *)
Definition read : Run OutputData.t :=
  let path := OutputDataConfig.gammacat_fits in
  gammacat ← Table_read path;
  index_dataset ← load_json OutputDataConfig.index_datasets_json;
  index_sources ← load_json OutputDataConfig.index_sources_json;
  mret (OutputData.init (Some index_dataset) (Some index_sources) (Some gammacat)).

(** [len(v)] of a value read from JSON: the number of elements of an array,
    of keys of an object (they are distinct), of characters of a string
    (bytes here); the other values have no length. *)
Definition len (v : json) : result nat :=
  match v with
  | JList l => inr (length l)
  | JObj kv => inr (length kv)
  | JStr s => inr (String.length s)
  | _ => inl (TypeError "object has no len()")
  end.

Definition newline : string := String "010"%char "".

(** [OutputData.__str__]: each line is formatted when it is reached, so the
    first value that has no length decides the error. *)
Definition __str__ (self : OutputData.t) : result string :=
  let ss := "Output data summary:" +:+ newline in
  let ss := ss +:+ "Path: " +:+ Pathlib.str (OutputData.path self) +:+ newline in
  n_sources ← match OutputData.gammacat self with
               | Some table => inr (table_len table)
               | None => inl (TypeError "object of type 'NoneType' has no len()")
               end;
  let ss := ss +:+ "Number of sources: " +:+ pretty n_sources +:+ newline in
  n_datasets ← OutputData.getitem (OutputData.index_dataset self) "data" ≫= len;
  let ss := ss +:+ "Number of datasets: " +:+ pretty n_datasets +:+ newline in
  n_files ← OutputData.getitem (OutputData.index_dataset self) "files" ≫= len;
  let ss := ss +:+ "Number of files: " +:+ pretty n_files +:+ newline in
  inr ss.

End reader.
End OutputDataReader.

(** * A small catalogue

    One source with one SED and an empty tree, on which the statements are
    exercised. *)

Module Sample.

(** Matching of a file name against a pattern with [*] and [?]. *)
Fixpoint glob (pat name : string) : bool :=
  match pat with
  | EmptyString => bool_decide (name = "")
  | String c pat' =>
      if decide (c = "*"%char) then
        (fix star (n : string) : bool :=
           glob pat' n ||
           match n with
           | EmptyString => false
           | String _ n' => star n'
           end) name
      else
        match name with
        | EmptyString => false
        | String d name' =>
            (bool_decide (c = "?"%char) || bool_decide (c = d)) && glob pat' name'
        end
  end.

(** Processing puts a comment mark in front of a table that has none. *)
Definition marked (body : string) : string :=
  match body with
  | String c _ => if decide (c = "#"%char) then body else String "#" body
  | EmptyString => "#"
  end.

(** A table is its metadata, the source directory and the tag, and its text. *)
Definition catalogue : Collaborators := {|
  Table := (string * string) * string;
  Meta := string * string;
  table_meta := fst;
  table_ecsv := snd;
  base_dir := Pathlib.parse_parts "/gamma-cat";
  info_dict := JObj [("version", JStr "1")];
  source_dataset_filename := snd;
  source_str := fst;
  process := λ sed, mkSED ((sed_table sed).1, marked (sed_table sed).2) (sed_path sed);
  SEDList_read :=
    [mkSED (("tev-000001", "gammacat_tev-000001_2010A"), "e_ref dnde") "input/a.ecsv"];
  InputData_read :=
    mkInputData [JStr "dataset 1"] [JStr "source 1"]
      [mkSED (("tev-000001", "gammacat_tev-000001_2010A"), "e_ref dnde") "input/a.ecsv"];
  fnmatch := λ name pat, glob pat name;
|}.

(** A new maker on an empty tree. *)
Definition fresh : world (SED (@Table catalogue)) := mkWorld ∅ [] None.

(** The state after [make_sed_files], and after [make_all]. *)
Definition written : world (SED (@Table catalogue)) :=
  (OutputDataMaker.make_sed_files (H := catalogue) fresh).1.

Definition generated : world (SED (@Table catalogue)) :=
  (OutputDataMaker.make_all (H := catalogue) fresh).1.

(** A tree in which the output root holds a catalog file, and a reader that
    takes any text for a table without metadata. *)
Definition with_catalogue : world (SED (@Table catalogue)) :=
  mkWorld
    (list_to_map
       [(("/", ["gamma-cat"]), Dir);
        (("/", ["gamma-cat"; "docs"]), Dir);
        (("/", ["gamma-cat"; "docs"; "data"]), Dir);
        (("/", ["gamma-cat"; "docs"; "data"; "gammacat.fits.gz"]), File (Text "SIMPLE = T"))])
    [] None.

Definition fits_read (c : file_content) : result (@Table catalogue) :=
  match c with
  | Text s => inr (("", ""), s)
  | Json _ => inl (ValueError "not a FITS file")
  end.

Definition json_loads (s : string) : result json :=
  inl (ValueError "Expecting value").

Definition table_len (t : @Table catalogue) : nat := 1.

End Sample.

(** * Properties *)

(** ** Strings and paths *)

Lemma str_app_cons (x : ascii) (a b : string) :
  String x a +:+ b = String x (a +:+ b).
Proof. reflexivity. Qed.

Lemma str_app_nil_l (a : string) : "" +:+ a = a.
Proof. reflexivity. Qed.

Lemma str_app_assoc (a b c : string) : (a +:+ b) +:+ c = a +:+ (b +:+ c).
Proof.
  induction a as [|x a IH]; [done|]. by rewrite !str_app_cons, IH.
Qed.

Lemma str_app_nil_r (a : string) : a +:+ "" = a.
Proof. induction a as [|x a IH]; [done|]. by rewrite str_app_cons, IH. Qed.

Lemma str_app_eq_nil (a b : string) : a +:+ b = "" → a = "" ∧ b = "".
Proof. destruct a; [done|]. rewrite str_app_cons. discriminate. Qed.

Lemma str_length_app (a b : string) :
  String.length (a +:+ b) = String.length a + String.length b.
Proof.
  induction a as [|x a IH]; [done|]. rewrite str_app_cons. simpl. by rewrite IH.
Qed.

Lemma contains_app (c : ascii) (a b : string) :
  Str.contains c (a +:+ b) = Str.contains c a || Str.contains c b.
Proof.
  induction a as [|x a IH]; [done|]. rewrite str_app_cons. simpl.
  by rewrite IH, orb_assoc.
Qed.

Lemma split_no_sep (sep : ascii) (s : string) :
  Str.contains sep s = false → Str.split sep s = [s].
Proof.
  induction s as [|x s IH]; simpl; [done|].
  intros [Hx Hs]%orb_false_iff. apply bool_decide_eq_false in Hx.
  rewrite decide_False by done. by rewrite IH.
Qed.

Lemma join_cons (sep x : string) (l : list string) :
  l ≠ [] → Str.join sep (x :: l) = x +:+ sep +:+ Str.join sep l.
Proof. by destruct l. Qed.

Lemma join_app (sep : string) (a b : list string) :
  a ≠ [] → b ≠ [] →
  Str.join sep (a ++ b) = Str.join sep a +:+ sep +:+ Str.join sep b.
Proof.
  intros Ha Hb. induction a as [|x a IH]; [done|].
  destruct a as [|y a].
  - simpl app. by rewrite join_cons.
  - change ((x :: y :: a) ++ b) with (x :: ((y :: a) ++ b)).
    rewrite !join_cons by done. rewrite IH by done.
    by rewrite !str_app_assoc.
Qed.

(** A string that does not begin with a slash parses to a relative path. *)
Lemma parse_parts_relative (s : string) :
  root (Pathlib.parse_parts s) = "" →
  Pathlib.parse_parts s = mkPath "" (filter Pathlib.kept (Str.split Str.slash s)).
Proof.
  unfold Pathlib.parse_parts, Pathlib.splitroot.
  destruct s as [|c s]; [done|].
  destruct (decide (c = Str.slash)); [|done].
  by destruct (decide _).
Qed.

Lemma root_parse_parts_app (a b : string) :
  root (Pathlib.parse_parts a) = "" → root (Pathlib.parse_parts b) = "" →
  root (Pathlib.parse_parts (a +:+ b)) = "".
Proof.
  destruct a as [|c a]; [done|].
  unfold Pathlib.parse_parts, Pathlib.splitroot. simpl.
  destruct (decide (c = Str.slash)); [|done].
  by destruct (decide _).
Qed.

Lemma joinpath_relative (p : PurePath) (s : string) :
  root (Pathlib.parse_parts s) = "" →
  p </> s = mkPath (root p) (parts p ++ parts (Pathlib.parse_parts s)).
Proof. intros Hs. unfold Pathlib.joinpath. by rewrite decide_True. Qed.

Lemma parse_parts_component (s : string) :
  component s → Pathlib.parse_parts s = mkPath "" [s].
Proof.
  intros (Hne & Hdot & Hslash).
  assert (root (Pathlib.parse_parts s) = "") as Hroot.
  { unfold Pathlib.parse_parts, Pathlib.splitroot.
    destruct s as [|c s]; [done|]. simpl in Hslash.
    apply orb_false_iff in Hslash as [Hc _]. apply bool_decide_eq_false in Hc.
    by rewrite decide_False. }
  rewrite parse_parts_relative by done. rewrite split_no_sep by done.
  rewrite filter_cons_True by done. done.
Qed.

Lemma joinpath_component (p : PurePath) (s : string) :
  component s → p </> s = mkPath (root p) (parts p ++ [s]).
Proof.
  intros Hs. unfold Pathlib.joinpath. by rewrite parse_parts_component.
Qed.

Lemma component_with_suffix (tag suffix : string) :
  Str.contains Str.slash tag = false → component suffix →
  2 ≤ String.length suffix → component (tag +:+ suffix).
Proof.
  intros Ht (Hne & Hdot & Hs) Hlen. split_and!.
  - intros [_ ?]%str_app_eq_nil. done.
  - intros Heq. apply (f_equal String.length) in Heq.
    rewrite str_length_app in Heq. simpl in Heq. lia.
  - by rewrite contains_app, Ht, Hs.
Qed.

Lemma str_nonempty (r : string) (l : list string) :
  r +:+ Str.join "/" l ≠ "" → Pathlib.str (mkPath r l) = r +:+ Str.join "/" l.
Proof. intros Hne. unfold Pathlib.str. simpl. by rewrite decide_False. Qed.

Lemma join_snoc_nonempty (l : list string) (x : string) :
  x ≠ "" → Str.join "/" (l ++ [x]) ≠ "".
Proof.
  intros Hx. destruct l as [|y l]; [done|].
  rewrite (join_app "/" (y :: l) [x]) by done.
  intros (_ & [=])%str_app_eq_nil.
Qed.

Lemma str_snoc (r : string) (l : list string) (x : string) :
  l ≠ [] → r +:+ Str.join "/" l ≠ "" →
  Pathlib.str (mkPath r (l ++ [x])) = Pathlib.str (mkPath r l) +:+ "/" +:+ x.
Proof.
  intros Hl Hne. rewrite (str_nonempty r l) by done.
  rewrite str_nonempty.
  - rewrite join_app by done. simpl Str.join. by rewrite <-!str_app_assoc.
  - rewrite join_app by done. rewrite <-!str_app_assoc.
    intros ([? [=]]%str_app_eq_nil & _)%str_app_eq_nil.
Qed.

Lemma str_concat (r : string) (a b : list string) :
  Str.join "/" a ≠ "" → Str.join "/" b ≠ "" →
  Pathlib.str (mkPath r (a ++ b)) =
    Pathlib.str (mkPath r a) +:+ "/" +:+ Pathlib.str (mkPath "" b).
Proof.
  intros Ha Hb.
  assert (a ≠ []) by (by intros ->). assert (b ≠ []) by (by intros ->).
  rewrite (str_nonempty r a), (str_nonempty "" b), str_nonempty.
  - rewrite join_app by done. by rewrite !str_app_assoc.
  - rewrite join_app by done. intros (_ & (? & _)%str_app_eq_nil)%str_app_eq_nil. done.
  - done.
  - intros (_ & ?)%str_app_eq_nil. done.
Qed.

Lemma join_cons_nonempty (x : string) (l : list string) :
  x ≠ "" → Str.join "/" (x :: l) ≠ "".
Proof.
  intros Hx. destruct l as [|y l]; [done|].
  rewrite join_cons by done. intros (? & _)%str_app_eq_nil. done.
Qed.

(** ** [OutputDataConfig] *)

Section config_facts.
Context `{Collaborators}.

Lemma path_unfold :
  OutputDataConfig.path = mkPath (root base_dir) (parts base_dir ++ ["docs"; "data"]).
Proof. reflexivity. Qed.

Lemma path_join_nonempty : Str.join "/" (parts OutputDataConfig.path) ≠ "".
Proof.
  rewrite path_unfold. simpl parts.
  change (parts base_dir ++ ["docs"; "data"]) with (parts base_dir ++ [ "docs" ] ++ [ "data" ]).
  rewrite (assoc_L (++)). by apply join_snoc_nonempty.
Qed.

Lemma make_filename_unfold (m : Meta) (datatype : string) (relative : bool) :
  OutputDataConfig.make_filename m datatype relative =
    let base := if relative then Pathlib.parse_parts "" else OutputDataConfig.path in
    let source_dir := base </> "sources" </> source_str m in
    if decide (datatype = "sed")
    then inr (source_dir </> (source_dataset_filename m +:+ "_sed.ecsv"))
    else if decide (datatype = "lc")
    then inr (source_dir </> (source_dataset_filename m +:+ "_lc.ecsv"))
    else inl (ValueError ("Invalid datatype: " +:+ datatype)).
Proof. reflexivity. Qed.

(** The path built for a relative directory string [src] and a relative file
    name [file]. *)
Lemma source_file_relative (base : PurePath) (src file : string) :
  root (Pathlib.parse_parts src) = "" → root (Pathlib.parse_parts file) = "" →
  base </> "sources" </> src </> file =
    mkPath (root base)
      (parts base ++ "sources" :: parts (Pathlib.parse_parts src)
                  ++ parts (Pathlib.parse_parts file)).
Proof.
  intros Hsrc Hfile.
  rewrite (joinpath_relative _ file) by done.
  rewrite (joinpath_relative _ src) by done.
  rewrite (joinpath_component base "sources") by done.
  simpl. by rewrite <-!(assoc_L (++)).
Qed.

End config_facts.

(** C5: [make_filename] raises [ValueError] exactly when the datatype is
    neither [sed] nor [lc], and returns a path otherwise; it is a pure
    computation, so raising leaves the state of the run as it was. *)
Theorem make_filename_invalid_datatype `{Collaborators}
    (m : Meta) (datatype : string) (relative : bool) :
  ((datatype ∈ ["sed"; "lc"] ∧
      ∃ p, OutputDataConfig.make_filename m datatype relative = inr p)
   ∨ ((datatype ∉ ["sed"; "lc"]) ∧
      OutputDataConfig.make_filename m datatype relative =
        inl (ValueError ("Invalid datatype: " +:+ datatype))))
  ∧ (∀ w : world (SED Table),
      (lift (OutputDataConfig.make_filename m datatype relative) : Run PurePath) w =
        (w, OutputDataConfig.make_filename m datatype relative)).
Proof.
  split; [|done]. rewrite make_filename_unfold. cbv zeta.
  destruct (decide (datatype = "sed")) as [->|Hsed].
  { left. split; [apply list_elem_of_here|eauto]. }
  destruct (decide (datatype = "lc")) as [->|Hlc].
  { left. split; [apply list_elem_of_further, list_elem_of_here|eauto]. }
  right. split; [|done].
  rewrite !not_elem_of_cons. split_and!; [done|done|apply not_elem_of_nil].
Qed.

(** C4: for every metadata record, [make_filename] returns for [sed] the
    path [source_dir / "<tag>_sed.ecsv"] and for [lc] the path
    [source_dir / "<tag>_lc.ecsv"], where [source_dir] is
    [base / "sources" / source_str(m)] with [base] the base path
    ([relative=False]) or the empty path ([relative=True]). Where the
    directory name and the tag are single path components, this is the file
    of that name in that directory, and its string is
    [<base>/sources/<source_str>/<tag>_sed.ecsv], respectively [..._lc.ecsv]. *)
Theorem make_filename_sed_lc `{Collaborators} (m : Meta) (relative : bool) :
  let tag := source_dataset_filename m in
  let base := if relative then Pathlib.parse_parts "" else OutputDataConfig.path in
  let source_dir := base </> "sources" </> source_str m in
  let prefix := if relative then "" else Pathlib.str OutputDataConfig.path +:+ "/" in
  OutputDataConfig.make_filename m "sed" relative =
    inr (source_dir </> (tag +:+ "_sed.ecsv")) ∧
  OutputDataConfig.make_filename m "lc" relative =
    inr (source_dir </> (tag +:+ "_lc.ecsv")) ∧
  (component (source_str m) → Str.contains Str.slash tag = false →
   ∃ sed lc : PurePath,
    OutputDataConfig.make_filename m "sed" relative = inr sed ∧
    OutputDataConfig.make_filename m "lc" relative = inr lc ∧
    Pathlib.parent sed = source_dir ∧ Pathlib.name sed = tag +:+ "_sed.ecsv" ∧
    Pathlib.parent lc = source_dir ∧ Pathlib.name lc = tag +:+ "_lc.ecsv" ∧
    root source_dir = root base ∧
    parts source_dir = parts base ++ ["sources"; source_str m] ∧
    Pathlib.str sed =
      prefix +:+ "sources/" +:+ source_str m +:+ "/" +:+ tag +:+ "_sed.ecsv" ∧
    Pathlib.str lc =
      prefix +:+ "sources/" +:+ source_str m +:+ "/" +:+ tag +:+ "_lc.ecsv").
Proof.
  intros tag base source_dir prefix.
  split; [done|]. split; [done|]. intros Hsrc Htag.
  assert (component (tag +:+ "_sed.ecsv")) as Hsed
    by (apply component_with_suffix; [done|done|simpl; lia]).
  assert (component (tag +:+ "_lc.ecsv")) as Hlc
    by (apply component_with_suffix; [done|done|simpl; lia]).
  assert (source_dir = mkPath (root base) (parts base ++ ["sources"; source_str m])) as Hdir.
  { unfold source_dir. rewrite (joinpath_component _ (source_str m)) by done.
    rewrite (joinpath_component base "sources") by done. simpl.
    by rewrite <-(assoc_L (++)). }
  assert (∀ file, component file →
    Pathlib.str (source_dir </> file) =
      prefix +:+ "sources/" +:+ source_str m +:+ "/" +:+ file) as Hstr.
  { intros file Hfile. rewrite (joinpath_component _ file) by done.
    rewrite Hdir. simpl root. simpl parts. rewrite <-(assoc_L (++)).
    change (["sources"; source_str m] ++ [file]) with ("sources" :: [source_str m; file]).
    unfold prefix, base. destruct relative.
    - change (parts (Pathlib.parse_parts "")) with (@nil string).
      change (root (Pathlib.parse_parts "")) with "".
      rewrite app_nil_l, str_app_nil_l. rewrite str_nonempty; [done|].
      by apply join_cons_nonempty.
    - rewrite str_concat.
      + rewrite (str_nonempty "" ("sources" :: _)) by (by apply join_cons_nonempty).
        by rewrite !str_app_assoc.
      + apply path_join_nonempty.
      + by apply join_cons_nonempty. }
  exists (source_dir </> (tag +:+ "_sed.ecsv")), (source_dir </> (tag +:+ "_lc.ecsv")).
  split_and!; try done.
  - rewrite (joinpath_component _ _ Hsed). unfold Pathlib.parent. simpl.
    rewrite removelast_last. by destruct source_dir.
  - rewrite (joinpath_component _ _ Hsed). unfold Pathlib.name. simpl.
    by rewrite last_last.
  - rewrite (joinpath_component _ _ Hlc). unfold Pathlib.parent. simpl.
    rewrite removelast_last. by destruct source_dir.
  - rewrite (joinpath_component _ _ Hlc). unfold Pathlib.name. simpl.
    by rewrite last_last.
  - by rewrite Hdir.
  - by rewrite Hdir.
  - by apply Hstr.
  - by apply Hstr.
Qed.

(** C6: for [sed] and [lc], the relative path is the absolute one without
    the base output directory: the absolute path has the root of the base
    directory and its components followed by those of the relative path, and
    as strings the absolute path is the base directory, a slash and the
    relative path. The strings given by the collaborators are relative (they
    do not begin with a slash). *)
Theorem make_filename_relative_suffix `{Collaborators} (m : Meta) (datatype : string) :
  datatype ∈ ["sed"; "lc"] →
  root (Pathlib.parse_parts (source_str m)) = "" →
  root (Pathlib.parse_parts (source_dataset_filename m)) = "" →
  ∃ rel abs : PurePath,
    OutputDataConfig.make_filename m datatype true = inr rel ∧
    OutputDataConfig.make_filename m datatype false = inr abs ∧
    root rel = "" ∧
    root abs = root OutputDataConfig.path ∧
    parts abs = parts OutputDataConfig.path ++ parts rel ∧
    length (parts rel) < length (parts abs) ∧
    Pathlib.str abs =
      Pathlib.str OutputDataConfig.path +:+ "/" +:+ Pathlib.str rel ∧
    String.length (Pathlib.str rel) < String.length (Pathlib.str abs).
Proof.
  intros Hdt Hsrc Htag.
  assert (∀ suffix, root (Pathlib.parse_parts suffix) = "" →
    let file := source_dataset_filename m +:+ suffix in
    let rel := Pathlib.parse_parts "" </> "sources" </> source_str m </> file in
    let abs := OutputDataConfig.path </> "sources" </> source_str m </> file in
    root rel = "" ∧ root abs = root OutputDataConfig.path ∧
    parts abs = parts OutputDataConfig.path ++ parts rel ∧
    length (parts rel) < length (parts abs) ∧
    Pathlib.str abs = Pathlib.str OutputDataConfig.path +:+ "/" +:+ Pathlib.str rel ∧
    String.length (Pathlib.str rel) < String.length (Pathlib.str abs)) as Hgen.
  { intros suffix Hsuffix file rel abs.
    assert (root (Pathlib.parse_parts file) = "") as Hfile
      by (by apply root_parse_parts_app).
    unfold rel, abs. rewrite !source_file_relative by done.
    change (parts (Pathlib.parse_parts "")) with (@nil string).
    change (root (Pathlib.parse_parts "")) with "".
    rewrite app_nil_l. cbn [root parts].
    assert (Pathlib.str (mkPath (root OutputDataConfig.path)
              (parts OutputDataConfig.path ++ "sources" ::
                 parts (Pathlib.parse_parts (source_str m)) ++
                 parts (Pathlib.parse_parts file))) =
            Pathlib.str OutputDataConfig.path +:+ "/" +:+
            Pathlib.str (mkPath "" ("sources" ::
                 parts (Pathlib.parse_parts (source_str m)) ++
                 parts (Pathlib.parse_parts file)))) as Hstr.
    { rewrite str_concat; [by destruct OutputDataConfig.path| |].
      - apply path_join_nonempty.
      - by apply join_cons_nonempty. }
    split_and!; try done.
    - rewrite length_app. pose proof path_join_nonempty as Hne.
      destruct (parts OutputDataConfig.path); [done|]. simpl. lia.
    - rewrite Hstr, !str_length_app. change (String.length "/") with 1. lia. }
  rewrite !make_filename_unfold. cbv zeta.
  apply elem_of_cons in Hdt as [->|Hdt].
  { rewrite decide_True by done. eexists _, _. split_and!; [done|done|..]; by apply Hgen. }
  apply list_elem_of_singleton in Hdt as ->.
  rewrite decide_False by done. rewrite decide_True by done.
  eexists _, _. split_and!; [done|done|..]; by apply Hgen.
Qed.

(** ** The monad of a run *)

Lemma bind_run {SED A B : Type} (m : M SED A) (f : A → M SED B) (w : world SED) :
  (m ≫= f) w =
    match m w with
    | (w', inr a) => f a w'
    | (w', inl e) => (w', inl e)
    end.
Proof. reflexivity. Qed.

Lemma bind_assoc_run {SED A B C : Type}
    (m : M SED A) (f : A → M SED B) (g : B → M SED C) (w : world SED) :
  ((m ≫= f) ≫= g) w = (m ≫= λ a, f a ≫= g) w.
Proof. rewrite !bind_run. destruct (m w) as [w' [e|a]]; [done|]. by rewrite bind_run. Qed.

Lemma world_eta {SED : Type} (w : world SED) :
  mkWorld (fs w) (logs w) (input_data_cache w) = w.
Proof. by destruct w. Qed.

(** ** [log_list_difference] *)

(** [sorted(set(xs) - set(ys))] is the duplicate-free increasing list of the
    elements of [xs] that are not in [ys]. *)
Lemma sorted_difference (xs ys : list string) :
  let l := sorted (elements (py_set xs ∖ py_set ys)) in
  StronglySorted String.le l ∧ NoDup l ∧ ∀ x, x ∈ l ↔ x ∈ xs ∧ x ∉ ys.
Proof.
  intros l. unfold l, sorted. split_and!.
  - apply StronglySorted_merge_sort; apply _.
  - rewrite merge_sort_Permutation. apply NoDup_elements.
  - intros x. rewrite merge_sort_Permutation, elem_of_elements, elem_of_difference.
    unfold py_set. by rewrite !elem_of_list_to_set.
Qed.

Lemma py_set_same_elements (xs ys : list string) :
  (∀ x, x ∈ xs ↔ x ∈ ys) → py_set xs = py_set ys.
Proof.
  intros Hxy. apply set_eq. intros x. unfold py_set.
  by rewrite !elem_of_list_to_set.
Qed.

Lemma log_list_difference_run `{Collaborators}
    (actual expected : list string) (w : world (SED Table)) :
  let missing := sorted (elements (py_set expected ∖ py_set actual)) in
  let extra := sorted (elements (py_set actual ∖ py_set expected)) in
  log_list_difference actual expected w =
    (mkWorld (fs w)
       (logs w
        ++ match missing with
           | [] => []
           | _ => [LogRecord ERROR ("Missing: " +:+ Repr.repr_list missing)]
           end
        ++ match extra with
           | [] => []
           | _ => [LogRecord ERROR ("Extra: " +:+ Repr.repr_list extra)]
           end)
       (input_data_cache w), inr tt).
Proof.
  intros missing extra. unfold log_list_difference. fold missing. fold extra.
  rewrite bind_run. destruct w as [tree lg cache].
  destruct missing as [|x missing], extra as [|y extra]; simpl;
    unfold emit, mret, M_ret; simpl;
    rewrite ?app_nil_r, <-?(assoc_L (++)); done.
Qed.

(** C3: [log_list_difference] logs one [Missing] error with the sorted
    elements of [expected] that are not in [actual], when there are some,
    then one [Extra] error with the sorted elements of [actual] that are not
    in [expected], when there are some, and nothing else; it logs nothing
    when the two lists are the same; for [a; b] against [b; c] it logs
    [Missing: ['c']] and [Extra: ['a']]. *)
Theorem log_list_difference_reports `{Collaborators}
    (actual expected : list string) (w : world (SED Table)) :
  (∃ missing extra : list string,
     (StronglySorted String.le missing ∧ NoDup missing ∧
      ∀ x, x ∈ missing ↔ x ∈ expected ∧ x ∉ actual) ∧
     (StronglySorted String.le extra ∧ NoDup extra ∧
      ∀ x, x ∈ extra ↔ x ∈ actual ∧ x ∉ expected) ∧
     log_list_difference actual expected w =
       (mkWorld (fs w)
          (logs w
           ++ match missing with
              | [] => []
              | _ => [LogRecord ERROR ("Missing: " +:+ Repr.repr_list missing)]
              end
           ++ match extra with
              | [] => []
              | _ => [LogRecord ERROR ("Extra: " +:+ Repr.repr_list extra)]
              end)
          (input_data_cache w), inr tt))
  ∧ log_list_difference actual actual w = (w, inr tt)
  ∧ log_list_difference ["a"; "b"] ["b"; "c"] w =
      (mkWorld (fs w)
         (logs w ++ [LogRecord ERROR "Missing: ['c']"; LogRecord ERROR "Extra: ['a']"])
         (input_data_cache w), inr tt).
Proof.
  split_and!.
  - eexists _, _. split_and!; [apply sorted_difference..|apply log_list_difference_run].
  - rewrite log_list_difference_run. cbv zeta.
    rewrite difference_diag_L, elements_empty. simpl. by rewrite app_nil_r, world_eta.
  - rewrite log_list_difference_run. cbv zeta.
    assert (sorted (elements (py_set ["b"; "c"] ∖ py_set ["a"; "b"])) = ["c"]) as ->
      by (by vm_compute).
    assert (sorted (elements (py_set ["a"; "b"] ∖ py_set ["b"; "c"])) = ["a"]) as ->
      by (by vm_compute).
    done.
Qed.

(** C10: the two arguments are compared as sets: lists with the same
    elements, such as a list and any of its permutations or a list and the
    same list with elements repeated, give the same run and the same log. *)
Theorem log_list_difference_set_semantics `{Collaborators}
    (actual actual' expected expected' : list string) (w : world (SED Table)) :
  (∀ x, x ∈ actual ↔ x ∈ actual') →
  (∀ x, x ∈ expected ↔ x ∈ expected') →
  log_list_difference actual expected w = log_list_difference actual' expected' w.
Proof.
  intros Ha He. unfold log_list_difference.
  by rewrite (py_set_same_elements _ _ Ha), (py_set_same_elements _ _ He).
Qed.

(** ** [OutputData]: the file listing and the validation *)

Lemma mapM_inr {A B : Type} (f : A → result B) (g : A → B) (l : list A) :
  (∀ x, x ∈ l → f x = inr (g x)) → mapM f l = inr (g <$> l).
Proof.
  induction l as [|x l IH]; intros Hf; [done|].
  simpl. rewrite (Hf x) by apply list_elem_of_here. simpl.
  rewrite IH by (intros y Hy; by apply Hf, list_elem_of_further). done.
Qed.

Lemma result_bind_inr {A B : Type} (a : A) (f : A → result B) :
  (inr a ≫= f) = f a.
Proof. reflexivity. Qed.

Lemma filter_fmap_list {A B : Type} (f : A → B) (P : B → Prop)
    `{∀ y, Decision (P y)} (l : list A) :
  filter P (f <$> l) = f <$> filter (λ x, P (f x)) l.
Proof.
  induction l as [|x l IH]; [done|]. csimpl. rewrite !filter_cons.
  destruct (decide (P (f x))); csimpl; by rewrite IH.
Qed.

Lemma strip_prefix_app (pre rel : list string) :
  Pathlib.strip_prefix pre (pre ++ rel) = Some rel.
Proof.
  unfold Pathlib.strip_prefix.
  rewrite decide_True by apply take_app_length. by rewrite drop_app_length.
Qed.

Lemma strip_prefix_Some (pre l rel : list string) :
  Pathlib.strip_prefix pre l = Some rel → l = pre ++ rel.
Proof.
  unfold Pathlib.strip_prefix. destruct (decide _) as [Heq|]; [|done].
  intros [= <-]. by rewrite <-Heq at 1; rewrite take_drop.
Qed.

(** ** Resolution of paths *)

Lemma resolve_dirs_snoc (t : FS) (r : string) (seen todo : list string) (c : string) :
  Os.resolve_dirs t r seen (todo ++ [c]) = None ↔
    Os.resolve_dirs t r seen todo = None ∧ t !! (r, seen ++ todo ++ [c]) = Some Dir.
Proof.
  revert seen. induction todo as [|d todo IH]; intros seen; simpl.
  - unfold Pathlib.key. simpl. destruct (t !! (r, seen ++ [c])) as [[?|]|]; naive_solver.
  - unfold Pathlib.key. simpl.
    destruct (t !! (r, seen ++ [d])) as [[?|]|]; [naive_solver| |naive_solver].
    rewrite IH. by rewrite <-(assoc_L (++) seen [d]).
Qed.

Lemma is_dir_resolve (t : FS) (p : PurePath) :
  Os.is_dir t p = true ↔ Os.resolve_dirs t (root p) [] (parts p) = None.
Proof.
  unfold Os.is_dir, Os.stat, Pathlib.key.
  destruct (parts p) as [|c l _] using rev_ind; [done|].
  rewrite removelast_last, resolve_dirs_snoc. simpl.
  destruct (Os.resolve_dirs t (root p) [] l); [naive_solver|].
  destruct (l ++ [c]) eqn:E; [by destruct l|]. rewrite <-E.
  destruct (t !! (root p, l ++ [c])) as [[?|]|]; naive_solver.
Qed.

Lemma resolve_dirs_app_l (t : FS) (r : string) (seen a b : list string) :
  Os.resolve_dirs t r seen (a ++ b) = None → Os.resolve_dirs t r seen a = None.
Proof.
  revert seen. induction a as [|c a IH]; intros seen; simpl; [done|].
  destruct (t !! Pathlib.key _) as [[?|]|]; [done| |done]. apply IH.
Qed.

Section output_data_facts.
Context `{Collaborators}.

Lemma relative_to_below (dir : PurePath) (rel : list string) :
  OutputData.relative_to (mkPath (root dir) (parts dir ++ rel)) dir = inr (mkPath "" rel).
Proof.
  unfold OutputData.relative_to. simpl.
  rewrite decide_True by done. by rewrite strip_prefix_app.
Qed.

Lemma stat_file_lookup (tree : FS) (p : PurePath) (c : file_content) :
  Os.stat tree p = Some (File c) → tree !! Pathlib.key p = Some (File c).
Proof.
  unfold Os.stat. destruct (Os.resolve_dirs _ _ _ _); [done|].
  by destruct (parts p).
Qed.

Lemma elem_of_entries_below (tree : FS) (dir : PurePath) (rel : list string) :
  rel ∈ OutputData.entries_below tree dir ↔
    rel ≠ [] ∧ is_Some (tree !! (root dir, parts dir ++ rel)) ∧
    is_Some (Os.stat tree (mkPath (root dir) (parts dir ++ rel))).
Proof.
  unfold OutputData.entries_below. rewrite list_elem_of_omap. split.
  - intros ([[r ps] n] & Hin & Hsel). simpl in Hsel.
    apply elem_of_map_to_list in Hin.
    destruct (decide (r = root dir)) as [->|]; [|done].
    destruct (Pathlib.strip_prefix (parts dir) ps) as [[|c rel']|] eqn:Hpre; [done| |done].
    apply strip_prefix_Some in Hpre as ->.
    destruct (Os.stat _ _) eqn:Hstat; [|done]. injection Hsel as <-.
    split_and!; [done|by eexists|by eexists].
  - intros (Hne & [n Hn] & [n' Hstat]).
    exists ((root dir, parts dir ++ rel), n). split.
    + by apply elem_of_map_to_list.
    + simpl. rewrite decide_True by done. rewrite strip_prefix_app.
      destruct rel; [done|]. by rewrite Hstat.
Qed.

Lemma entries_below_not_dir (t : FS) (dir : PurePath) :
  Os.is_dir t dir = false → OutputData.entries_below t dir = [].
Proof.
  intros Hdir. apply elem_of_nil_inv. intros rel Hin.
  apply elem_of_entries_below in Hin as (Hne & _ & [n Hstat]).
  assert (Os.is_dir t dir = true) as Hd; [|by rewrite Hd in Hdir].
  apply is_dir_resolve. unfold Os.stat in Hstat. simpl in Hstat.
  destruct (Os.resolve_dirs _ _ _ _) eqn:Hres; [done|].
  rewrite removelast_app in Hres by done. by eapply resolve_dirs_app_l.
Qed.

Lemma list_of_files_run (self : OutputData.t) (pattern : string) (w : world (SED Table)) :
  OutputData.list_of_files self pattern w =
    (w, found ← OutputData.rglob (fs w) (OutputData.path self) pattern;
        mapM (λ p, Pathlib.str <$> OutputData.relative_to p (OutputData.path self))
             (filter (λ p, Os.is_file (fs w) p = true) found)).
Proof.
  unfold OutputData.list_of_files. rewrite bind_run. unfold get_fs.
  rewrite bind_run. unfold lift.
  by destruct (OutputData.rglob _ _ _) as [e|found].
Qed.

Lemma filter_ext_elem {A : Type} (P Q : A → Prop)
    `{∀ x, Decision (P x)} `{∀ x, Decision (Q x)} (l : list A) :
  (∀ x, x ∈ l → (P x ↔ Q x)) → filter P l = filter Q l.
Proof.
  induction l as [|x l IH]; intros Hpq; [done|].
  rewrite !filter_cons.
  rewrite IH by (intros y Hy; apply Hpq; by apply list_elem_of_further).
  pose proof (Hpq x (list_elem_of_here _ _)) as Hx.
  destruct (decide (P x)), (decide (Q x)); naive_solver.
Qed.

(** What lies above an entry of the tree is a directory. *)
Lemma is_dir_above (t : FS) (r : string) (a b : list string) :
  b ≠ [] → Os.path_exists t (mkPath r (a ++ b)) = true →
  Os.is_dir t (mkPath r a) = true.
Proof.
  intros Hb Hex. apply is_dir_resolve. unfold Os.path_exists, Os.stat in Hex.
  cbn [root parts] in *.
  destruct (Os.resolve_dirs _ _ _ _) eqn:Hres; [done|].
  rewrite removelast_app in Hres by done. by eapply resolve_dirs_app_l.
Qed.

Lemma is_dir_exists (t : FS) (p : PurePath) :
  Os.is_dir t p = true → Os.path_exists t p = true.
Proof. unfold Os.is_dir, Os.path_exists. by destruct (Os.stat t p) as [[]|]. Qed.

Lemma path_exists_above (t : FS) (r : string) (a b : list string) :
  Os.path_exists t (mkPath r (a ++ b)) = true →
  Os.path_exists t (mkPath r a) = true.
Proof.
  destruct b as [|c b]; [by rewrite app_nil_r|].
  intros Hex. apply is_dir_exists. by apply (is_dir_above _ _ _ (c :: b)).
Qed.

Lemma is_file_not_dir (t : FS) (p : PurePath) :
  Os.is_dir t p = true → Os.is_file t p = false.
Proof. unfold Os.is_dir, Os.is_file. by destruct (Os.stat t p) as [[]|]. Qed.

Lemma parts_kept (s : string) : Forall Pathlib.kept (parts (Pathlib.parse_parts s)).
Proof.
  unfold Pathlib.parse_parts. destruct (Pathlib.splitroot s) as [r rel]. simpl.
  apply Forall_forall. by intros x [? _]%list_elem_of_filter.
Qed.

Lemma contains_double_star_whole : Str.contains_double_star "**" = true.
Proof. reflexivity. Qed.

Lemma make_selector_plain (ps : list string) :
  Forall (λ p, p ≠ "" ∧ Str.contains_double_star p = false) ps →
  Glob.make_selector ps = inr (plain_selector ps).
Proof.
  induction 1 as [|p ps [Hne Hstar] _ IH]; [done|]. simpl.
  rewrite decide_False by done.
  rewrite decide_False by (intros ->; by rewrite contains_double_star_whole in Hstar).
  rewrite Hstar, IH. by destruct (Glob.is_wildcard_pattern p).
Qed.

Lemma make_selector_recursive (ps : list string) :
  Glob.make_selector ("**" :: ps) =
    (successor ← Glob.make_selector ps; inr (Glob.RecursiveWildcardSelector successor)).
Proof. reflexivity. Qed.

Lemma yields_recursive (t : FS) (dir : PurePath) (successor : Glob.selector)
    (seen rel : list string) :
  Glob.yields t dir (Glob.RecursiveWildcardSelector successor) seen rel =
    Glob.yields t dir successor seen rel
    || match rel with
       | n :: rel' =>
           Os.is_dir t (mkPath (root dir) (parts dir ++ seen ++ [n]))
           && Glob.yields t dir (Glob.RecursiveWildcardSelector successor) (seen ++ [n]) rel'
       | [] => false
       end.
Proof. by destruct rel. Qed.

(** On an entry of the tree, the selector of plain parts tests the names. *)
Lemma yields_plain (t : FS) (dir : PurePath) (ps seen rel : list string) :
  Os.path_exists t (mkPath (root dir) (parts dir ++ seen ++ rel)) = true →
  Glob.yields t dir (plain_selector ps) seen rel = true ↔
    Forall2 (λ n p, name_match n p = true) rel ps.
Proof.
  revert seen rel. induction ps as [|p ps IH]; intros seen rel Hex.
  { simpl. rewrite bool_decide_eq_true. split; [by intros ->|by inversion 1]. }
  destruct rel as [|n rel].
  { simpl. split; [by destruct (Glob.is_wildcard_pattern p)|by inversion 1]. }
  assert (Os.path_exists t (mkPath (root dir) (parts dir ++ seen ++ [n])) = true) as Hn.
  { apply (path_exists_above _ _ _ rel). by rewrite <-!(assoc_L (++)). }
  assert (rel ≠ [] → Os.is_dir t (mkPath (root dir) (parts dir ++ seen ++ [n])) = true)
    as Hdir.
  { intros Hrel. apply (is_dir_above _ _ _ rel); [done|]. by rewrite <-!(assoc_L (++)). }
  specialize (IH (seen ++ [n]) rel).
  rewrite <-(assoc_L (++)) in IH. specialize (IH Hex).
  rewrite Forall2_cons. unfold name_match at 1. simpl.
  destruct (Glob.is_wildcard_pattern p); simpl; rewrite Hn; simpl.
  - rewrite !andb_true_iff, IH. split.
    + naive_solver.
    + intros [Hm Hrest]. split_and!; try done.
      case_bool_decide as Hps; [|done]. apply Hdir. intros ->.
      inversion Hrest. by subst.
  - rewrite !andb_true_iff, bool_decide_eq_true, IH. split.
    + naive_solver.
    + intros [Hm Hrest]. split_and!; try done.
      case_bool_decide as Hps; [|done]. apply Hdir. intros ->.
      inversion Hrest. by subst.
Qed.

(** On an entry of the tree, below a directory, the recursive selector
    followed by plain parts tests the last names, whatever the depth. *)
Lemma yields_recursive_plain (t : FS) (dir : PurePath) (ps seen rel : list string) :
  Os.is_dir t (mkPath (root dir) (parts dir ++ seen)) = true →
  Os.path_exists t (mkPath (root dir) (parts dir ++ seen ++ rel)) = true →
  Glob.yields t dir (Glob.RecursiveWildcardSelector (plain_selector ps)) seen rel =
    tail_matches t (mkPath (root dir) (parts dir ++ seen)) ps rel.
Proof.
  revert seen. induction rel as [|n rel IH]; intros seen Hseen Hex.
  - rewrite yields_recursive, orb_false_r. destruct ps as [|p ps].
    + simpl. rewrite app_nil_r. by rewrite Hseen.
    + simpl. by destruct (Glob.is_wildcard_pattern p).
  - rewrite yields_recursive.
    assert (Os.path_exists t (mkPath (root dir) (parts dir ++ (seen ++ [n]) ++ rel)) = true)
      as Hex' by (by rewrite <-(assoc_L (++) seen)).
    destruct (decide (rel = [])) as [->|Hrel].
    + (* the last name *)
      rewrite app_nil_r in Hex'.
      destruct (Os.is_dir t (mkPath (root dir) (parts dir ++ seen ++ [n]))) eqn:Hn.
      * rewrite (IH _ Hn) by (by rewrite app_nil_r). rewrite andb_true_l.
        apply eq_true_iff_eq. rewrite orb_true_iff, (yields_plain _ _ _ _ _ Hex).
        destruct ps as [|p ps]; cbn [tail_matches root parts].
        -- rewrite <-!(assoc_L (++)), app_nil_r. rewrite Hn. split; [done|by right].
        -- rewrite !bool_decide_eq_true. cbn [length]. split.
           ++ intros [Hm|[Hlen _]]; [|lia].
              split; [by apply Forall2_length in Hm; simpl in *; lia|].
              apply Forall2_length in Hm as Hl. simpl in Hl.
              replace (1 - S (length ps)) with 0 by lia. done.
           ++ intros [Hlen Hm]. left.
              replace (1 - S (length ps)) with 0 in Hm by lia. done.
      * rewrite andb_false_l, orb_false_r.
        apply eq_true_iff_eq. rewrite (yields_plain _ _ _ _ _ Hex).
        destruct ps as [|p ps]; cbn [tail_matches root parts].
        -- rewrite <-!(assoc_L (++)). rewrite Hn. split; [by inversion 1|done].
        -- rewrite bool_decide_eq_true. cbn [length]. split.
           ++ intros Hm. apply Forall2_length in Hm as Hl. simpl in Hl.
              split; [lia|]. replace (1 - S (length ps)) with 0 by lia. done.
           ++ intros [Hlen Hm]. replace (1 - S (length ps)) with 0 in Hm by lia. done.
    + assert (Os.is_dir t (mkPath (root dir) (parts dir ++ seen ++ [n])) = true) as Hn.
      { apply (is_dir_above _ _ _ rel); [done|]. by rewrite <-!(assoc_L (++)). }
      rewrite Hn, andb_true_l, (IH _ Hn Hex').
      apply eq_true_iff_eq. rewrite orb_true_iff, (yields_plain _ _ _ _ _ Hex).
      destruct ps as [|p ps]; cbn [tail_matches root parts].
      * rewrite <-!(assoc_L (++)). simpl. split; [by intros [?|?]; [inversion H0|]|by right].
      * rewrite !bool_decide_eq_true. cbn [length]. split.
        -- intros [Hm|[Hlen Hm]].
           ++ apply Forall2_length in Hm as Hl. simpl in Hl.
              split; [lia|]. replace (S (length rel) - S (length ps)) with 0 by lia. done.
           ++ split; [lia|].
              replace (S (length rel) - S (length ps))
                with (S (length rel - S (length ps))) by lia. done.
        -- intros [Hlen Hm].
           destruct (decide (length rel = length ps)) as [Heq|Hneq].
           ++ left. replace (S (length rel) - S (length ps)) with 0 in Hm by lia. done.
           ++ right. split; [lia|].
              replace (S (length rel) - S (length ps))
                with (S (length rel - S (length ps))) in Hm by lia. done.
Qed.

(** The scan with a selector: the directory itself is no file. *)
Lemma list_of_files_found (self : OutputData.t) (pattern : string)
    (sel : Glob.selector) (w : world (SED Table)) :
  root (Pathlib.parse_parts pattern) = "" →
  Glob.make_selector
    ("**" :: parts (Pathlib.parse_parts pattern)
          ++ (if Str.endswith Str.slash pattern then [""] else [])) = inr sel →
  OutputData.list_of_files self pattern w =
    (w, inr ((λ rel, Pathlib.str (mkPath "" rel)) <$>
             found_below (fs w) (OutputData.path self) sel)).
Proof.
  intros Hrel Hsel. rewrite list_of_files_run. f_equal.
  unfold OutputData.rglob. rewrite decide_True by done. cbv zeta.
  rewrite Hsel, result_bind_inr. unfold found_below.
  set (dir := OutputData.path self).
  destruct (Os.is_dir (fs w) dir) eqn:Hdir; last first.
  { rewrite entries_below_not_dir by done. done. }
  rewrite result_bind_inr.
  assert (filter (λ p, Os.is_file (fs w) p = true)
            ((λ rel, mkPath (root dir) (parts dir ++ rel)) <$>
               filter (λ rel, Glob.yields (fs w) dir sel [] rel = true)
                 ([] :: OutputData.entries_below (fs w) dir)) =
          filter (λ p, Os.is_file (fs w) p = true)
            ((λ rel, mkPath (root dir) (parts dir ++ rel)) <$>
               filter (λ rel, Glob.yields (fs w) dir sel [] rel = true)
                 (OutputData.entries_below (fs w) dir))) as ->.
  { rewrite filter_cons. destruct (decide _); [|done].
    rewrite fmap_cons, filter_cons_False; [done|].
    rewrite app_nil_r. assert (mkPath (root dir) (parts dir) = dir) as ->
      by (by destruct dir).
    by rewrite is_file_not_dir. }
  generalize (filter (λ rel, Glob.yields (fs w) dir sel [] rel = true)
                (OutputData.entries_below (fs w) dir)).
  intros l. rewrite filter_fmap_list.
  rewrite (mapM_inr _ (λ p, Pathlib.str (mkPath "" (drop (length (parts dir)) (parts p))))).
  - rewrite <-list_fmap_compose. f_equal. apply list_fmap_ext.
    intros _ rel _. simpl. by rewrite drop_app_length.
  - intros p (rel & -> & _)%list_elem_of_fmap.
    rewrite relative_to_below. simpl. by rewrite drop_app_length.
Qed.

(** For a relative pattern whose parts are free of [**] and which does not
    end with a slash, the scan lists the regular files whose last names
    match the parts. *)
Lemma list_of_files_relative (self : OutputData.t) (pattern : string) (w : world (SED Table)) :
  root (Pathlib.parse_parts pattern) = "" →
  Str.endswith Str.slash pattern = false →
  Forall (λ p, Str.contains_double_star p = false) (parts (Pathlib.parse_parts pattern)) →
  OutputData.list_of_files self pattern w =
    (w, inr ((λ rel, Pathlib.str (mkPath "" rel)) <$>
             listed_below (fs w) (OutputData.path self)
               (parts (Pathlib.parse_parts pattern)))).
Proof.
  intros Hrel Hslash Hplain.
  assert (Glob.make_selector
            ("**" :: parts (Pathlib.parse_parts pattern)
                  ++ (if Str.endswith Str.slash pattern then [""] else [])) =
          inr (Glob.RecursiveWildcardSelector
                 (plain_selector (parts (Pathlib.parse_parts pattern))))) as Hsel.
  { rewrite Hslash, app_nil_r, make_selector_recursive, make_selector_plain; [done|].
    pose proof (parts_kept pattern) as Hkept.
    rewrite Forall_forall in Hkept, Hplain. apply Forall_forall.
    intros p Hp. split; [apply (Hkept p Hp)|by apply Hplain]. }
  rewrite (list_of_files_found _ _ _ _ Hrel Hsel).
  do 3 f_equal. unfold found_below, listed_below. f_equal.
  apply filter_ext_elem. intros rel (Hne & _ & [n Hn])%elem_of_entries_below.
  set (dir := OutputData.path self) in *.
  assert (Os.path_exists (fs w) (mkPath (root dir) (parts dir ++ rel)) = true) as Hex
    by (unfold Os.path_exists; by rewrite Hn).
  rewrite yields_recursive_plain.
  - rewrite app_nil_r. by assert (mkPath (root dir) (parts dir) = dir) as ->
      by (by destruct dir).
  - rewrite app_nil_r. apply (is_dir_above _ _ _ rel); done.
  - done.
Qed.

(** [list_of_files()] with its default pattern. *)
Lemma list_of_files_default (self : OutputData.t) (w : world (SED Table)) :
  OutputData.list_of_files self "*" w =
    (w, inr ((λ rel, Pathlib.str (mkPath "" rel)) <$>
             listed_below (fs w) (OutputData.path self)
               (parts (Pathlib.parse_parts "*")))).
Proof. apply list_of_files_relative; [done|done|by repeat constructor]. Qed.

End output_data_facts.

Section selectors.
Context `{Collaborators}.

Lemma make_selector_tail (ps : list string) (trailing : bool) :
  Forall Pathlib.kept ps →
  (Exists (λ p, p ≠ "**" ∧ Str.contains_double_star p = true) ps ∧
   Glob.make_selector (ps ++ (if trailing then [""] else [])) =
     inl (ValueError "Invalid pattern: '**' can only be an entire path component"))
  ∨ (Forall (λ p, p = "**" ∨ Str.contains_double_star p = false) ps ∧
     ∃ sel, Glob.make_selector (ps ++ (if trailing then [""] else [])) = inr sel ∧
            (trailing = true ∨ last ps = Some "**" ∨ ps = [] → dirs_only sel = true)).
Proof.
  induction 1 as [|p ps [Hne _] _ IH].
  { right. split; [constructor|]. destruct trailing; by eexists. }
  cbn [app Glob.make_selector]. rewrite decide_False by done.
  destruct (decide (p = "**")) as [->|Hp].
  - destruct IH as [[Hbad ->]|(Hgood & sel & -> & Hdirs)].
    + left. split; [by apply Exists_cons_tl|done].
    + right. split; [constructor; [by left|done]|]. eexists. split; [done|].
      intros Hlast. cbn [dirs_only]. apply Hdirs.
      destruct Hlast as [?|[Hlast|?]]; [by left| |done].
      destruct ps as [|q ps]; [by right; right|]. right; left. done.
  - destruct (Str.contains_double_star p) eqn:Hstar.
    + left. split; [by apply Exists_cons_hd|done].
    + destruct IH as [[Hbad ->]|(Hgood & sel & -> & Hdirs)].
      * left. split; [by apply Exists_cons_tl|done].
      * right. split; [constructor; [by right|done]|].
        rewrite result_bind_inr. cbv zeta. eexists. split; [done|].
        intros Hlast.
        assert (ps ++ (if trailing then [""] else []) ≠ [] ∧ dirs_only sel = true)
          as [Hchild Hsel].
        { destruct Hlast as [->|[Hlast|?]]; [| |done].
          - split; [by destruct ps|]. apply Hdirs. by left.
          - destruct ps as [|q ps]; [by injection Hlast as ->|].
            split; [done|]. apply Hdirs. right; left. done. }
        rewrite bool_decide_true by done.
        by destruct (Glob.is_wildcard_pattern p); cbn [dirs_only]; rewrite Hsel.
Qed.





End selectors.


Lemma validate_list_of_files_run `{Collaborators}
    (self : OutputData.t) (kv : OrderedDict.t) (recorded : list string)
    (w : world (SED Table)) :
  OutputData.index_dataset self = Some (JObj kv) →
  OrderedDict.getitem "files" kv = Some (JList (JStr <$> recorded)) →
  OutputData.validate_list_of_files self w =
    (log_list_difference
       ((λ rel, Pathlib.str (mkPath "" rel)) <$>
          listed_below (fs w) (OutputData.path self) (parts (Pathlib.parse_parts "*")))
       recorded;;
     log_list_difference
       ((λ rel, Pathlib.str (mkPath "" rel)) <$>
          listed_below (fs w) (OutputData.path self) (parts (Pathlib.parse_parts "*")))
       (["README.md"; "gammacat-datasets.json"; "gammacat-sources.json";
         "gammacat.fits.gz"; "gammacat.ecsv"; "gammacat.yaml"] ++
        ((λ sed, Pathlib.str
           (Pathlib.parse_parts "" </> "sources" </> source_str (table_meta (sed_table sed))
              </> (source_dataset_filename (table_meta (sed_table sed)) +:+ "_sed.ecsv")))
         <$> SEDList_read))) w.
Proof.
  intros Hindex Hfiles.
  unfold OutputData.validate_list_of_files.
  rewrite bind_run, list_of_files_default.
  rewrite bind_run. unfold lift at 1.
  rewrite Hindex. unfold OutputData.getitem. rewrite Hfiles.
  rewrite result_bind_inr. unfold OutputData.as_paths.
  rewrite (mapM_inr _ (λ x, match x with JStr s => s | _ => "" end)).
  2:{ by intros x (s & -> & _)%list_elem_of_fmap. }
  rewrite <-list_fmap_compose.
  rewrite (list_fmap_ext _ id recorded) by done. rewrite list_fmap_id.
  rewrite !bind_run. destruct (log_list_difference _ recorded w) as [w1 [e|[]]]; [done|].
  rewrite bind_run. unfold lift.
  rewrite (mapM_inr _ (λ sed, Pathlib.str
       (Pathlib.parse_parts "" </> "sources" </> source_str (table_meta (sed_table sed))
          </> (source_dataset_filename (table_meta (sed_table sed)) +:+ "_sed.ecsv")))).
  2:{ intros sed _. by rewrite make_filename_unfold. }
  done.
Qed.

(** C2: with the recorded file list read from the dataset index,
    [validate_list_of_files] scans the tree once and compares the scan with
    the recorded list and then with the six fixed names followed by the
    relative SED file name of every SED read again from the input; it is the
    two calls of [log_list_difference] in a row, it returns normally whatever
    they find, and it leaves the tree as it was. *)
Theorem validate_list_of_files_completes `{Collaborators}
    (self : OutputData.t) (kv : OrderedDict.t) (recorded : list string)
    (w : world (SED Table)) :
  OutputData.index_dataset self = Some (JObj kv) →
  OrderedDict.getitem "files" kv = Some (JList (JStr <$> recorded)) →
  ∃ actual expected_files_sed : list string,
    OutputData.list_of_files self "*" w = (w, inr actual) ∧
    expected_files_sed =
      (λ sed, Pathlib.str
         (Pathlib.parse_parts "" </> "sources" </> source_str (table_meta (sed_table sed))
            </> (source_dataset_filename (table_meta (sed_table sed)) +:+ "_sed.ecsv")))
      <$> SEDList_read ∧
    OutputData.validate_list_of_files self w =
      (log_list_difference actual recorded;;
       log_list_difference actual
         (["README.md"; "gammacat-datasets.json"; "gammacat-sources.json";
           "gammacat.fits.gz"; "gammacat.ecsv"; "gammacat.yaml"] ++ expected_files_sed)) w ∧
    (OutputData.validate_list_of_files self w).2 = inr tt ∧
    fs (OutputData.validate_list_of_files self w).1 = fs w.
Proof.
  intros Hindex Hfiles.
  eexists _, _. split; [apply list_of_files_default|]. split; [done|].
  split; [by eapply validate_list_of_files_run|].
  rewrite (validate_list_of_files_run _ _ _ _ Hindex Hfiles).
  rewrite bind_run, !log_list_difference_run. cbv zeta. done.
Qed.

(** X1: Without a dataset index, as [OutputData()] is built by default, the
    subscript [self.index_dataset['files']] raises after the scan, before any
    comparison: nothing is logged. *)
Lemma validate_list_of_files_without_index `{Collaborators}
    (index_sources : option json) (gammacat : option Table) (w : world (SED Table)) :
  OutputData.validate_list_of_files (OutputData.init None index_sources gammacat) w =
    (w, inl (TypeError "object is not subscriptable")).
Proof.
  unfold OutputData.validate_list_of_files.
  by rewrite bind_run, list_of_files_default.
Qed.

(** ** The file tree *)

Lemma keeps_refl (t : FS) : keeps t t.
Proof. intros k. destruct (t !! k) as [[c|]|]; eauto. Qed.

Lemma keeps_trans (t1 t2 t3 : FS) : keeps t1 t2 → keeps t2 t3 → keeps t1 t3.
Proof.
  intros H12 H23 k. specialize (H12 k). specialize (H23 k).
  destruct (t1 !! k) as [[c|]|]; [| |done].
  - destruct H12 as [c' Hc']. rewrite Hc' in H23. done.
  - by rewrite H12 in H23.
Qed.

Lemma grows_keeps (t t' : FS) : grows t t' → keeps t t'.
Proof.
  intros Hg k. specialize (Hg k). destruct (t !! k) as [[c|]|]; eauto.
Qed.

Lemma grows_refl (t : FS) : grows t t.
Proof. intros k. destruct (t !! k); eauto. Qed.

Lemma grows_trans (t1 t2 t3 : FS) : grows t1 t2 → grows t2 t3 → grows t1 t3.
Proof.
  intros H12 H23 k. specialize (H12 k). specialize (H23 k).
  destruct (t1 !! k) as [n|].
  - by rewrite H12 in H23.
  - destruct H12 as [H12|H12]; rewrite H12 in H23; eauto.
Qed.

Lemma resolve_dirs_keeps (t t' : FS) (r : string) (seen todo : list string) :
  keeps t t' → Os.resolve_dirs t r seen todo = None → Os.resolve_dirs t' r seen todo = None.
Proof.
  intros Hk. revert seen. induction todo as [|d todo IH]; intros seen; simpl; [done|].
  unfold Pathlib.key. simpl. specialize (Hk (r, seen ++ [d])).
  destruct (t !! (r, seen ++ [d])) as [[?|]|]; [done| |done].
  rewrite Hk. apply IH.
Qed.

Lemma is_dir_keeps (t t' : FS) (p : PurePath) :
  keeps t t' → Os.is_dir t p = true → Os.is_dir t' p = true.
Proof. rewrite !is_dir_resolve. apply resolve_dirs_keeps. Qed.

Lemma is_dir_lookup (t : FS) (p : PurePath) :
  parts p ≠ [] → Os.is_dir t p = true → t !! Pathlib.key p = Some Dir.
Proof.
  intros Hne. unfold Os.is_dir, Os.stat.
  destruct (Os.resolve_dirs _ _ _ _); [done|].
  destruct (parts p); [done|]. by destruct (t !! Pathlib.key p) as [[?|]|].
Qed.

Lemma os_mkdir_inr (t t' : FS) (p : PurePath) :
  Os.mkdir t p = inr t' →
  parts p ≠ [] ∧ Os.resolve_dirs t (root p) [] (removelast (parts p)) = None ∧
  t !! Pathlib.key p = None ∧ t' = <[Pathlib.key p := Dir]> t.
Proof.
  unfold Os.mkdir. destruct (parts p) eqn:E; [done|]. rewrite <-E.
  destruct (Os.resolve_dirs _ _ _ _); [done|].
  destruct (t !! Pathlib.key p) eqn:Hk; [done|].
  intros [= <-]. split_and!; try done. by rewrite E.
Qed.

Lemma os_mkdir_grows (t t' : FS) (p : PurePath) :
  Os.mkdir t p = inr t' → grows t t' ∧ Os.is_dir t' p = true.
Proof.
  intros (Hne & Hres & Hk & ->)%os_mkdir_inr.
  assert (grows t (<[Pathlib.key p := Dir]> t)) as Hg.
  { intros k. destruct (decide (k = Pathlib.key p)) as [->|Hneq].
    - rewrite Hk, lookup_insert_eq. by right.
    - rewrite lookup_insert_ne by done. destruct (t !! k); eauto. }
  split; [done|]. apply is_dir_resolve.
  rewrite (app_removelast_last "" Hne). apply resolve_dirs_snoc. split.
  - eapply resolve_dirs_keeps; [by apply grows_keeps|done].
  - rewrite app_nil_l, <-(app_removelast_last "" Hne). apply lookup_insert_eq.
Qed.

Lemma mkdir_exist_ok_spec (t t' : FS) (p : PurePath) :
  Path_mkdir_exist_ok t p = inr t' → grows t t' ∧ Os.is_dir t' p = true.
Proof.
  unfold Path_mkdir_exist_ok. destruct (Os.mkdir t p) as [e|t''] eqn:Hmk.
  - destruct (Os.is_dir t p) eqn:Hdir; destruct e; try done;
      intros [= <-]; (split; [apply grows_refl|done]).
  - intros [= <-]. by apply os_mkdir_grows.
Qed.

Lemma Path_mkdir_rev_unfold (t : FS) (r : string) (rev_parts : list string) :
  Path_mkdir_rev t r rev_parts =
    let p := mkPath r (reverse rev_parts) in
    match Os.mkdir t p with
    | inr fs' => inr fs'
    | inl (FileNotFoundError q) =>
        match rev_parts with
        | [] => inl (FileNotFoundError q)
        | _ :: rev_parent =>
            match Path_mkdir_rev t r rev_parent with
            | inl e => inl e
            | inr fs' => Path_mkdir_exist_ok fs' p
            end
        end
    | inl e => if Os.is_dir t p then inr t else inl e
    end.
Proof. by destruct rev_parts. Qed.

Lemma mkdir_rev_spec (r : string) (rev_parts : list string) (t t' : FS) :
  Path_mkdir_rev t r rev_parts = inr t' →
  grows t t' ∧ Os.is_dir t' (mkPath r (reverse rev_parts)) = true.
Proof.
  revert t t'. induction rev_parts as [|c rev_parent IH]; intros t t';
    rewrite Path_mkdir_rev_unfold; cbv zeta.
  - destruct (Os.mkdir t _) as [e|t''] eqn:Hmk.
    + destruct (Os.is_dir t _) eqn:Hdir; destruct e; try done;
        intros [= <-]; (split; [apply grows_refl|done]).
    + intros [= <-]. by apply os_mkdir_grows.
  - destruct (Os.mkdir t _) as [e|t''] eqn:Hmk.
    + destruct e;
        try (destruct (Os.is_dir t _) eqn:Hdir; [|done];
             intros [= <-]; (split; [apply grows_refl|done])).
      destruct (Path_mkdir_rev t r rev_parent) as [e|t1] eqn:Hrec; [done|].
      intros [Hg Hd]%mkdir_exist_ok_spec. split; [|done].
      eapply grows_trans; [|done]. by eapply IH.
    + intros [= <-]. by apply os_mkdir_grows.
Qed.

Lemma mkdir_parents_spec (t t' : FS) (p : PurePath) :
  Path_mkdir_parents t p = inr t' → grows t t' ∧ Os.is_dir t' p = true.
Proof.
  unfold Path_mkdir_parents. intros [Hg Hd]%mkdir_rev_spec.
  rewrite reverse_involutive in Hd. split; [done|]. by destruct p.
Qed.

Lemma mkdir_parents_noop (t : FS) (p : PurePath) :
  Os.is_dir t p = true → Path_mkdir_parents t p = inr t.
Proof.
  intros Hdir. unfold Path_mkdir_parents.
  rewrite Path_mkdir_rev_unfold, reverse_involutive. cbv zeta.
  assert (mkPath (root p) (parts p) = p) as -> by (by destruct p).
  rewrite Hdir. unfold Os.mkdir.
  destruct (parts p) eqn:E; [done|]. rewrite <-E.
  assert (parts p ≠ []) as Hne by (by rewrite E).
  pose proof (is_dir_lookup _ _ Hne Hdir) as Hk.
  unfold Os.is_dir, Os.stat in Hdir.
  destruct (Os.resolve_dirs _ _ _ _); [done|]. by rewrite Hk.
Qed.

Lemma os_write_inr (t t' : FS) (p : PurePath) (c : file_content) :
  Os.write t p c = inr t' →
  parts p ≠ [] ∧ Os.is_dir t (Pathlib.parent p) = true ∧
  t !! Pathlib.key p ≠ Some Dir ∧ t' = <[Pathlib.key p := File c]> t.
Proof.
  unfold Os.write. destruct (parts p) eqn:E; [done|]. rewrite <-E.
  destruct (Os.resolve_dirs _ _ _ _) eqn:Hres; [done|].
  assert (Os.is_dir t (Pathlib.parent p) = true) by (by apply is_dir_resolve).
  destruct (t !! Pathlib.key p) as [[?|]|] eqn:Hk; [|done|];
    intros [= <-]; split_and!; try done; by rewrite E.
Qed.

Lemma os_write_file (t : FS) (p : PurePath) (c : file_content) :
  parts p ≠ [] → Os.is_dir t (Pathlib.parent p) = true →
  t !! Pathlib.key p ≠ Some Dir →
  Os.write t p c = inr (<[Pathlib.key p := File c]> t).
Proof.
  intros Hne Hdir%is_dir_resolve Hk. unfold Os.write.
  destruct (parts p) eqn:E; [done|]. rewrite <-E.
  simpl in Hdir. rewrite Hdir.
  by destruct (t !! Pathlib.key p) as [[?|]|].
Qed.

Lemma put_inr (t t' : FS) (p : PurePath) (c : file_content) :
  put t p c = inr t' →
  ∃ t1, grows t t1 ∧ parts p ≠ [] ∧ Os.is_dir t1 (Pathlib.parent p) = true ∧
        t1 !! Pathlib.key p ≠ Some Dir ∧ t' = <[Pathlib.key p := File c]> t1.
Proof.
  unfold put. destruct (Path_mkdir_parents t (Pathlib.parent p)) as [e|t1] eqn:Hmk; [done|].
  rewrite result_bind_inr. intros (Hne & Hdir & Hk & ->)%os_write_inr.
  apply mkdir_parents_spec in Hmk as [Hg _]. by exists t1.
Qed.

Lemma insert_file_keeps (t : FS) (k : string * list string) (c : file_content) :
  t !! k ≠ Some Dir → keeps t (<[k := File c]> t).
Proof.
  intros Hk k'. destruct (decide (k' = k)) as [->|Hne].
  - rewrite lookup_insert_eq. destruct (t !! k) as [[?|]|]; eauto. done.
  - rewrite lookup_insert_ne by done. destruct (t !! k') as [[?|]|]; eauto.
Qed.

Lemma put_keeps (t t' : FS) (p : PurePath) (c : file_content) :
  put t p c = inr t' → keeps t t'.
Proof.
  intros (t1 & Hg & _ & _ & Hk & ->)%put_inr.
  eapply keeps_trans; [by apply grows_keeps|by apply insert_file_keeps].
Qed.

(** Where the directory is there and the path is a file already, writing
    replaces the content and nothing else. *)
Lemma put_settled (t : FS) (p : PurePath) (c : file_content) :
  parts p ≠ [] → Os.is_dir t (Pathlib.parent p) = true →
  (∃ c0, t !! Pathlib.key p = Some (File c0)) →
  put t p c = inr (<[Pathlib.key p := File c]> t).
Proof.
  intros Hne Hdir [c0 Hk]. unfold put.
  rewrite mkdir_parents_noop by done. rewrite result_bind_inr.
  apply os_write_file; [done|done|]. by rewrite Hk.
Qed.

Lemma settled_keeps (t t' : FS) (l : list (PurePath * file_content)) :
  keeps t t' → settled t l → settled t' l.
Proof.
  intros Hk Hs. unfold settled. eapply Forall_impl; [exact Hs|].
  intros [p c] (Hne & Hdir & [c0 Hc0]). simpl in *. split_and!; [done| |].
  - by eapply is_dir_keeps.
  - specialize (Hk (Pathlib.key p)). by rewrite Hc0 in Hk.
Qed.

Lemma puts_keeps (l : list (PurePath * file_content)) (t t' : FS) :
  puts t l = inr t' → keeps t t'.
Proof.
  revert t. induction l as [|[p c] l IH]; intros t; simpl.
  - intros [= <-]. apply keeps_refl.
  - destruct (put t p c) as [e|t1] eqn:Hput; [done|].
    intros Hrest. eapply keeps_trans; [by eapply put_keeps|by apply IH].
Qed.

Lemma puts_settled (l : list (PurePath * file_content)) (t t' : FS) :
  puts t l = inr t' → settled t' l.
Proof.
  revert t. induction l as [|[p c] l IH]; intros t; simpl; [by constructor|].
  destruct (put t p c) as [e|t1] eqn:Hput; [done|].
  intros Hrest. constructor; [|by eapply IH]. simpl.
  apply put_inr in Hput as (t0 & _ & Hne & Hdir & Hfree & ->).
  pose proof (puts_keeps _ _ _ Hrest) as Hk. split_and!; [done| |].
  - eapply is_dir_keeps; [done|].
    eapply is_dir_keeps; [|done]. by apply insert_file_keeps.
  - specialize (Hk (Pathlib.key p)). by rewrite lookup_insert_eq in Hk.
Qed.

Lemma puts_on_settled (l : list (PurePath * file_content)) (t : FS) :
  settled t l → puts t l = inr (overwrite t l).
Proof.
  revert t. induction l as [|[p c] l IH]; intros t Hs; [done|].
  apply Forall_cons in Hs as [(Hne & Hdir & [c0 Hc0]) Hs]. simpl in *.
  rewrite put_settled by eauto.
  apply IH. eapply settled_keeps; [|done].
  apply insert_file_keeps. by rewrite Hc0.
Qed.

Lemma lookup_overwrite (l : list (PurePath * file_content)) (t : FS)
    (k : string * list string) :
  overwrite t l !! k =
    match last_write k l with
    | Some c => Some (File c)
    | None => t !! k
    end.
Proof.
  revert t. induction l as [|[p c] l IH]; intros t; [done|].
  unfold overwrite in *. simpl. rewrite IH.
  destruct (last_write k l); [done|].
  destruct (decide (Pathlib.key p = k)) as [<-|Hne].
  - by rewrite lookup_insert_eq.
  - by rewrite lookup_insert_ne.
Qed.

(** After the writes of [l], a key written by [l] holds what was written to
    it last, and every other entry that was there is as it was. *)
Lemma puts_last_write (l : list (PurePath * file_content)) (t t' : FS)
    (k : string * list string) :
  puts t l = inr t' →
  match last_write k l with
  | Some c => t' !! k = Some (File c)
  | None => ∀ n, t !! k = Some n → t' !! k = Some n
  end.
Proof.
  revert t. induction l as [|[p c] l IH]; intros t; simpl.
  - by intros [= <-].
  - destruct (put t p c) as [e|t1] eqn:Hput; [done|].
    intros Hrest. specialize (IH _ Hrest).
    destruct (last_write k l); [done|].
    apply put_inr in Hput as (t0 & Hg & _ & _ & _ & ->).
    destruct (decide (Pathlib.key p = k)) as [<-|Hne].
    + apply IH, lookup_insert_eq.
    + intros n Hn. apply IH. rewrite lookup_insert_ne by done.
      specialize (Hg k). by rewrite Hn in Hg.
Qed.

(** Running the same writes again on the tree they produced succeeds and
    changes nothing. *)
Lemma puts_twice (l : list (PurePath * file_content)) (t t' : FS) :
  puts t l = inr t' → puts t' l = inr t'.
Proof.
  intros Hrun. rewrite puts_on_settled by (by eapply puts_settled).
  f_equal. apply map_eq. intros k. rewrite lookup_overwrite.
  pose proof (puts_last_write l t t' k Hrun) as Hlast.
  by destruct (last_write k l).
Qed.

(** ** [OutputDataMaker] *)

Section maker_facts.
Context `{Collaborators}.

Lemma make_sed_loop_cons (done : list (SED Table)) (sed : SED Table)
    (rest : list (SED Table)) :
  OutputDataMaker.make_sed_loop done (sed :: rest) =
    (emit DEBUG ("Processing SED: " +:+ sed_path sed);;
     OutputDataMaker.store_seds (done ++ process sed :: rest);;
     path ← lift (OutputDataConfig.make_filename
                    (table_meta (sed_table (process sed))) "sed" false);
     fs_op (λ tree, Path_mkdir_parents tree (Pathlib.parent path));;
     emit INFO ("Writing " +:+ Pathlib.str path);;
     fs_op (λ tree, Os.write tree path (Text (table_ecsv (sed_table (process sed)))));;
     OutputDataMaker.make_sed_loop (done ++ [process sed]) rest).
Proof. reflexivity. Qed.

Lemma emit_bind {A : Type} (l : level) (m : string) (f : unit → Run A)
    (w : world (SED Table)) :
  (emit l m ≫= f) w =
    f tt (mkWorld (fs w) (logs w ++ [LogRecord l m]) (input_data_cache w)).
Proof. reflexivity. Qed.

Lemma store_seds_bind {A : Type} (l : list (SED Table)) (f : unit → Run A)
    (w : world (SED Table)) (i : InputData (SED Table)) :
  input_data_cache w = Some i →
  (OutputDataMaker.store_seds l ≫= f) w =
    f tt (mkWorld (fs w) (logs w) (Some (mkInputData (datasets i) (sources i) l))).
Proof.
  intros Hc. unfold OutputDataMaker.store_seds.
  rewrite bind_assoc_run, bind_run. unfold get_cache. by rewrite Hc.
Qed.

Lemma lift_inr_bind {A B : Type} (a : A) (f : A → Run B) (w : world (SED Table)) :
  (lift (inr a) ≫= f) w = f a w.
Proof. reflexivity. Qed.

Lemma fs_op_bind {A : Type} (g : FS → result FS) (f : unit → Run A)
    (w : world (SED Table)) :
  (fs_op g ≫= f) w =
    match g (fs w) with
    | inr tree => f tt (mkWorld tree (logs w) (input_data_cache w))
    | inl e => (w, inl e)
    end.
Proof. rewrite bind_run. unfold fs_op. by destruct (g (fs w)). Qed.

Lemma make_sed_loop_run (todo done : list (SED Table)) (w : world (SED Table))
    (i : InputData (SED Table)) :
  input_data_cache w = Some i → seds i = done ++ todo →
  match puts (fs w) (sed_write <$> (process <$> todo)) with
  | inr tree =>
      ∃ lg, OutputDataMaker.make_sed_loop done todo w =
        (mkWorld tree (logs w ++ lg)
           (Some (mkInputData (datasets i) (sources i) (done ++ (process <$> todo)))),
         inr tt)
  | inl e => ∃ w', OutputDataMaker.make_sed_loop done todo w = (w', inl e)
  end.
Proof.
  revert done w i. induction todo as [|sed rest IH]; intros done w i Hcache Hseds.
  - simpl. exists []. destruct w as [t lg c], i as [d s l]. simpl in *. subst.
    by rewrite !app_nil_r.
  - rewrite make_sed_loop_cons.
    rewrite emit_bind, (store_seds_bind _ _ _ i) by done.
    rewrite make_filename_unfold. cbv zeta. rewrite decide_True by done.
    rewrite lift_inr_bind, fs_op_bind. cbn [fs logs input_data_cache].
    csimpl. unfold put.
    destruct (Path_mkdir_parents (fs w) _) as [e|t1]; [by eexists|].
    rewrite result_bind_inr, emit_bind, fs_op_bind. cbn [fs logs input_data_cache].
    destruct (Os.write t1 _ _) as [e|t2]; [by eexists|].
    match goal with |- context [OutputDataMaker.make_sed_loop _ _ ?w'] =>
      specialize (IH (done ++ [process sed]) w' _ eq_refl) end.
    cbn [fs logs input_data_cache seds datasets sources] in IH.
    specialize (IH (assoc_L (++) done [process sed] rest)).
    destruct (puts t2 _) as [e|t3].
    + destruct IH as [w' ->]. by eexists.
    + destruct IH as [lg' ->]. eexists.
      by rewrite <-!(assoc_L (++)).
Qed.

Lemma input_data_bind {A : Type} (f : InputData (SED Table) → Run A)
    (w : world (SED Table)) :
  (OutputDataMaker.input_data ≫= f) w = f (current_input w) (loaded w).
Proof.
  unfold OutputDataMaker.input_data, current_input, loaded.
  rewrite bind_assoc_run, bind_run. unfold get_cache.
  destruct (input_data_cache w) as [i|] eqn:Hc; simpl; [done|].
  by rewrite bind_assoc_run, emit_bind.
Qed.

Lemma loaded_fs (w : world (SED Table)) : fs (loaded w) = fs w.
Proof. unfold loaded. by destruct (input_data_cache w). Qed.

Lemma loaded_cache (w : world (SED Table)) :
  input_data_cache (loaded w) = Some (current_input w).
Proof. unfold loaded, current_input. by destruct (input_data_cache w) eqn:E. Qed.

Lemma loaded_logs (w : world (SED Table)) : ∃ lg, logs (loaded w) = logs w ++ lg.
Proof.
  unfold loaded. destruct (input_data_cache w).
  - exists []. by rewrite app_nil_r.
  - by eexists.
Qed.

Lemma make_sed_files_run (w : world (SED Table)) :
  let i := current_input w in
  match puts (fs w) (sed_write <$> (process <$> seds i)) with
  | inr tree =>
      ∃ lg, OutputDataMaker.make_sed_files w =
        (mkWorld tree (logs w ++ lg)
           (Some (mkInputData (datasets i) (sources i) (process <$> seds i))),
         inr tt)
  | inl e => ∃ w', OutputDataMaker.make_sed_files w = (w', inl e)
  end.
Proof.
  intros i. unfold OutputDataMaker.make_sed_files. rewrite input_data_bind.
  pose proof (make_sed_loop_run (seds i) [] (loaded w) i (loaded_cache w) eq_refl) as Hloop.
  rewrite loaded_fs in Hloop. fold i.
  destruct (puts (fs w) _) as [e|tree]; [done|].
  destruct Hloop as [lg ->]. destruct (loaded_logs w) as [lg0 ->].
  eexists. by rewrite <-(assoc_L (++)).
Qed.

Lemma is_file_intro (t : FS) (p : PurePath) (c : file_content) :
  parts p ≠ [] → Os.is_dir t (Pathlib.parent p) = true →
  t !! Pathlib.key p = Some (File c) → Os.is_file t p = true.
Proof.
  intros Hne Hdir%is_dir_resolve Hk. unfold Os.is_file, Os.stat.
  simpl in Hdir. rewrite Hdir. destruct (parts p); [done|]. by rewrite Hk.
Qed.

Lemma list_of_files_star (w : world (SED Table)) :
  OutputData.list_of_files (OutputData.init None None None) "*" w =
    (w, inr (listing (fs w))).
Proof. by rewrite list_of_files_default. Qed.

Lemma write_json_run (doc : json) (p : PurePath) (w : world (SED Table)) :
  OutputDataMaker.write_json doc p w =
    match Os.write (fs w) p (Json doc) with
    | inr tree => (mkWorld tree (logs w) (input_data_cache w), inr tt)
    | inl e => (w, inl e)
    end.
Proof. reflexivity. Qed.

Lemma make_index_files_datasets_run (w : world (SED Table)) :
  OutputDataMaker.make_index_files_datasets w =
    OutputDataMaker.write_json
      (JObj [("info", info_dict);
             ("data", JList (datasets (current_input w)));
             ("files", JList (JStr <$> listing (fs w)))])
      OutputDataConfig.index_datasets_json (loaded w).
Proof.
  unfold OutputDataMaker.make_index_files_datasets. cbv zeta.
  rewrite input_data_bind, bind_run, list_of_files_star, loaded_fs. done.
Qed.

Lemma make_index_files_sources_run (w : world (SED Table)) :
  OutputDataMaker.make_index_files_sources w =
    OutputDataMaker.write_json
      (JObj [("info", info_dict); ("data", JList (sources (current_input w)))])
      OutputDataConfig.index_sources_json (loaded w).
Proof.
  unfold OutputDataMaker.make_index_files_sources. cbv zeta.
  by rewrite input_data_bind.
Qed.

Lemma write_json_inr (doc : json) (p : PurePath) (w w' : world (SED Table)) :
  OutputDataMaker.write_json doc p w = (w', inr tt) →
  fs w' = <[Pathlib.key p := File (Json doc)]> (fs w) ∧
  logs w' = logs w ∧ input_data_cache w' = input_data_cache w.
Proof.
  rewrite write_json_run. destruct (Os.write _ _ _) as [e|tree] eqn:Hw; [done|].
  intros [= <-]. by apply os_write_inr in Hw as (_ & _ & _ & ->).
Qed.

End maker_facts.

(** C7: the document that [make_index_files_datasets] writes to the dataset
    index has the keys [info], [data], [files] in this order, and the one that
    [make_index_files_sources] writes to the sources index has the keys
    [info], [data] and no key [files]; [info] is the catalog-wide metadata,
    [data] the record list of the datasets, respectively of the sources, of
    the input data, and [files] the file listing of the tree. *)
Theorem index_documents `{Collaborators} (w wd v vs : world (SED Table)) :
  OutputDataMaker.make_index_files_datasets w = (wd, inr tt) →
  OutputDataMaker.make_index_files_sources v = (vs, inr tt) →
  ∃ (files : list string) (doc_datasets doc_sources : OrderedDict.t),
    OutputData.list_of_files (OutputData.init None None None) "*" w = (w, inr files) ∧
    fs wd !! Pathlib.key OutputDataConfig.index_datasets_json =
      Some (File (Json (JObj doc_datasets))) ∧
    doc_datasets =
      [("info", info_dict);
       ("data", JList (datasets (current_input w)));
       ("files", JList (JStr <$> files))] ∧
    OrderedDict.keys doc_datasets = ["info"; "data"; "files"] ∧
    fs vs !! Pathlib.key OutputDataConfig.index_sources_json =
      Some (File (Json (JObj doc_sources))) ∧
    doc_sources =
      [("info", info_dict); ("data", JList (sources (current_input v)))] ∧
    OrderedDict.keys doc_sources = ["info"; "data"] ∧
    OrderedDict.getitem "files" doc_sources = None.
Proof.
  rewrite make_index_files_datasets_run, make_index_files_sources_run.
  intros (Hd & _ & _)%write_json_inr (Hs & _ & _)%write_json_inr.
  eexists _, _, _. split; [apply list_of_files_star|].
  split; [rewrite Hd; apply lookup_insert_eq|]. split; [done|]. split; [done|].
  split; [rewrite Hs; apply lookup_insert_eq|]. done.
Qed.

(** C1: [make_all] is [make_sed_files], then [make_index_files_datasets],
    then [make_index_files_sources]; when it returns, every SED of the input
    has its file in the tree left by [make_sed_files], and the [files] entry
    of the dataset index is the file listing of that tree. *)
Theorem make_all_order `{Collaborators} (w w' : world (SED Table)) :
  OutputDataMaker.make_all w = (w', inr tt) →
  OutputDataMaker.make_all w =
    (OutputDataMaker.make_sed_files;;
     OutputDataMaker.make_index_files_datasets;;
     OutputDataMaker.make_index_files_sources) w ∧
  ∃ (w1 w2 : world (SED Table)) (files : list string),
    OutputDataMaker.make_sed_files w = (w1, inr tt) ∧
    OutputDataMaker.make_index_files_datasets w1 = (w2, inr tt) ∧
    OutputDataMaker.make_index_files_sources w2 = (w', inr tt) ∧
    (∀ sed, sed ∈ seds (current_input w) →
       ∃ p, OutputDataConfig.make_filename
              (table_meta (sed_table (process sed))) "sed" false = inr p ∧
            Os.is_file (fs w1) p = true) ∧
    OutputData.list_of_files (OutputData.init None None None) "*" w1 = (w1, inr files) ∧
    fs w' !! Pathlib.key OutputDataConfig.index_datasets_json =
      Some (File (Json (JObj
        [("info", info_dict);
         ("data", JList (datasets (current_input w)));
         ("files", JList (JStr <$> files))]))).
Proof.
  intros Hall. split; [done|].
  unfold OutputDataMaker.make_all, OutputDataMaker.make_index_files in Hall.
  rewrite bind_run in Hall.
  destruct (OutputDataMaker.make_sed_files w) as [w1 [e|[]]] eqn:Hsed; [done|].
  rewrite bind_run in Hall.
  destruct (OutputDataMaker.make_index_files_datasets w1) as [w2 [e|[]]] eqn:Hds; [done|].
  exists w1, w2, (listing (fs w1)). split; [done|]. split; [done|]. split; [done|].
  pose proof (make_sed_files_run w) as Hrun. cbv zeta in Hrun.
  destruct (puts (fs w) _) as [e|tree] eqn:Hputs.
  { destruct Hrun as [? Hrun]. by rewrite Hrun in Hsed. }
  destruct Hrun as [lg Hrun]. rewrite Hrun in Hsed. injection Hsed as <-.
  cbn [fs]. split; [|split; [apply list_of_files_star|]].
  - intros sed Hin. eexists. split; [by rewrite make_filename_unfold|].
    apply puts_settled in Hputs. unfold settled in Hputs.
    rewrite Forall_forall in Hputs.
    destruct (Hputs (sed_write (process sed))) as (Hne & Hdir & [c0 Hc0]).
    { apply list_elem_of_fmap. eexists. split; [done|]. by apply list_elem_of_fmap_2. }
    by eapply is_file_intro.
  - rewrite make_index_files_datasets_run in Hds.
    apply write_json_inr in Hds as (Hfs2 & _ & Hc2).
    rewrite make_index_files_sources_run in Hall.
    apply write_json_inr in Hall as (Hfs' & _ & _).
    rewrite Hfs', loaded_fs, Hfs2, loaded_fs. cbn [fs].
    rewrite lookup_insert_ne.
    + rewrite lookup_insert_eq. unfold current_input at 2. by cbn.
    + unfold Pathlib.key, OutputDataConfig.index_sources_json,
        OutputDataConfig.index_datasets_json.
      rewrite !joinpath_component by done. simpl. intros [= Heq].
      by apply app_inv_head in Heq.
Qed.

(** C9: after [make_sed_files] has returned, a second call returns as well
    and leaves the tree, hence every file and every file listing, as the
    first call left it: on the same maker when [process] is idempotent (the
    second call processes the objects that the first one changed), and on a
    new maker reading the same input when the first maker was new too. *)
Theorem make_sed_files_idempotent `{Collaborators} (w w1 : world (SED Table)) :
  OutputDataMaker.make_sed_files w = (w1, inr tt) →
  ((∀ sed, process (process sed) = process sed) →
     ∃ w2, OutputDataMaker.make_sed_files w1 = (w2, inr tt) ∧
           fs w2 = fs w1 ∧
           ∀ self pattern,
             (OutputData.list_of_files self pattern w2).2 =
             (OutputData.list_of_files self pattern w1).2)
  ∧ (input_data_cache w = None →
     ∃ w2, OutputDataMaker.make_sed_files (mkWorld (fs w1) (logs w1) None) = (w2, inr tt) ∧
           fs w2 = fs w1 ∧
           ∀ self pattern,
             (OutputData.list_of_files self pattern w2).2 =
             (OutputData.list_of_files self pattern w1).2).
Proof.
  intros Hsed.
  pose proof (make_sed_files_run w) as Hrun. cbv zeta in Hrun.
  destruct (puts (fs w) _) as [e|tree] eqn:Hputs.
  { destruct Hrun as [? Hrun]. by rewrite Hrun in Hsed. }
  destruct Hrun as [lg Hrun]. rewrite Hrun in Hsed. injection Hsed as <-.
  apply puts_twice in Hputs. cbn [fs logs]. split.
  - intros Hidem.
    set (i1 := mkInputData (datasets (current_input w)) (sources (current_input w))
                 (process <$> seds (current_input w))).
    set (w1 := mkWorld tree (logs w ++ lg) (Some i1)).
    pose proof (make_sed_files_run w1) as Hrun2. cbv zeta in Hrun2.
    change (current_input w1) with i1 in Hrun2.
    change (seds i1) with (process <$> seds (current_input w)) in Hrun2.
    change (fs w1) with tree in Hrun2.
    rewrite <-(list_fmap_compose process process) in Hrun2.
    rewrite (list_fmap_ext (process ∘ process) process) in Hrun2
      by (intros ???; apply Hidem).
    rewrite Hputs in Hrun2. destruct Hrun2 as [lg2 ->].
    eexists. split; [done|]. split; [done|].
    intros self pattern. by rewrite !list_of_files_run.
  - intros Hnew.
    set (w1 := mkWorld tree (logs w ++ lg) None).
    pose proof (make_sed_files_run w1) as Hrun2. cbv zeta in Hrun2.
    change (current_input w1) with InputData_read in Hrun2.
    change (fs w1) with tree in Hrun2.
    unfold current_input in Hputs. rewrite Hnew in Hputs. simpl in Hputs.
    rewrite Hputs in Hrun2. destruct Hrun2 as [lg2 ->].
    eexists. split; [done|]. split; [done|].
    intros self pattern. by rewrite !list_of_files_run.
Qed.

(** * Further properties *)

(** ** Reports *)

(** X4: [log_list_difference] is silent exactly when the two lists have the same
    elements: a comparison that logs nothing has passed, and one that has
    passed logs nothing. *)
Theorem log_list_difference_silent_iff `{Collaborators}
    (actual expected : list string) (w : world (SED Table)) :
  log_list_difference actual expected w = (w, inr tt) ↔
    ∀ x, x ∈ actual ↔ x ∈ expected.
Proof.
  rewrite log_list_difference_run. cbv zeta.
  destruct (sorted_difference expected actual) as (_ & _ & Hmissing).
  destruct (sorted_difference actual expected) as (_ & _ & Hextra).
  cbv zeta in Hmissing, Hextra.
  destruct (sorted (elements (py_set expected ∖ py_set actual))) as [|m missing] eqn:Em;
    destruct (sorted (elements (py_set actual ∖ py_set expected))) as [|e extra] eqn:Ee.
  - split; [|by rewrite !app_nil_r, world_eta].
    intros _ x. split; intros Hx.
    + destruct (decide (x ∈ expected)) as [|Hn]; [done|].
      by destruct (not_elem_of_nil x); apply Hextra.
    + destruct (decide (x ∈ actual)) as [|Hn]; [done|].
      by destruct (not_elem_of_nil x); apply Hmissing.
  - split.
    + intros Heq. apply (f_equal (λ r, length (logs r.1))) in Heq.
      simpl in Heq. rewrite !length_app in Heq. simpl in Heq. lia.
    + intros Hsame. assert (e ∈ e :: extra) as He by apply list_elem_of_here.
      apply Hextra in He as [He1 He2]. by apply Hsame in He1.
  - split.
    + intros Heq. apply (f_equal (λ r, length (logs r.1))) in Heq.
      simpl in Heq. rewrite !length_app in Heq. simpl in Heq. lia.
    + intros Hsame. assert (m ∈ m :: missing) as Hm by apply list_elem_of_here.
      apply Hmissing in Hm as [Hm1 Hm2]. by apply Hsame in Hm1.
  - split.
    + intros Heq. apply (f_equal (λ r, length (logs r.1))) in Heq.
      simpl in Heq. rewrite !length_app in Heq. simpl in Heq. lia.
    + intros Hsame. assert (m ∈ m :: missing) as Hm by apply list_elem_of_here.
      apply Hmissing in Hm as [Hm1 Hm2]. by apply Hsame in Hm1.
Qed.

(** ** Paths *)

(** X5: Making the absolute file name relative to the output root gives the
    file name built with [relative=True]: this is what links the names that
    [list_of_files] returns with the names that the validation expects. *)
Theorem make_filename_relative_to `{Collaborators} (m : Meta) (datatype : string) :
  datatype ∈ ["sed"; "lc"] →
  root (Pathlib.parse_parts (source_str m)) = "" →
  root (Pathlib.parse_parts (source_dataset_filename m)) = "" →
  ∃ rel abs : PurePath,
    OutputDataConfig.make_filename m datatype true = inr rel ∧
    OutputDataConfig.make_filename m datatype false = inr abs ∧
    OutputData.relative_to abs OutputDataConfig.path = inr rel.
Proof.
  intros Hdt Hsrc Htag.
  assert (∀ suffix, root (Pathlib.parse_parts suffix) = "" →
    let file := source_dataset_filename m +:+ suffix in
    OutputData.relative_to
      (OutputDataConfig.path </> "sources" </> source_str m </> file)
      OutputDataConfig.path =
    inr (Pathlib.parse_parts "" </> "sources" </> source_str m </> file)) as Hgen.
  { intros suffix Hsuffix file.
    assert (root (Pathlib.parse_parts file) = "") as Hfile
      by (by apply root_parse_parts_app).
    rewrite !source_file_relative by done.
    change (parts (Pathlib.parse_parts "")) with (@nil string).
    change (root (Pathlib.parse_parts "")) with "".
    rewrite app_nil_l. apply relative_to_below. }
  rewrite !make_filename_unfold. cbv zeta.
  apply elem_of_cons in Hdt as [->|Hdt].
  { rewrite decide_True by done. eexists _, _. split_and!; [done|done|].
    by apply Hgen. }
  apply list_elem_of_singleton in Hdt as ->.
  rewrite decide_False by done. rewrite decide_True by done.
  eexists _, _. split_and!; [done|done|]. by apply Hgen.
Qed.

(** X6: The five configured artifact paths lie directly in the output root, and
    their names are, in this order, the last five names that the validation
    expects besides the SED files; the first one, [README.md], has no
    configured path. *)
Theorem configured_paths_expected `{Collaborators} :
  (λ p, Pathlib.str <$> OutputData.relative_to p OutputDataConfig.path) <$>
    [OutputDataConfig.index_datasets_json; OutputDataConfig.index_sources_json;
     OutputDataConfig.gammacat_fits; OutputDataConfig.gammacat_ecsv;
     OutputDataConfig.gammacat_yaml]
  = inr <$> drop 1 OutputData.expected_files_extra
  ∧ Forall (λ p, Pathlib.parent p = OutputDataConfig.path)
      [OutputDataConfig.index_datasets_json; OutputDataConfig.index_sources_json;
       OutputDataConfig.gammacat_fits; OutputDataConfig.gammacat_ecsv;
       OutputDataConfig.gammacat_yaml].
Proof.
  unfold OutputDataConfig.index_datasets_json, OutputDataConfig.index_sources_json,
    OutputDataConfig.gammacat_fits, OutputDataConfig.gammacat_ecsv,
    OutputDataConfig.gammacat_yaml.
  rewrite !joinpath_component by done. split.
  - rewrite !fmap_cons, fmap_nil. by rewrite !relative_to_below.
  - repeat apply Forall_cons_2; [..|apply Forall_nil_2];
      unfold Pathlib.parent; cbn [root parts]; rewrite removelast_last;
      by destruct OutputDataConfig.path.
Qed.

(** ** Scanning *)

(** X7: Scanning an output root that is not a directory of the tree, for
    instance before anything was generated, gives the empty list and does
    not raise, for every relative pattern in which [**] is an entire part
    or absent; the other patterns raise before the root is looked at. *)
Theorem list_of_files_missing_root `{Collaborators}
    (self : OutputData.t) (pattern : string) (w : world (SED Table)) :
  Os.is_dir (fs w) (OutputData.path self) = false →
  root (Pathlib.parse_parts pattern) = "" →
  Forall (λ p, p = "**" ∨ Str.contains_double_star p = false)
    (parts (Pathlib.parse_parts pattern)) →
  OutputData.list_of_files self pattern w = (w, inr []).
Proof.
  intros Hdir Hrel Hgood.
  destruct (make_selector_tail (parts (Pathlib.parse_parts pattern))
              (Str.endswith Str.slash pattern) (parts_kept pattern))
    as [[Hbad _]|(_ & sel & Hsel & _)].
  { apply Exists_exists in Hbad as (p & Hp & Hne & Hstar).
    rewrite Forall_forall in Hgood. destruct (Hgood p Hp) as [?|Hfree]; [done|].
    by rewrite Hfree in Hstar. }
  rewrite (list_of_files_found _ _ (Glob.RecursiveWildcardSelector sel)) by
    (try done; by rewrite make_selector_recursive, Hsel).
  unfold found_below. by rewrite entries_below_not_dir.
Qed.

(** ** What [make_sed_files] leaves behind *)

Lemma last_write_None (k : string * list string) (l : list (PurePath * file_content)) :
  last_write k l = None ↔ ∀ p c, (p, c) ∈ l → Pathlib.key p ≠ k.
Proof.
  induction l as [|[p c] l IH]; simpl.
  - split; [|done]. intros _ p c Hin. by apply elem_of_nil in Hin.
  - destruct (last_write k l) as [c'|].
    + split; [done|]. intros Hall. exfalso.
      assert (Some c' = None) as Hc; [|done]. apply IH.
      intros p' c'' Hin. apply (Hall p' c''). by apply list_elem_of_further.
    + destruct (decide (Pathlib.key p = k)) as [Hk|Hk].
      * split; [done|]. intros Hall. by destruct (Hall p c (list_elem_of_here _ _)).
      * split; [|done]. intros _ p' c' [[= -> ->]|Hin]%elem_of_cons; [done|].
        by eapply IH.
Qed.

Lemma last_write_Some (k : string * list string) (l : list (PurePath * file_content))
    (c : file_content) :
  last_write k l = Some c → ∃ p, (p, c) ∈ l ∧ Pathlib.key p = k.
Proof.
  induction l as [|[p c0] l IH]; simpl; [done|].
  destruct (last_write k l) as [c'|].
  - intros [= ->]. destruct IH as (p' & Hin & Hk); [done|].
    exists p'. split; [by apply list_elem_of_further|done].
  - destruct (decide (Pathlib.key p = k)) as [Hk|Hk]; [|done].
    intros [= ->]. exists p. split; [apply list_elem_of_here|done].
Qed.

(** The write that [last_write] finds is followed by no write to the key. *)
Lemma last_write_split (k : string * list string) (l : list (PurePath * file_content))
    (c : file_content) :
  last_write k l = Some c →
  ∃ l1 p l2, l = l1 ++ (p, c) :: l2 ∧ Pathlib.key p = k ∧ last_write k l2 = None.
Proof.
  induction l as [|[p0 c0] l IH]; simpl; [done|].
  destruct (last_write k l) as [c'|] eqn:Hl.
  - intros [= ->]. destruct IH as (l1 & p & l2 & -> & Hk & Hnone); [done|].
    by exists ((p0, c0) :: l1), p, l2.
  - destruct (decide (Pathlib.key p0 = k)) as [Hk|Hk]; [|done].
    intros [= ->]. by exists [], p0, l.
Qed.

Section leaves_behind.
Context `{Collaborators}.

Lemma input_data_run (w : world (SED Table)) :
  OutputDataMaker.input_data w = (loaded w, inr (current_input w)).
Proof.
  unfold OutputDataMaker.input_data, current_input, loaded.
  rewrite bind_run. unfold get_cache.
  destruct (input_data_cache w) as [i|] eqn:Hc; simpl; [done|].
  by rewrite emit_bind.
Qed.

Lemma elem_of_sed_writes (l : list (SED Table)) (p : PurePath) (c : file_content) :
  (p, c) ∈ sed_write <$> (process <$> l) ↔
    ∃ sed, sed ∈ l ∧
      OutputDataConfig.make_filename (table_meta (sed_table (process sed))) "sed" false
        = inr p ∧
      c = Text (table_ecsv (sed_table (process sed))).
Proof.
  rewrite <-list_fmap_compose, list_elem_of_fmap. unfold sed_write.
  setoid_rewrite make_filename_unfold. cbv zeta. simpl.
  split.
  - intros (sed & [= -> ->] & Hin). by exists sed.
  - intros (sed & Hin & [= <-] & ->). by exists sed.
Qed.

Lemma make_sed_files_puts (w w1 : world (SED Table)) :
  OutputDataMaker.make_sed_files w = (w1, inr tt) →
  puts (fs w) (sed_write <$> (process <$> seds (current_input w))) = inr (fs w1) ∧
  input_data_cache w1 =
    Some (mkInputData (datasets (current_input w)) (sources (current_input w))
            (process <$> seds (current_input w))).
Proof.
  intros Hsed. pose proof (make_sed_files_run w) as Hrun. cbv zeta in Hrun.
  destruct (puts (fs w) _) as [e|tree] eqn:Hputs.
  { destruct Hrun as [? Hrun]. by rewrite Hrun in Hsed. }
  destruct Hrun as [lg Hrun]. rewrite Hrun in Hsed. by injection Hsed as <-.
Qed.

End leaves_behind.

(** X10: After [make_sed_files], where the output root and the SED files
    are spelled without [..], the path of every SED holds the ECSV text of
    the last processed SED of the input with this path, and every entry of
    the tree whose path is not the path of a SED is what it was: nothing is
    removed and no other file is changed. *)
Theorem make_sed_files_writes `{Collaborators} (w w1 : world (SED Table)) :
  OutputDataMaker.make_sed_files w = (w1, inr tt) →
  ".." ∉ parts base_dir →
  (∀ sed, sed ∈ seds (current_input w) →
     sed_below (table_meta (sed_table (process sed)))) →
  ∃ (w0 : world (SED Table)) (i : InputData (SED Table)),
    OutputDataMaker.input_data w = (w0, inr i) ∧
    (∀ sed, sed ∈ seds i →
       ∃ (p : PurePath) (before : list (SED Table)) (sed' : SED Table)
         (after : list (SED Table)),
         seds i = before ++ sed' :: after ∧
         OutputDataConfig.make_filename
           (table_meta (sed_table (process sed))) "sed" false = inr p ∧
         OutputDataConfig.make_filename
           (table_meta (sed_table (process sed'))) "sed" false = inr p ∧
         (∀ later, later ∈ after →
            OutputDataConfig.make_filename
              (table_meta (sed_table (process later))) "sed" false ≠ inr p) ∧
         fs w1 !! Pathlib.key p =
           Some (File (Text (table_ecsv (sed_table (process sed')))))) ∧
    (∀ k n,
       fs w !! k = Some n →
       (∀ sed p, sed ∈ seds i →
          OutputDataConfig.make_filename
            (table_meta (sed_table (process sed))) "sed" false = inr p →
          Pathlib.key p ≠ k) →
       fs w1 !! k = Some n).
Proof.
  intros [Hputs _]%make_sed_files_puts _ _.
  eexists _, _. split; [apply input_data_run|]. split.
  - intros sed Hin. exists (sed_write (process sed)).1.
    pose proof (puts_last_write _ _ _ (Pathlib.key (sed_write (process sed)).1) Hputs)
      as Hlast.
    destruct (last_write _ _) as [c|] eqn:Hlw.
    + apply last_write_split in Hlw as (l1 & p' & l2 & Hl & Hk & Hnone).
      rewrite <-list_fmap_compose in Hl.
      apply fmap_app_inv in Hl as (before & rest & -> & Hrest & Hseds).
      symmetry in Hrest.
      apply fmap_cons_inv in Hrest as (sed' & after & Hsed' & -> & ->).
      exists before, sed', after. split; [done|].
      assert (p' = (sed_write (process sed)).1) as Hp'.
      { unfold Pathlib.key in Hk. destruct p', (sed_write (process sed)).1.
        simpl in Hk. by injection Hk as -> ->. }
      unfold compose in Hsed'. unfold sed_write in Hsed' at 1.
      injection Hsed' as Hpath Hc.
      split; [by rewrite make_filename_unfold|].
      split; [rewrite make_filename_unfold; cbv zeta; rewrite decide_True by done;
              congruence|].
      split; [|by rewrite Hlast, Hc].
      intros later Hlater Heq. rewrite last_write_None in Hnone.
      apply (Hnone (sed_write (process later)).1 (sed_write (process later)).2).
      * apply list_elem_of_fmap. exists later. split; [|done].
        unfold compose. by destruct (sed_write (process later)).
      * rewrite make_filename_unfold in Heq. cbv zeta in Heq.
        rewrite decide_True in Heq by done. injection Heq as Heq.
        unfold sed_write at 1. cbn [fst]. by rewrite Heq.
    + exfalso. rewrite last_write_None in Hlw.
      eapply (Hlw _ (Text (table_ecsv (sed_table (process sed))))); [|done].
      apply elem_of_sed_writes. exists sed. by rewrite make_filename_unfold.
  - intros k n Hk Hother.
    pose proof (puts_last_write _ _ _ k Hputs) as Hlast.
    destruct (last_write k _) as [c|] eqn:Hlw; [|by apply Hlast].
    apply last_write_Some in Hlw as (p & Hin & Hkp).
    apply elem_of_sed_writes in Hin as (sed & Hin & Hp & _).
    by destruct (Hother sed p Hin Hp).
Qed.

(** X11: The input data of a maker is read once and kept: after
    [make_sed_files], [input_data] gives the datasets and sources it gave
    before and the SED objects as [process] left them, without reading or
    logging anything. *)
Theorem input_data_after_make_sed_files `{Collaborators} (w w1 : world (SED Table)) :
  OutputDataMaker.make_sed_files w = (w1, inr tt) →
  ∃ (w0 : world (SED Table)) (i : InputData (SED Table)),
    OutputDataMaker.input_data w = (w0, inr i) ∧
    OutputDataMaker.input_data w1 =
      (w1, inr (mkInputData (datasets i) (sources i) (process <$> seds i))).
Proof.
  intros [_ Hcache]%make_sed_files_puts.
  eexists _, _. split; [apply input_data_run|].
  rewrite input_data_run. unfold loaded, current_input at 1. by rewrite Hcache.
Qed.

(** ** The listing of a tree *)

Section listing_facts.
Context `{Collaborators}.

Lemma elem_of_listed_below (t : FS) (dir : PurePath) (ps rel : list string) :
  rel ∈ listed_below t dir ps ↔
    rel ≠ [] ∧
    Os.is_file t (mkPath (root dir) (parts dir ++ rel)) = true ∧
    tail_matches t dir ps rel = true.
Proof.
  unfold listed_below. rewrite !list_elem_of_filter, elem_of_entries_below.
  split; [naive_solver|]. intros (Hne & Hfile & Hsel). split_and!; try done.
  - unfold Os.is_file in Hfile.
    destruct (Os.stat _ _) as [[c|]|] eqn:Hstat; [|done..].
    apply stat_file_lookup in Hstat. by eexists.
  - unfold Os.is_file in Hfile. by destruct (Os.stat _ _) as [[c|]|].
Qed.

Lemma elem_of_listing (t : FS) (s : string) :
  s ∈ listing t ↔
    ∃ rel, s = Pathlib.str (mkPath "" rel) ∧ rel ≠ [] ∧
      Os.is_file t (mkPath (root OutputDataConfig.path)
                           (parts OutputDataConfig.path ++ rel)) = true ∧
      tail_matches t OutputDataConfig.path ["*"] rel = true.
Proof.
  unfold listing. rewrite list_elem_of_fmap.
  setoid_rewrite elem_of_listed_below. naive_solver.
Qed.

Lemma is_file_keeps (t t' : FS) (p : PurePath) :
  keeps t t' → Os.is_file t p = true → Os.is_file t' p = true.
Proof.
  intros Hk. unfold Os.is_file, Os.stat.
  destruct (Os.resolve_dirs t _ _ _) eqn:Hres; [done|].
  rewrite (resolve_dirs_keeps _ _ _ _ _ Hk Hres).
  destruct (parts p); [done|]. specialize (Hk (Pathlib.key p)).
  destruct (t !! Pathlib.key p) as [[c|]|]; [|done..].
  destruct Hk as [c' ->]. done.
Qed.

Lemma resolve_dirs_dirs (t t' : FS) (r : string) (seen todo : list string) :
  (∀ k, t !! k = Some Dir → t' !! k = Some Dir) →
  Os.resolve_dirs t r seen todo = None → Os.resolve_dirs t' r seen todo = None.
Proof.
  intros Hd. revert seen. induction todo as [|d todo IH]; intros seen; simpl; [done|].
  unfold Pathlib.key. simpl. specialize (Hd (r, seen ++ [d])).
  destruct (t !! (r, seen ++ [d])) as [[?|]|]; [done| |done].
  rewrite Hd by done. apply IH.
Qed.

Lemma drop_to_last (l : list string) :
  l ≠ [] → ∃ x, drop (length l - 1) l = [x].
Proof.
  destruct l as [|y l _] using rev_ind; [done|]. intros _. exists y.
  rewrite length_app. simpl. replace (length l + 1 - 1) with (length l) by lia.
  by rewrite drop_app_length.
Qed.

Lemma selected_star (t : FS) (dir : PurePath) (rel : list string) :
  (∀ name, fnmatch name "*" = true) → rel ≠ [] →
  tail_matches t dir ["*"] rel = true.
Proof.
  intros Hstar Hne. unfold tail_matches. apply bool_decide_eq_true.
  destruct (drop_to_last rel Hne) as [x Hx]. simpl length. rewrite Hx.
  split; [destruct rel; [done|simpl; lia]|].
  apply Forall2_cons_2; [apply Hstar|constructor].
Qed.

End listing_facts.

(** X9: Every SED file that [make_sed_files] has written is in the file
    listing of the resulting tree, under the name that [make_filename]
    builds with [relative=True] from the metadata of the processed SED;
    [*] matches every name, and the SED files are spelled below the output
    root, without [..]. *)
Theorem sed_files_listed `{Collaborators} (w w1 : world (SED Table)) :
  OutputDataMaker.make_sed_files w = (w1, inr tt) →
  (∀ name, fnmatch name "*" = true) →
  (∀ sed, sed ∈ seds (current_input w) →
     sed_below (table_meta (sed_table (process sed)))) →
  ∃ (w0 : world (SED Table)) (i : InputData (SED Table)) (files : list string),
    OutputDataMaker.input_data w = (w0, inr i) ∧
    OutputData.list_of_files (OutputData.init None None None) "*" w1 = (w1, inr files) ∧
    ∀ sed, sed ∈ seds i →
      ∃ rel, OutputDataConfig.make_filename
               (table_meta (sed_table (process sed))) "sed" true = inr rel ∧
             Pathlib.str rel ∈ files.
Proof.
  intros [Hputs _]%make_sed_files_puts Hstar Hbelow.
  eexists _, _, _. split; [apply input_data_run|]. split; [apply list_of_files_star|].
  intros sed Hin. destruct (Hbelow sed Hin) as (Hsrc & Htag & _ & _).
  set (m := table_meta (sed_table (process sed))) in *.
  eexists. split; [by rewrite make_filename_unfold|].
  assert (root (Pathlib.parse_parts (source_dataset_filename m +:+ "_sed.ecsv")) = "")
    as Hfile by (by apply root_parse_parts_app).
  apply puts_settled in Hputs. unfold settled in Hputs. rewrite Forall_forall in Hputs.
  destruct (Hputs (sed_write (process sed))) as (Hne & Hdir & [c0 Hc0]).
  { apply list_elem_of_fmap_2. by apply list_elem_of_fmap_2. }
  pose proof (is_file_intro _ _ _ Hne Hdir Hc0) as Hisfile.
  unfold sed_write in Hisfile. cbn [fst] in Hisfile. fold m in Hisfile.
  rewrite source_file_relative in Hisfile by done.
  rewrite source_file_relative by done.
  change (parts (Pathlib.parse_parts "")) with (@nil string).
  change (root (Pathlib.parse_parts "")) with "". rewrite app_nil_l.
  apply elem_of_listing. eexists. split; [done|]. split; [done|].
  split; [done|]. by apply selected_star.
Qed.

(** X3: After [make_all], every file recorded in the dataset index is a file of
    the tree, and every file of the tree is recorded or is one of the two
    index files: the list was taken before they were written. *)
Theorem recorded_files_after_make_all `{Collaborators} (w w' : world (SED Table)) :
  OutputDataMaker.make_all w = (w', inr tt) →
  ∃ (doc : OrderedDict.t) (recorded actual : list string),
    fs w' !! Pathlib.key OutputDataConfig.index_datasets_json =
      Some (File (Json (JObj doc))) ∧
    OrderedDict.getitem "files" doc = Some (JList (JStr <$> recorded)) ∧
    OutputData.list_of_files (OutputData.init None None None) "*" w' = (w', inr actual) ∧
    (∀ s, s ∈ recorded → s ∈ actual) ∧
    (∀ s, s ∈ actual →
       s ∈ recorded ∨ s = "gammacat-datasets.json" ∨ s = "gammacat-sources.json").
Proof.
  intros Hall.
  unfold OutputDataMaker.make_all, OutputDataMaker.make_index_files in Hall.
  rewrite bind_run in Hall.
  destruct (OutputDataMaker.make_sed_files w) as [w1 [e|[]]] eqn:Hsed; [done|].
  rewrite bind_run in Hall.
  destruct (OutputDataMaker.make_index_files_datasets w1) as [w2 [e|[]]] eqn:Hds; [done|].
  rewrite make_index_files_datasets_run, write_json_run in Hds.
  destruct (Os.write _ _ _) as [e|t2] eqn:Hw2; [done|]. injection Hds as <-.
  rewrite loaded_fs in Hw2. apply os_write_inr in Hw2 as (_ & _ & Hfree2 & ->).
  rewrite make_index_files_sources_run, write_json_run in Hall.
  destruct (Os.write _ _ _) as [e|t3] eqn:Hw3; [done|]. injection Hall as <-.
  rewrite loaded_fs in Hw3. cbn [fs] in Hw3.
  apply os_write_inr in Hw3 as (_ & _ & Hfree3 & ->).
  set (t1 := fs w1) in *.
  set (kd := Pathlib.key OutputDataConfig.index_datasets_json) in *.
  set (ks := Pathlib.key OutputDataConfig.index_sources_json) in *.
  assert (kd = (root OutputDataConfig.path,
                parts OutputDataConfig.path ++ ["gammacat-datasets.json"])) as Hkd.
  { unfold kd, OutputDataConfig.index_datasets_json.
    by rewrite joinpath_component. }
  assert (ks = (root OutputDataConfig.path,
                parts OutputDataConfig.path ++ ["gammacat-sources.json"])) as Hks.
  { unfold ks, OutputDataConfig.index_sources_json.
    by rewrite joinpath_component. }
  assert (ks ≠ kd) as Hne.
  { rewrite Hkd, Hks. intros [= Heq]. by apply app_inv_head in Heq. }
  eexists _, _, _. cbn [fs].
  split; [by rewrite lookup_insert_ne, lookup_insert_eq|].
  split; [reflexivity|]. split; [apply list_of_files_star|]. cbn [fs]. split.
  - intros s (rel & -> & Hrel & Hfile & Hsel)%elem_of_listing.
    apply elem_of_listing. exists rel. split_and!; try done.
    eapply is_file_keeps; [|done].
    eapply keeps_trans; by apply insert_file_keeps.
  - intros s (rel & -> & Hrel & Hfile & Hsel)%elem_of_listing.
    destruct (decide ((root OutputDataConfig.path,
                       parts OutputDataConfig.path ++ rel) = kd)) as [Hd|Hd].
    { right. left. rewrite Hkd in Hd. injection Hd as Hd.
      apply app_inv_head in Hd as ->. done. }
    destruct (decide ((root OutputDataConfig.path,
                       parts OutputDataConfig.path ++ rel) = ks)) as [Hs|Hs].
    { right. right. rewrite Hks in Hs. injection Hs as Hs.
      apply app_inv_head in Hs as ->. done. }
    left. apply elem_of_listing. exists rel. split_and!; try done.
    unfold Os.is_file, Os.stat in *. cbn [root parts] in *.
    destruct (Os.resolve_dirs (<[ks:=_]> _) _ _ _) eqn:Hres; [done|].
    rewrite (resolve_dirs_dirs _ t1 _ _ _) with (2 := Hres).
    + destruct (parts OutputDataConfig.path ++ rel); [done|].
      unfold Pathlib.key in *. cbn [root parts] in *.
      by rewrite !lookup_insert_ne in Hfile.
    + intros k. destruct (decide (k = ks)) as [->|]; [by rewrite lookup_insert_eq|].
      rewrite lookup_insert_ne by done.
      destruct (decide (k = kd)) as [->|]; [by rewrite lookup_insert_eq|].
      by rewrite lookup_insert_ne.
Qed.

(** ** No file is listed twice *)

Lemma split_app_sep (sep : ascii) (x rest : string) :
  Str.contains sep x = false →
  Str.split sep (x +:+ String sep rest) = x :: Str.split sep rest.
Proof.
  induction x as [|a x IH]; intros Hx.
  - rewrite str_app_nil_l. simpl. by rewrite decide_True.
  - simpl in Hx. apply orb_false_iff in Hx as [Ha Hx].
    apply bool_decide_eq_false in Ha.
    rewrite str_app_cons. simpl. rewrite decide_False by done. by rewrite IH.
Qed.

(** Splitting the joined components at the slashes gives them back. *)
Lemma split_join (l : list string) :
  Forall component l → l ≠ [] → Str.split Str.slash (Str.join "/" l) = l.
Proof.
  induction 1 as [|x l (_ & _ & Hx) Hl IH]; [done|]. intros _.
  destruct l as [|y l]; [by apply split_no_sep|].
  rewrite join_cons by done.
  change ("/" +:+ Str.join "/" (y :: l)) with (String Str.slash (Str.join "/" (y :: l))).
  rewrite split_app_sep by done. by rewrite IH.
Qed.

Lemma str_relative_inj (a b : list string) :
  Forall component a → Forall component b → a ≠ [] → b ≠ [] →
  Pathlib.str (mkPath "" a) = Pathlib.str (mkPath "" b) → a = b.
Proof.
  intros Ha Hb Hna Hnb.
  assert (∀ l, Forall component l → l ≠ [] →
               Pathlib.str (mkPath "" l) = Str.join "/" l) as Hstr.
  { intros [|x l] Hl Hne; [done|]. rewrite str_nonempty; [done|].
    rewrite str_app_nil_l. apply join_cons_nonempty.
    by apply Forall_cons_1 in Hl as [(? & _) _]. }
  rewrite !Hstr by done. intros Heq.
  by rewrite <-(split_join a), <-(split_join b), Heq.
Qed.

Lemma NoDup_omap_inj {A B : Type} (f : A → option B) (l : list A) :
  (∀ x y z, x ∈ l → y ∈ l → f x = Some z → f y = Some z → x = y) →
  NoDup l → NoDup (omap f l).
Proof.
  intros Hinj Hl. induction Hl as [|x l Hx Hl IH]; simpl; [constructor|].
  assert (NoDup (omap f l)) as Hrest.
  { apply IH. intros a b z Ha Hb. apply Hinj; by apply list_elem_of_further. }
  destruct (f x) as [z|] eqn:Hfx; [|done]. constructor; [|done].
  intros (y & Hy & Hfy)%list_elem_of_omap. apply Hx.
  by rewrite (Hinj x y z (list_elem_of_here _ _) (list_elem_of_further _ _ _ Hy) Hfx Hfy).
Qed.

Section no_duplicates.
Context `{Collaborators}.

Lemma NoDup_entries_below (t : FS) (dir : PurePath) :
  NoDup (OutputData.entries_below t dir).
Proof.
  unfold OutputData.entries_below.
  apply NoDup_omap_inj; [|apply NoDup_map_to_list].
  intros [[r ps] n] [[r' ps'] n'] rel Hx Hy. simpl.
  apply elem_of_map_to_list in Hx, Hy.
  destruct (decide (r = root dir)) as [->|]; [|done].
  destruct (decide (r' = root dir)) as [->|]; [|done].
  destruct (Pathlib.strip_prefix _ ps) as [[|c l]|] eqn:Hps; [done| |done].
  destruct (Pathlib.strip_prefix _ ps') as [[|c' l']|] eqn:Hps'; [done| |done].
  apply strip_prefix_Some in Hps as ->. apply strip_prefix_Some in Hps' as ->.
  destruct (Os.stat _ _); [|done]. destruct (Os.stat _ _); [|done].
  intros [= <-] [= -> ->]. rewrite Hx in Hy. by injection Hy as ->.
Qed.

Lemma NoDup_listed_below (t : FS) (dir : PurePath) (ps : list string) :
  NoDup (listed_below t dir ps).
Proof. unfold listed_below. apply NoDup_filter, NoDup_filter, NoDup_entries_below. Qed.

End no_duplicates.

(** X8: In a tree whose entries have proper components (no slash inside, not
    empty, not a dot), [list_of_files] returns no name twice, whatever the
    pattern: the set that the validation makes of the list loses nothing. *)
Theorem list_of_files_no_duplicates `{Collaborators} (self : OutputData.t)
    (pattern : string) (w : world (SED Table)) (files : list string) :
  (∀ r ps n, fs w !! (r, ps) = Some n → Forall component ps) →
  OutputData.list_of_files self pattern w = (w, inr files) →
  NoDup files.
Proof.
  intros Hvalid Hrun.
  assert (root (Pathlib.parse_parts pattern) = "") as Hroot.
  { rewrite list_of_files_run in Hrun. unfold OutputData.rglob in Hrun.
    by destruct (decide (root (Pathlib.parse_parts pattern) = "")). }
  destruct (Glob.make_selector
              ("**" :: parts (Pathlib.parse_parts pattern)
                    ++ (if Str.endswith Str.slash pattern then [""] else [])))
    as [e|sel] eqn:Hsel.
  { rewrite list_of_files_run in Hrun. unfold OutputData.rglob in Hrun.
    rewrite decide_True in Hrun by done. cbv zeta in Hrun. by rewrite Hsel in Hrun. }
  rewrite (list_of_files_found _ _ sel) in Hrun by done. injection Hrun as <-.
  apply NoDup_fmap_2_strong;
    [|unfold found_below; apply NoDup_filter, NoDup_filter, NoDup_entries_below].
  assert (∀ rel, rel ∈ found_below (fs w) (OutputData.path self) sel →
                 Forall component rel ∧ rel ≠ []) as Hok.
  { intros rel Hin. unfold found_below in Hin.
    apply list_elem_of_filter in Hin as [_ Hin].
    apply list_elem_of_filter in Hin as [_ Hin].
    apply elem_of_entries_below in Hin as (Hne & [n Hn] & _).
    split; [|done]. apply Hvalid in Hn. by apply Forall_app in Hn as [_ ?]. }
  intros a b [Ha Hna]%Hok [Hb Hnb]%Hok. by apply str_relative_inj.
Qed.

(** ** The files that the maker creates *)

Lemma puts_files (l : list (PurePath * file_content)) (t t' : FS)
    (k : string * list string) (c : file_content) :
  puts t l = inr t' → t' !! k = Some (File c) →
  t !! k = Some (File c) ∨ last_write k l = Some c.
Proof.
  revert t. induction l as [|[p c0] l IH]; intros t; simpl.
  { intros [= <-] Hk. by left. }
  destruct (put t p c0) as [e|t1] eqn:Hput; [done|]. intros Hrest Hk.
  pose proof (puts_last_write _ _ _ k Hrest) as Hlast.
  destruct (IH _ Hrest Hk) as [Hk1|Hlw]; [|right; by rewrite Hlw].
  apply put_inr in Hput as (t0 & Hg & _ & _ & _ & ->).
  destruct (last_write k l) as [c'|].
  { right. rewrite Hlast in Hk. by injection Hk as ->. }
  destruct (decide (Pathlib.key p = k)) as [<-|Hne].
  - right. rewrite lookup_insert_eq in Hk1. by injection Hk1 as ->.
  - left. rewrite lookup_insert_ne in Hk1 by done. specialize (Hg k).
    destruct (t !! k) as [n|]; [by rewrite Hg in Hk1|].
    destruct Hg as [Hg|Hg]; by rewrite Hg in Hk1.
Qed.

Section maker_creates.
Context `{Collaborators}.

Lemma index_datasets_key :
  Pathlib.key OutputDataConfig.index_datasets_json =
    (root OutputDataConfig.path, parts OutputDataConfig.path ++ ["gammacat-datasets.json"]).
Proof. unfold OutputDataConfig.index_datasets_json. by rewrite joinpath_component. Qed.

Lemma index_sources_key :
  Pathlib.key OutputDataConfig.index_sources_json =
    (root OutputDataConfig.path, parts OutputDataConfig.path ++ ["gammacat-sources.json"]).
Proof. unfold OutputDataConfig.index_sources_json. by rewrite joinpath_component. Qed.

Lemma gammacat_fits_key :
  Pathlib.key OutputDataConfig.gammacat_fits =
    (root OutputDataConfig.path, parts OutputDataConfig.path ++ ["gammacat.fits.gz"]).
Proof. unfold OutputDataConfig.gammacat_fits. by rewrite joinpath_component. Qed.

(** The tree after [make_index_files]: the two documents are stored in the
    output root, which is a directory, and nothing else changes. *)
Lemma make_index_files_fs (w w' : world (SED Table)) :
  OutputDataMaker.make_index_files w = (w', inr tt) →
  Os.is_dir (fs w) OutputDataConfig.path = true ∧
  fs w !! Pathlib.key OutputDataConfig.index_datasets_json ≠ Some Dir ∧
  fs w !! Pathlib.key OutputDataConfig.index_sources_json ≠ Some Dir ∧
  fs w' =
    <[Pathlib.key OutputDataConfig.index_sources_json :=
        File (Json (JObj [("info", info_dict);
                          ("data", JList (sources (current_input w)))]))]>
      (<[Pathlib.key OutputDataConfig.index_datasets_json :=
           File (Json (JObj [("info", info_dict);
                             ("data", JList (datasets (current_input w)));
                             ("files", JList (JStr <$> listing (fs w)))]))]> (fs w)).
Proof.
  unfold OutputDataMaker.make_index_files. rewrite bind_run.
  destruct (OutputDataMaker.make_index_files_datasets w) as [w2 [e|[]]] eqn:Hds; [done|].
  rewrite make_index_files_datasets_run, write_json_run in Hds.
  destruct (Os.write _ _ _) as [e|t2] eqn:Hw2; [done|]. injection Hds as <-.
  rewrite loaded_fs in Hw2. apply os_write_inr in Hw2 as (_ & Hdir & Hfree2 & ->).
  rewrite make_index_files_sources_run, write_json_run.
  destruct (Os.write _ _ _) as [e|t3] eqn:Hw3; [done|]. intros [= <-].
  rewrite loaded_fs in Hw3. cbn [fs] in Hw3.
  apply os_write_inr in Hw3 as (_ & _ & Hfree3 & ->). cbn [fs].
  assert (Pathlib.key OutputDataConfig.index_sources_json ≠
          Pathlib.key OutputDataConfig.index_datasets_json) as Hne.
  { rewrite index_sources_key, index_datasets_key. intros [= Heq].
    by apply app_inv_head in Heq. }
  rewrite lookup_insert_ne in Hfree3 by done.
  split_and!; [|done|done|].
  - unfold OutputDataConfig.index_datasets_json in Hdir.
    rewrite joinpath_component in Hdir by done.
    unfold Pathlib.parent in Hdir. cbn [root parts] in Hdir.
    rewrite removelast_last in Hdir. by destruct OutputDataConfig.path.
  - unfold current_input at 1. cbn [input_data_cache]. rewrite loaded_cache. done.
Qed.

Lemma make_all_fs (w w' : world (SED Table)) :
  OutputDataMaker.make_all w = (w', inr tt) →
  ∃ w1, OutputDataMaker.make_sed_files w = (w1, inr tt) ∧
        OutputDataMaker.make_index_files w1 = (w', inr tt).
Proof.
  unfold OutputDataMaker.make_all. rewrite bind_run.
  destruct (OutputDataMaker.make_sed_files w) as [w1 [e|[]]]; [done|].
  intros Hrest. by exists w1.
Qed.

(** A SED path with relative strings differs from every path directly in
    the output root. *)
Lemma sed_key_not_in_root (m : Meta) (p : PurePath) (x : string) :
  root (Pathlib.parse_parts (source_str m)) = "" →
  root (Pathlib.parse_parts (source_dataset_filename m)) = "" →
  x ≠ "sources" →
  OutputDataConfig.make_filename m "sed" false = inr p →
  Pathlib.key p ≠ (root OutputDataConfig.path, parts OutputDataConfig.path ++ [x]).
Proof.
  intros Hsrc Htag Hx. rewrite make_filename_unfold. cbv zeta.
  rewrite decide_True by done. intros [= <-].
  rewrite source_file_relative by (done || by apply root_parse_parts_app).
  unfold Pathlib.key. cbn [root parts]. intros [= Heq].
  apply app_inv_head in Heq. injection Heq as Heq _. by destruct Hx.
Qed.

End maker_creates.

(** X12: Where the output root and the SED files are spelled without [..],
    a file of the tree after [make_all] was in the tree with this content
    before, or is one of the two index files, or is the file of a SED of
    the input: [make_all] writes no other file, in particular none of the
    three catalog files and no [README.md]. *)
Theorem make_all_creates `{Collaborators} (w w' : world (SED Table))
    (k : string * list string) (c : file_content) :
  OutputDataMaker.make_all w = (w', inr tt) →
  ".." ∉ parts base_dir →
  (∀ sed, sed ∈ seds (current_input w) →
     sed_below (table_meta (sed_table (process sed)))) →
  fs w' !! k = Some (File c) →
  fs w !! k = Some (File c) ∨
  k = Pathlib.key OutputDataConfig.index_datasets_json ∨
  k = Pathlib.key OutputDataConfig.index_sources_json ∨
  ∃ sed p, sed ∈ seds (current_input w) ∧
    OutputDataConfig.make_filename (table_meta (sed_table (process sed))) "sed" false
      = inr p ∧
    Pathlib.key p = k ∧ c = Text (table_ecsv (sed_table (process sed))).
Proof.
  intros (w1 & [Hputs _]%make_sed_files_puts
             & (_ & _ & _ & Hfs)%make_index_files_fs)%make_all_fs _ _.
  rewrite Hfs. intros Hk.
  destruct (decide (k = Pathlib.key OutputDataConfig.index_sources_json)) as [->|Hs];
    [by right; right; left|].
  destruct (decide (k = Pathlib.key OutputDataConfig.index_datasets_json)) as [->|Hd];
    [by right; left|].
  rewrite !lookup_insert_ne in Hk by done.
  destruct (puts_files _ _ _ _ _ Hputs Hk) as [?|Hlw]; [by left|].
  right; right; right.
  apply last_write_Some in Hlw as (p & Hin & Hkp).
  apply elem_of_sed_writes in Hin as (sed & Hin & Hp & ->). by exists sed, p.
Qed.

(** ** Reading the output back *)

Section reader_facts.
Context `{Collaborators}.
Variable json_loads : string → result json.
Variable fits_read : file_content → result Table.

Lemma Table_read_run (p : PurePath) (w : world (SED Table)) :
  OutputDataReader.Table_read fits_read p w =
    (w, OutputDataReader.open_read (fs w) p ≫= fits_read).
Proof.
  unfold OutputDataReader.Table_read. rewrite bind_run. unfold get_fs.
  rewrite bind_run. unfold lift.
  by destruct (OutputDataReader.open_read _ _) as [e|c].
Qed.

Lemma load_json_run (p : PurePath) (w : world (SED Table)) :
  OutputDataReader.load_json json_loads p w =
    (w, c ← OutputDataReader.open_read (fs w) p;
        match c with Json doc => inr doc | Text s => json_loads s end).
Proof.
  unfold OutputDataReader.load_json. rewrite bind_run. unfold get_fs.
  rewrite bind_run. unfold lift.
  by destruct (OutputDataReader.open_read _ _) as [e|c].
Qed.

(** A file directly in the output root is opened when the root is a
    directory. *)
Lemma open_read_in_root (t : FS) (x : string) (c : file_content) :
  component x → Os.is_dir t OutputDataConfig.path = true →
  t !! (root OutputDataConfig.path, parts OutputDataConfig.path ++ [x]) = Some (File c) →
  OutputDataReader.open_read t (OutputDataConfig.path </> x) = inr c.
Proof.
  intros Hx Hdir%is_dir_resolve Hk. rewrite joinpath_component by done.
  unfold OutputDataReader.open_read, Pathlib.key. cbn [root parts].
  rewrite removelast_last, Hdir.
  destruct (parts OutputDataConfig.path ++ [x]) eqn:E;
    [by destruct (parts OutputDataConfig.path)|].
  by rewrite Hk.
Qed.

Lemma open_read_no_file (t : FS) (p : PurePath) :
  (∀ c, t !! Pathlib.key p ≠ Some (File c)) →
  ∃ e, OutputDataReader.open_read t p = inl e.
Proof.
  intros Hk. unfold OutputDataReader.open_read.
  destruct (Os.resolve_dirs _ _ _ _); [by eexists|].
  destruct (parts p); [by eexists|].
  destruct (t !! Pathlib.key p) as [[c|]|] eqn:E; [|by eexists..].
  by destruct (Hk c).
Qed.

End reader_facts.

(** X15: [read] after [make_index_files], on a tree that holds a catalog file
    which the FITS reader accepts, returns the table and the two index
    documents that were written: the dataset index with the file list taken
    before the index files existed, the sources index without [files]. The
    summary of the object read counts the datasets of the input data and
    the files of that list. *)
Theorem read_after_make_index_files `{Collaborators}
    (json_loads : string → result json) (fits_read : file_content → result Table)
    (table_len : Table → nat)
    (w w' : world (SED Table)) (c : file_content) (table : Table) :
  OutputDataMaker.make_index_files w = (w', inr tt) →
  fs w !! Pathlib.key OutputDataConfig.gammacat_fits = Some (File c) →
  fits_read c = inr table →
  ∃ (w0 : world (SED Table)) (i : InputData (SED Table)) (files : list string)
    (self : OutputData.t),
    OutputDataMaker.input_data w = (w0, inr i) ∧
    OutputData.list_of_files (OutputData.init None None None) "*" w = (w, inr files) ∧
    OutputDataReader.read json_loads fits_read w' = (w', inr self) ∧
    OutputData.path self = OutputDataConfig.path ∧
    OutputData.gammacat self = Some table ∧
    OutputData.index_dataset self =
      Some (JObj [("info", info_dict); ("data", JList (datasets i));
                  ("files", JList (JStr <$> files))]) ∧
    OutputData.index_sources self =
      Some (JObj [("info", info_dict); ("data", JList (sources i))]) ∧
    OutputDataReader.__str__ table_len self =
      inr ("Output data summary:" +:+ OutputDataReader.newline +:+
           "Path: " +:+ Pathlib.str OutputDataConfig.path +:+ OutputDataReader.newline +:+
           "Number of sources: " +:+ pretty (table_len table) +:+ OutputDataReader.newline +:+
           "Number of datasets: " +:+ pretty (length (datasets i)) +:+
             OutputDataReader.newline +:+
           "Number of files: " +:+ pretty (length files) +:+ OutputDataReader.newline).
Proof.
  intros (Hdir & Hfd & Hfs & Hfs')%make_index_files_fs Hfits Hread.
  assert (Pathlib.key OutputDataConfig.index_sources_json ≠
          Pathlib.key OutputDataConfig.index_datasets_json) as Hsd.
  { rewrite index_sources_key, index_datasets_key. intros [= Heq].
    by apply app_inv_head in Heq. }
  assert (Pathlib.key OutputDataConfig.index_sources_json ≠
          Pathlib.key OutputDataConfig.gammacat_fits) as Hsf.
  { rewrite index_sources_key, gammacat_fits_key. intros [= Heq].
    by apply app_inv_head in Heq. }
  assert (Pathlib.key OutputDataConfig.index_datasets_json ≠
          Pathlib.key OutputDataConfig.gammacat_fits) as Hdf.
  { rewrite index_datasets_key, gammacat_fits_key. intros [= Heq].
    by apply app_inv_head in Heq. }
  assert (Os.is_dir (fs w') OutputDataConfig.path = true) as Hdir'.
  { eapply is_dir_keeps; [|done]. rewrite Hfs'.
    eapply keeps_trans; apply insert_file_keeps; [done|].
    by rewrite lookup_insert_ne. }
  eexists _, _, _, _. split; [apply input_data_run|].
  split; [apply list_of_files_star|].
  split.
  { unfold OutputDataReader.read. cbv zeta.
    rewrite bind_run, Table_read_run.
    unfold OutputDataConfig.gammacat_fits at 1.
    erewrite open_read_in_root; [|done|done|]; last first.
    { rewrite Hfs', <-gammacat_fits_key, !lookup_insert_ne by done. done. }
    rewrite result_bind_inr, Hread.
    rewrite bind_run, load_json_run.
    unfold OutputDataConfig.index_datasets_json at 1.
    erewrite open_read_in_root; [|done|done|]; last first.
    { rewrite Hfs', <-index_datasets_key, lookup_insert_ne by done.
      apply lookup_insert_eq. }
    rewrite result_bind_inr.
    rewrite bind_run, load_json_run.
    unfold OutputDataConfig.index_sources_json at 1.
    erewrite open_read_in_root; [|done|done|]; last first.
    { rewrite Hfs', <-index_sources_key. apply lookup_insert_eq. }
    rewrite result_bind_inr. reflexivity. }
  split; [done|]. split; [done|]. split; [done|]. split; [done|].
  unfold OutputDataReader.__str__. cbn.
  repeat case_decide; try done. cbn.
  rewrite length_fmap. by rewrite !str_app_assoc.
Qed.

(** X16: [make_all] does not write the catalog file that [read] opens first:
    where the tree held no file at [gammacat.fits.gz] before and the SED
    files go below the output root, [read] raises after [make_all] has
    returned. *)
Theorem read_after_make_all_raises `{Collaborators}
    (json_loads : string → result json) (fits_read : file_content → result Table)
    (w w' : world (SED Table)) :
  OutputDataMaker.make_all w = (w', inr tt) →
  (∀ c, fs w !! Pathlib.key OutputDataConfig.gammacat_fits ≠ Some (File c)) →
  (∀ sed, sed ∈ seds (current_input w) →
     let m := table_meta (sed_table (process sed)) in
     root (Pathlib.parse_parts (source_str m)) = "" ∧
     root (Pathlib.parse_parts (source_dataset_filename m)) = "") →
  ∃ e, OutputDataReader.read json_loads fits_read w' = (w', inl e).
Proof.
  intros (w1 & [Hputs _]%make_sed_files_puts
             & (_ & _ & _ & Hfs)%make_index_files_fs)%make_all_fs Hnone Hrel.
  destruct (open_read_no_file (fs w') OutputDataConfig.gammacat_fits) as [e He].
  { intros c Hk. rewrite Hfs in Hk.
    rewrite !lookup_insert_ne in Hk.
    - destruct (puts_files _ _ _ _ _ Hputs Hk) as [?|Hlw]; [by destruct (Hnone c)|].
      apply last_write_Some in Hlw as (p & Hin & Hkp).
      apply elem_of_sed_writes in Hin as (sed & Hin & Hp & _).
      destruct (Hrel sed Hin) as [Hsrc Htag].
      rewrite gammacat_fits_key in Hkp.
      by eapply (sed_key_not_in_root _ p "gammacat.fits.gz").
    - rewrite index_datasets_key, gammacat_fits_key. intros [= Heq].
      by apply app_inv_head in Heq.
    - rewrite index_sources_key, gammacat_fits_key. intros [= Heq].
      by apply app_inv_head in Heq. }
  exists e. unfold OutputDataReader.read. cbv zeta.
  by rewrite bind_run, Table_read_run, He.
Qed.

(** ** What the validation does to the state *)

Lemma log_list_difference_effects `{Collaborators}
    (actual expected : list string) (w : world (SED Table)) :
  ∃ findings,
    log_list_difference actual expected w =
      (mkWorld (fs w) (logs w ++ findings) (input_data_cache w), inr tt) ∧
    length findings ≤ 2 ∧
    Forall (λ r, ∃ msg, r = LogRecord ERROR msg) findings.
Proof.
  rewrite log_list_difference_run. cbv zeta. eexists. split; [done|].
  destruct (sorted (elements (py_set expected ∖ py_set actual)));
    destruct (sorted (elements (py_set actual ∖ py_set expected)));
    simpl; (split; [lia|]); repeat constructor; by eexists.
Qed.

(** X17: [validate] neither changes the tree nor the input data of a maker. It
    first logs that it validates, at level INFO, and then at most four
    findings (a Missing line and an Extra line for each of the two
    comparisons), all at level ERROR, whether it returns or raises. *)
Theorem validate_effects `{Collaborators} (self : OutputData.t) (w : world (SED Table)) :
  ∃ (findings : list log_record) (r : result unit),
    OutputData.validate self w =
      (mkWorld (fs w)
         (logs w ++ LogRecord INFO "Validating output data ..." :: findings)
         (input_data_cache w), r) ∧
    length findings ≤ 4 ∧
    Forall (λ r, ∃ msg, r = LogRecord ERROR msg) findings.
Proof.
  unfold OutputData.validate. rewrite emit_bind.
  unfold OutputData.validate_list_of_files.
  rewrite bind_run, list_of_files_default.
  rewrite bind_run. unfold lift at 1. cbn [fs logs input_data_cache].
  destruct (OutputData.getitem _ _ ≫= OutputData.as_paths) as [e|expected].
  { exists [], (inl e). split; [done|]. split; [simpl; lia|constructor]. }
  rewrite bind_run.
  match goal with |- context [log_list_difference ?a ?e ?w0] =>
    destruct (log_list_difference_effects a e w0) as (f1 & -> & Hlen1 & Hf1) end.
  cbn [fs logs input_data_cache]. rewrite bind_run. unfold lift.
  destruct (mapM _ SEDList_read) as [e|expected_files_sed].
  { exists f1, (inl e). split; [by rewrite <-(assoc_L (++))|]. split; [lia|done]. }
  match goal with |- context [log_list_difference ?a ?e ?w0] =>
    destruct (log_list_difference_effects a e w0) as (f2 & -> & Hlen2 & Hf2) end.
  cbn [fs logs input_data_cache].
  exists (f1 ++ f2), (inr tt). split; [by rewrite <-!(assoc_L (++))|].
  split; [rewrite length_app; lia|by apply Forall_app].
Qed.

(** ** The log of the maker, and the output root *)

Section maker_log.
Context `{Collaborators}.

Lemma make_sed_loop_logs (todo done : list (SED Table)) (w w' : world (SED Table))
    (i : InputData (SED Table)) :
  input_data_cache w = Some i →
  OutputDataMaker.make_sed_loop done todo w = (w', inr tt) →
  logs w' =
    logs w ++
    mjoin ((λ sed, [LogRecord DEBUG ("Processing SED: " +:+ sed_path sed);
                    LogRecord INFO ("Writing " +:+ Pathlib.str (sed_write (process sed)).1)])
           <$> todo).
Proof.
  revert done w i. induction todo as [|sed rest IH]; intros done w i Hcache.
  - simpl. intros [= <-]. by rewrite app_nil_r.
  - rewrite make_sed_loop_cons.
    rewrite emit_bind, (store_seds_bind _ _ _ i) by done.
    rewrite make_filename_unfold. cbv zeta. rewrite decide_True by done.
    rewrite lift_inr_bind, fs_op_bind. cbn [fs logs input_data_cache].
    destruct (Path_mkdir_parents (fs w) _) as [e|t1]; [done|].
    rewrite emit_bind, fs_op_bind. cbn [fs logs input_data_cache].
    destruct (Os.write t1 _ _) as [e|t2]; [done|].
    intros Hrest. eapply IH in Hrest; [|done]. rewrite Hrest.
    cbn [logs]. rewrite fmap_cons. simpl mjoin.
    by rewrite <-!(assoc_L (++)).
Qed.

Lemma make_sed_files_logs (w w1 : world (SED Table)) :
  OutputDataMaker.make_sed_files w = (w1, inr tt) →
  logs w1 =
    logs (loaded w) ++
    mjoin ((λ sed, [LogRecord DEBUG ("Processing SED: " +:+ sed_path sed);
                    LogRecord INFO ("Writing " +:+ Pathlib.str (sed_write (process sed)).1)])
           <$> seds (current_input w)).
Proof.
  unfold OutputDataMaker.make_sed_files. rewrite input_data_bind.
  apply make_sed_loop_logs with (i := current_input w), loaded_cache.
Qed.

End maker_log.

(** X13: The log of [make_all]: the input data is announced once, and only when
    the maker had not read it before; then each SED, in the order of the
    input, is announced at level DEBUG under the path it was read from and
    its file at level INFO under the path it is written to. The index files
    are written without a record, and without reading the input again. *)
Theorem make_all_log `{Collaborators} (w w' : world (SED Table)) :
  OutputDataMaker.make_all w = (w', inr tt) →
  logs w' =
    logs w ++
    match input_data_cache w with
    | None => [LogRecord INFO "Reading input data ..."]
    | Some _ => []
    end ++
    mjoin ((λ sed,
              [LogRecord DEBUG ("Processing SED: " +:+ sed_path sed);
               LogRecord INFO
                 ("Writing " +:+
                  Pathlib.str
                    (OutputDataConfig.path </> "sources"
                       </> source_str (table_meta (sed_table (process sed)))
                       </> (source_dataset_filename (table_meta (sed_table (process sed)))
                            +:+ "_sed.ecsv")))])
           <$> seds (current_input w)).
Proof.
  intros (w1 & Hsed & Hidx)%make_all_fs.
  pose proof (make_sed_files_logs _ _ Hsed) as Hlogs.
  apply make_sed_files_puts in Hsed as [_ Hcache].
  assert (loaded w1 = w1) as Hloaded by (unfold loaded; by rewrite Hcache).
  unfold OutputDataMaker.make_index_files in Hidx. rewrite bind_run in Hidx.
  destruct (OutputDataMaker.make_index_files_datasets w1) as [w2 [e|[]]] eqn:Hds; [done|].
  rewrite make_index_files_datasets_run, Hloaded in Hds.
  apply write_json_inr in Hds as (_ & Hl2 & Hc2).
  assert (loaded w2 = w2) as Hloaded2
    by (unfold loaded; by rewrite Hc2, Hcache).
  rewrite make_index_files_sources_run, Hloaded2 in Hidx.
  apply write_json_inr in Hidx as (_ & Hl' & _).
  rewrite Hl', Hl2, Hlogs. unfold loaded.
  destruct (input_data_cache w); [done|]. cbn [logs].
  by rewrite <-(assoc_L (++)).
Qed.

(** X14: [make_index_files] does not make the output root: where it is not a
    directory of the tree, writing the dataset index raises, the sources
    index is not attempted and the tree stays as it was. *)
Theorem make_index_files_needs_root `{Collaborators} (w : world (SED Table)) :
  Os.is_dir (fs w) OutputDataConfig.path = false →
  ∃ (w' : world (SED Table)) (e : exn),
    OutputDataMaker.make_index_files_datasets w = (w', inl e) ∧
    OutputDataMaker.make_index_files w = (w', inl e) ∧
    fs w' = fs w.
Proof.
  intros Hdir.
  assert (∃ e, Os.write (fs w) OutputDataConfig.index_datasets_json
                 (Json (JObj [("info", info_dict);
                              ("data", JList (datasets (current_input w)));
                              ("files", JList (JStr <$> listing (fs w)))])) = inl e)
    as [e He].
  { destruct (Os.write _ _ _) as [e|t] eqn:Hw; [by eexists|].
    apply os_write_inr in Hw as (_ & Hd & _). exfalso.
    unfold OutputDataConfig.index_datasets_json in Hd.
    rewrite joinpath_component in Hd by done.
    unfold Pathlib.parent in Hd. cbn [root parts] in Hd.
    rewrite removelast_last in Hd.
    assert (mkPath (root OutputDataConfig.path) (parts OutputDataConfig.path)
            = OutputDataConfig.path) as Heta by (by destruct OutputDataConfig.path).
    rewrite Heta in Hd. by rewrite Hd in Hdir. }
  assert (OutputDataMaker.make_index_files_datasets w = (loaded w, inl e)) as Hds.
  { by rewrite make_index_files_datasets_run, write_json_run, loaded_fs, He. }
  exists (loaded w), e. split; [done|]. split; [|apply loaded_fs].
  unfold OutputDataMaker.make_index_files. by rewrite bind_run, Hds.
Qed.

(** ** Validation right after the first generation *)

(** The string of a relative path, when it has no slash and is not a dot,
    is the single component of the path. *)
Lemma str_single (rel : list string) (x : string) :
  Pathlib.str (mkPath "" rel) = x → Str.contains Str.slash x = false → x ≠ "." →
  rel = [x].
Proof.
  unfold Pathlib.str. cbn [root parts]. rewrite str_app_nil_l.
  destruct (decide (Str.join "/" rel = "")) as [|Hne]; [by intros <-|].
  intros <- Hx _. destruct rel as [|a [|b l]]; [done|done|].
  rewrite join_cons, !contains_app in Hx by done. simpl in Hx.
  by rewrite orb_true_r in Hx.
Qed.

Lemma sorted_difference_nil (xs ys : list string) :
  (∀ x, x ∈ xs → x ∈ ys) → sorted (elements (py_set xs ∖ py_set ys)) = [].
Proof.
  intros Hsub. destruct (sorted_difference xs ys) as (_ & _ & Hl). cbv zeta in Hl.
  destruct (sorted _) as [|a l]; [done|].
  destruct (proj1 (Hl a) (list_elem_of_here _ _)) as [Ha Hna]. by apply Hsub in Ha.
Qed.

Lemma sorted_difference_pair (xs ys : list string) (a b : string) :
  String.le a b → a ≠ b →
  (∀ x, x ∈ xs ∧ x ∉ ys ↔ x = a ∨ x = b) →
  sorted (elements (py_set xs ∖ py_set ys)) = [a; b].
Proof.
  intros Hab Hne Hel. destruct (sorted_difference xs ys) as (Hs & Hnd & Hl).
  cbv zeta in Hs, Hnd, Hl. apply (StronglySorted_unique String.le); [done| |].
  - repeat constructor. done.
  - apply NoDup_Permutation; [done| |].
    + apply NoDup_cons. split; [by rewrite list_elem_of_singleton|].
      apply NoDup_singleton.
    + intros x. rewrite Hl, Hel, elem_of_cons, list_elem_of_singleton. done.
Qed.

(** X2: On an output root that held neither index file, the first validation
    after [make_all] finds the two index files, and only them, in excess of
    the file list recorded in the dataset index, and nothing missing from
    it: the list was taken before the index files were written. [*] matches
    every name, and the SED files go below the output root. *)
Theorem first_validation_reports_index_files `{Collaborators} (w w' : world (SED Table)) :
  OutputDataMaker.make_all w = (w', inr tt) →
  (∀ name, fnmatch name "*" = true) →
  (∀ c, fs w !! Pathlib.key OutputDataConfig.index_datasets_json ≠ Some (File c)) →
  (∀ c, fs w !! Pathlib.key OutputDataConfig.index_sources_json ≠ Some (File c)) →
  (∀ sed, sed ∈ seds (current_input w) →
     let m := table_meta (sed_table (process sed)) in
     root (Pathlib.parse_parts (source_str m)) = "" ∧
     root (Pathlib.parse_parts (source_dataset_filename m)) = "") →
  ∃ (doc : OrderedDict.t) (recorded actual : list string),
    fs w' !! Pathlib.key OutputDataConfig.index_datasets_json =
      Some (File (Json (JObj doc))) ∧
    OrderedDict.getitem "files" doc = Some (JList (JStr <$> recorded)) ∧
    OutputData.list_of_files (OutputData.init None None None) "*" w' = (w', inr actual) ∧
    log_list_difference actual recorded w' =
      (mkWorld (fs w')
         (logs w' ++
          [LogRecord ERROR "Extra: ['gammacat-datasets.json', 'gammacat-sources.json']"])
         (input_data_cache w'), inr tt).
Proof.
  intros (w1 & [Hputs _]%make_sed_files_puts & Hidx)%make_all_fs Hstar Hnd Hns Hrel.
  apply make_index_files_fs in Hidx as (Hdir & Hfd & Hfs & Hfs').
  set (kd := Pathlib.key OutputDataConfig.index_datasets_json) in *.
  set (ks := Pathlib.key OutputDataConfig.index_sources_json) in *.
  assert (ks ≠ kd) as Hne.
  { unfold ks, kd. rewrite index_sources_key, index_datasets_key. intros [= Heq].
    by apply app_inv_head in Heq. }
  assert (keeps (fs w1) (fs w')) as Hkeeps.
  { rewrite Hfs'. eapply keeps_trans; apply insert_file_keeps; [done|].
    by rewrite lookup_insert_ne. }
  assert (∀ x c, component x → x ≠ "sources" →
            fs w !! (root OutputDataConfig.path, parts OutputDataConfig.path ++ [x])
              ≠ Some (File c) →
            fs w1 !! (root OutputDataConfig.path, parts OutputDataConfig.path ++ [x])
              ≠ Some (File c)) as Hfresh.
  { intros x c Hx Hxs Hw Hk.
    destruct (puts_files _ _ _ _ _ Hputs Hk) as [?|Hlw]; [done|].
    apply last_write_Some in Hlw as (p & Hin & Hkp).
    apply elem_of_sed_writes in Hin as (sed & Hin & Hp & _).
    destruct (Hrel sed Hin) as [Hsrc Htag].
    by eapply (sed_key_not_in_root _ p x). }
  assert (∀ x, component x → x ≠ "sources" →
            (∀ c, fs w !! (root OutputDataConfig.path, parts OutputDataConfig.path ++ [x])
                    ≠ Some (File c)) →
            x ∉ listing (fs w1)) as Hunlisted.
  { intros x Hx Hxs Hw (rel & Hstr & _ & Hfile & _)%elem_of_listing.
    symmetry in Hstr. apply str_single in Hstr as ->; [|apply Hx..].
    unfold Os.is_file in Hfile.
    destruct (Os.stat _ _) as [[c|]|] eqn:Hstat; [|done..].
    apply stat_file_lookup in Hstat. by eapply Hfresh. }
  assert (∀ x c, component x →
            fs w' !! (root OutputDataConfig.path, parts OutputDataConfig.path ++ [x])
              = Some (File c) →
            x ∈ listing (fs w')) as Hlisted.
  { intros x c Hx Hk. apply elem_of_listing. exists [x].
    split; [by rewrite str_nonempty; [|apply Hx]|]. split; [done|].
    split; [|by apply selected_star].
    eapply is_file_intro; [by destruct (parts OutputDataConfig.path)| |exact Hk].
    unfold Pathlib.parent. cbn [root parts]. rewrite removelast_last.
    assert (mkPath (root OutputDataConfig.path) (parts OutputDataConfig.path)
            = OutputDataConfig.path) as -> by (by destruct OutputDataConfig.path).
    by eapply is_dir_keeps. }
  eexists _, (listing (fs w1)), (listing (fs w')).
  split; [by rewrite Hfs', lookup_insert_ne, lookup_insert_eq|].
  split; [reflexivity|]. split; [apply list_of_files_star|].
  rewrite log_list_difference_run. cbv zeta.
  rewrite sorted_difference_nil.
  2:{ intros s (rel & -> & Hrelne & Hfile & Hsel)%elem_of_listing.
      apply elem_of_listing. exists rel. split_and!; try done.
      by eapply is_file_keeps. }
  rewrite (sorted_difference_pair _ _ "gammacat-datasets.json" "gammacat-sources.json");
    [done|done|done|].
  intros x. split.
  - intros [(rel & -> & Hrelne & Hfile & Hsel)%elem_of_listing Hnot].
    destruct (decide ((root OutputDataConfig.path,
                       parts OutputDataConfig.path ++ rel) = kd)) as [Hd|Hd].
    { left. unfold kd in Hd. rewrite index_datasets_key in Hd. injection Hd as Hd.
      by apply app_inv_head in Hd as ->. }
    destruct (decide ((root OutputDataConfig.path,
                       parts OutputDataConfig.path ++ rel) = ks)) as [Hs|Hs].
    { right. unfold ks in Hs. rewrite index_sources_key in Hs. injection Hs as Hs.
      by apply app_inv_head in Hs as ->. }
    destruct Hnot. apply elem_of_listing. exists rel. split_and!; try done.
    unfold Os.is_file, Os.stat in *. cbn [root parts] in *.
    destruct (Os.resolve_dirs (fs w') _ _ _) eqn:Hres; [done|].
    rewrite (resolve_dirs_dirs _ (fs w1) _ _ _) with (2 := Hres).
    + destruct (parts OutputDataConfig.path ++ rel); [done|].
      unfold Pathlib.key in *. cbn [root parts] in *.
      by rewrite Hfs', !lookup_insert_ne in Hfile.
    + intros k. rewrite Hfs'.
      destruct (decide (k = ks)) as [->|]; [by rewrite lookup_insert_eq|].
      rewrite lookup_insert_ne by done.
      destruct (decide (k = kd)) as [->|]; [by rewrite lookup_insert_eq|].
      by rewrite lookup_insert_ne.
  - intros [->| ->].
    + split.
      * eapply Hlisted; [done|]. rewrite <-index_datasets_key, Hfs'. fold kd ks.
        by rewrite lookup_insert_ne, lookup_insert_eq.
      * apply Hunlisted; [done|done|]. by rewrite <-index_datasets_key.
    + split.
      * eapply Hlisted; [done|]. rewrite <-index_sources_key, Hfs'. fold kd ks.
        by rewrite lookup_insert_eq.
      * apply Hunlisted; [done|done|]. by rewrite <-index_sources_key.
Qed.

(** A run that returns [a] is the pair of its final state and [inr a]. *)
Lemma run_returns {W A : Type} (r : W * result A) (a : A) :
  r.2 = inr a → r = (r.1, inr a).
Proof. destruct r as [w x]. simpl. by intros ->. Qed.

(** * The statements on the small catalogue *)

Section sample_runs.
Local Existing Instance Sample.catalogue.

Lemma marked_idempotent (body : string) :
  Sample.marked (Sample.marked body) = Sample.marked body.
Proof.
  destruct body as [|c body]; [done|]. simpl.
  destruct (decide (c = "#"%char)) as [->|Hc]; simpl; done.
Qed.

Lemma make_filename_sed_lc_witness :
  let m : Meta := ("tev-000001", "gammacat_tev-000001_2010A") in
  component (source_str m) ∧
  Str.contains Str.slash (source_dataset_filename m) = false ∧
  ∃ sed lc : PurePath,
    OutputDataConfig.make_filename m "sed" false = inr sed ∧
    OutputDataConfig.make_filename m "lc" false = inr lc ∧
    Pathlib.str sed =
      "/gamma-cat/docs/data/sources/tev-000001/gammacat_tev-000001_2010A_sed.ecsv" ∧
    Pathlib.str lc =
      "/gamma-cat/docs/data/sources/tev-000001/gammacat_tev-000001_2010A_lc.ecsv".
Proof.
  intros m.
  assert (component (source_str m)) as Hsrc by (by split_and!).
  assert (Str.contains Str.slash (source_dataset_filename m) = false) as Htag by done.
  split; [exact Hsrc|]. split; [exact Htag|].
  destruct (make_filename_sed_lc m false) as (_ & _ & Hcomp).
  destruct (Hcomp Hsrc Htag)
    as (sed & lc & Hsed & Hlc & _ & _ & _ & _ & _ & _ & Hs & Hl).
  exists sed, lc. split; [exact Hsed|]. split; [exact Hlc|].
  split; [exact Hs|exact Hl].
Defined.

Lemma make_filename_relative_suffix_witness :
  let m : Meta := ("tev-000001", "gammacat_tev-000001_2010A") in
  "sed" ∈ ["sed"; "lc"] ∧
  root (Pathlib.parse_parts (source_str m)) = "" ∧
  root (Pathlib.parse_parts (source_dataset_filename m)) = "" ∧
  ∃ rel abs : PurePath,
    OutputDataConfig.make_filename m "sed" true = inr rel ∧
    OutputDataConfig.make_filename m "sed" false = inr abs ∧
    root rel = "" ∧
    root abs = root OutputDataConfig.path ∧
    parts abs = parts OutputDataConfig.path ++ parts rel ∧
    length (parts rel) < length (parts abs) ∧
    Pathlib.str abs =
      Pathlib.str OutputDataConfig.path +:+ "/" +:+ Pathlib.str rel ∧
    String.length (Pathlib.str rel) < String.length (Pathlib.str abs).
Proof.
  intros m.
  assert ("sed" ∈ ["sed"; "lc"]) as Hdt by apply list_elem_of_here.
  split; [exact Hdt|]. split; [reflexivity|]. split; [reflexivity|].
  exact (make_filename_relative_suffix m "sed" Hdt eq_refl eq_refl).
Defined.

Lemma log_list_difference_set_semantics_witness :
  (∀ x : string, x ∈ ["a"; "b"] ↔ x ∈ ["b"; "a"; "a"]) ∧
  (∀ x : string, x ∈ ["b"; "c"] ↔ x ∈ ["c"; "b"; "c"]) ∧
  log_list_difference ["a"; "b"] ["b"; "c"] Sample.fresh =
    log_list_difference ["b"; "a"; "a"] ["c"; "b"; "c"] Sample.fresh.
Proof.
  assert (∀ x : string, x ∈ ["a"; "b"] ↔ x ∈ ["b"; "a"; "a"]) as Ha.
  { intros x. rewrite !elem_of_cons, !elem_of_nil. tauto. }
  assert (∀ x : string, x ∈ ["b"; "c"] ↔ x ∈ ["c"; "b"; "c"]) as He.
  { intros x. rewrite !elem_of_cons, !elem_of_nil. tauto. }
  split; [exact Ha|]. split; [exact He|].
  exact (log_list_difference_set_semantics _ _ _ _ Sample.fresh Ha He).
Defined.

Lemma validate_list_of_files_completes_witness :
  let recorded := ["sources/tev-000001/gammacat_tev-000001_2010A_sed.ecsv"] in
  let kv : OrderedDict.t :=
    [("info", info_dict); ("data", JList [JStr "dataset 1"]);
     ("files", JList (JStr <$> recorded))] in
  let self := OutputData.init (Some (JObj kv)) None None in
  let w := Sample.generated in
  OutputData.index_dataset self = Some (JObj kv) ∧
  OrderedDict.getitem "files" kv = Some (JList (JStr <$> recorded)) ∧
  ∃ actual expected_files_sed : list string,
    OutputData.list_of_files self "*" w = (w, inr actual) ∧
    expected_files_sed =
      (λ sed, Pathlib.str
         (Pathlib.parse_parts "" </> "sources" </> source_str (table_meta (sed_table sed))
            </> (source_dataset_filename (table_meta (sed_table sed)) +:+ "_sed.ecsv")))
      <$> SEDList_read ∧
    OutputData.validate_list_of_files self w =
      (log_list_difference actual recorded;;
       log_list_difference actual
         (["README.md"; "gammacat-datasets.json"; "gammacat-sources.json";
           "gammacat.fits.gz"; "gammacat.ecsv"; "gammacat.yaml"] ++ expected_files_sed)) w ∧
    (OutputData.validate_list_of_files self w).2 = inr tt ∧
    fs (OutputData.validate_list_of_files self w).1 = fs w.
Proof.
  intros recorded kv self w.
  split; [reflexivity|]. split; [reflexivity|].
  exact (validate_list_of_files_completes self kv recorded w eq_refl eq_refl).
Defined.

Lemma index_documents_witness :
  let w := Sample.written in
  let wd := (OutputDataMaker.make_index_files_datasets w).1 in
  let vs := (OutputDataMaker.make_index_files_sources w).1 in
  OutputDataMaker.make_index_files_datasets w = (wd, inr tt) ∧
  OutputDataMaker.make_index_files_sources w = (vs, inr tt) ∧
  ∃ (files : list string) (doc_datasets doc_sources : OrderedDict.t),
    OutputData.list_of_files (OutputData.init None None None) "*" w = (w, inr files) ∧
    fs wd !! Pathlib.key OutputDataConfig.index_datasets_json =
      Some (File (Json (JObj doc_datasets))) ∧
    doc_datasets =
      [("info", info_dict);
       ("data", JList (datasets (current_input w)));
       ("files", JList (JStr <$> files))] ∧
    OrderedDict.keys doc_datasets = ["info"; "data"; "files"] ∧
    fs vs !! Pathlib.key OutputDataConfig.index_sources_json =
      Some (File (Json (JObj doc_sources))) ∧
    doc_sources =
      [("info", info_dict); ("data", JList (sources (current_input w)))] ∧
    OrderedDict.keys doc_sources = ["info"; "data"] ∧
    OrderedDict.getitem "files" doc_sources = None.
Proof.
  intros w wd vs.
  assert ((OutputDataMaker.make_index_files_datasets w).2 = inr tt) as Hd_returns
    by (vm_compute; reflexivity).
  pose proof (run_returns _ _ Hd_returns
                : OutputDataMaker.make_index_files_datasets w = (wd, inr tt)) as Hd.
  assert ((OutputDataMaker.make_index_files_sources w).2 = inr tt) as Hs_returns
    by (vm_compute; reflexivity).
  pose proof (run_returns _ _ Hs_returns
                : OutputDataMaker.make_index_files_sources w = (vs, inr tt)) as Hs.
  split; [exact Hd|]. split; [exact Hs|].
  exact (index_documents w wd w vs Hd Hs).
Defined.

Lemma make_all_order_witness :
  let w := Sample.fresh in
  let w' := Sample.generated in
  OutputDataMaker.make_all w = (w', inr tt) ∧
  OutputDataMaker.make_all w =
    (OutputDataMaker.make_sed_files;;
     OutputDataMaker.make_index_files_datasets;;
     OutputDataMaker.make_index_files_sources) w ∧
  ∃ (w1 w2 : world (SED Table)) (files : list string),
    OutputDataMaker.make_sed_files w = (w1, inr tt) ∧
    OutputDataMaker.make_index_files_datasets w1 = (w2, inr tt) ∧
    OutputDataMaker.make_index_files_sources w2 = (w', inr tt) ∧
    (∀ sed, sed ∈ seds (current_input w) →
       ∃ p, OutputDataConfig.make_filename
              (table_meta (sed_table (process sed))) "sed" false = inr p ∧
            Os.is_file (fs w1) p = true) ∧
    OutputData.list_of_files (OutputData.init None None None) "*" w1 = (w1, inr files) ∧
    fs w' !! Pathlib.key OutputDataConfig.index_datasets_json =
      Some (File (Json (JObj
        [("info", info_dict);
         ("data", JList (datasets (current_input w)));
         ("files", JList (JStr <$> files))]))).
Proof.
  intros w w'.
  assert ((OutputDataMaker.make_all w).2 = inr tt) as Hall_returns
    by (vm_compute; reflexivity).
  pose proof (run_returns _ _ Hall_returns
                : OutputDataMaker.make_all w = (w', inr tt)) as Hall.
  split; [exact Hall|]. exact (make_all_order w w' Hall).
Defined.

Lemma make_sed_files_idempotent_witness :
  let w := Sample.fresh in
  let w1 := Sample.written in
  OutputDataMaker.make_sed_files w = (w1, inr tt) ∧
  (∀ sed, process (process sed) = process sed) ∧
  input_data_cache w = None ∧
  (∃ w2, OutputDataMaker.make_sed_files w1 = (w2, inr tt) ∧
         fs w2 = fs w1 ∧
         ∀ self pattern,
           (OutputData.list_of_files self pattern w2).2 =
           (OutputData.list_of_files self pattern w1).2) ∧
  (∃ w2, OutputDataMaker.make_sed_files (mkWorld (fs w1) (logs w1) None) = (w2, inr tt) ∧
         fs w2 = fs w1 ∧
         ∀ self pattern,
           (OutputData.list_of_files self pattern w2).2 =
           (OutputData.list_of_files self pattern w1).2).
Proof.
  intros w w1.
  assert ((OutputDataMaker.make_sed_files w).2 = inr tt) as Hrun_returns
    by (vm_compute; reflexivity).
  pose proof (run_returns _ _ Hrun_returns
                : OutputDataMaker.make_sed_files w = (w1, inr tt)) as Hrun.
  assert (∀ sed, process (process sed) = process sed) as Hidem.
  { intros [[meta body] path]. simpl. by rewrite marked_idempotent. }
  split; [exact Hrun|]. split; [exact Hidem|]. split; [reflexivity|].
  split.
  - exact (proj1 (make_sed_files_idempotent w w1 Hrun) Hidem).
  - exact (proj2 (make_sed_files_idempotent w w1 Hrun) eq_refl).
Defined.

(** On an empty tree, the file list recorded by [make_all] was taken before
    the two index files were written: validation right afterwards reports
    them as extra, and the release files that nothing here writes as
    missing. *)
Example validation_after_first_generation :
  let recorded := ["sources/tev-000001/gammacat_tev-000001_2010A_sed.ecsv"] in
  let index :=
    JObj [("info", info_dict); ("data", JList [JStr "dataset 1"]);
          ("files", JList (JStr <$> recorded))] in
  let self := OutputData.init (Some index) None None in
  let w := Sample.generated in
  fs w !! Pathlib.key OutputDataConfig.index_datasets_json = Some (File (Json index)) ∧
  (OutputData.validate_list_of_files self w).2 = inr tt ∧
  drop (length (logs w)) (logs (OutputData.validate_list_of_files self w).1) =
    [LogRecord ERROR "Extra: ['gammacat-datasets.json', 'gammacat-sources.json']";
     LogRecord ERROR
       "Missing: ['README.md', 'gammacat.ecsv', 'gammacat.fits.gz', 'gammacat.yaml']"].
Proof. intros recorded index self w. split_and!; vm_compute; reflexivity. Qed.

End sample_runs.

(** * The further properties on the small catalogue *)

Section sample_further.
Local Existing Instance Sample.catalogue.

Lemma glob_star (name : string) : Sample.glob "*" name = true.
Proof. induction name as [|c name IH]; [done|]. simpl in *. by rewrite IH. Defined.

Lemma sample_make_sed_files :
  OutputDataMaker.make_sed_files Sample.fresh = (Sample.written, inr tt).
Proof.
  assert ((OutputDataMaker.make_sed_files Sample.fresh).2 = inr tt) as Hrun
    by (vm_compute; reflexivity).
  exact (run_returns _ _ Hrun).
Defined.

Lemma sample_make_all :
  OutputDataMaker.make_all Sample.fresh = (Sample.generated, inr tt).
Proof.
  assert ((OutputDataMaker.make_all Sample.fresh).2 = inr tt) as Hrun
    by (vm_compute; reflexivity).
  exact (run_returns _ _ Hrun).
Defined.

Lemma sample_base_dir : ".." ∉ parts base_dir.
Proof. apply (bool_decide_unpack _). vm_compute. exact I. Defined.

Lemma sample_sed_below (sed : SED Table) :
  sed ∈ seds (current_input Sample.fresh) →
  sed_below (table_meta (sed_table (process sed))).
Proof.
  intros Hin. apply list_elem_of_singleton in Hin. rewrite Hin.
  split; [reflexivity|]. split; [reflexivity|].
  split; apply (bool_decide_unpack _); vm_compute; exact I.
Defined.


Lemma make_filename_relative_to_witness :
  let m : Meta := ("tev-000001", "gammacat_tev-000001_2010A") in
  "lc" ∈ ["sed"; "lc"] ∧
  root (Pathlib.parse_parts (source_str m)) = "" ∧
  root (Pathlib.parse_parts (source_dataset_filename m)) = "" ∧
  ∃ rel abs : PurePath,
    OutputDataConfig.make_filename m "lc" true = inr rel ∧
    OutputDataConfig.make_filename m "lc" false = inr abs ∧
    OutputData.relative_to abs OutputDataConfig.path = inr rel.
Proof.
  intros m.
  assert ("lc" ∈ ["sed"; "lc"]) as Hdt
    by apply list_elem_of_further, list_elem_of_here.
  split; [exact Hdt|]. split; [reflexivity|]. split; [reflexivity|].
  exact (make_filename_relative_to m "lc" Hdt eq_refl eq_refl).
Defined.

Lemma list_of_files_missing_root_witness :
  let self := OutputData.init None None None in
  Os.is_dir (fs Sample.fresh) (OutputData.path self) = false ∧
  root (Pathlib.parse_parts "**/*.ecsv") = "" ∧
  Forall (λ p, p = "**" ∨ Str.contains_double_star p = false)
    (parts (Pathlib.parse_parts "**/*.ecsv")) ∧
  OutputData.list_of_files self "**/*.ecsv" Sample.fresh = (Sample.fresh, inr []).
Proof.
  intros self.
  assert (Forall (λ p, p = "**" ∨ Str.contains_double_star p = false)
            (parts (Pathlib.parse_parts "**/*.ecsv"))) as Hgood
    by (apply (bool_decide_unpack _); vm_compute; exact I).
  split; [reflexivity|]. split; [reflexivity|]. split; [exact Hgood|].
  exact (list_of_files_missing_root self "**/*.ecsv" Sample.fresh eq_refl eq_refl Hgood).
Defined.

Lemma list_of_files_no_duplicates_witness :
  let self := OutputData.init None None None in
  let w := Sample.generated in
  let files :=
    ["sources/tev-000001/gammacat_tev-000001_2010A_sed.ecsv";
     "gammacat-datasets.json"; "gammacat-sources.json"] in
  (∀ r ps n, fs w !! (r, ps) = Some n → Forall component ps) ∧
  OutputData.list_of_files self "*" w = (w, inr files) ∧
  NoDup files.
Proof.
  intros self w files.
  assert (∀ r ps n, fs w !! (r, ps) = Some n → Forall component ps) as Hvalid.
  { intros r ps n Hn. apply elem_of_map_to_list in Hn.
    assert (Forall (λ kn : (string * list string) * node, Forall component kn.1.2)
              (map_to_list (fs w))) as Hall.
    { apply (bool_decide_unpack _). vm_compute. exact I. }
    rewrite Forall_forall in Hall. exact (Hall _ Hn). }
  assert (listing (fs w) = files) as Hlist by (vm_compute; reflexivity).
  pose proof (list_of_files_star w) as Hrun. rewrite Hlist in Hrun.
  split; [exact Hvalid|]. split; [exact Hrun|].
  exact (list_of_files_no_duplicates self "*" w files Hvalid Hrun).
Defined.

Lemma make_sed_files_writes_witness :
  let w := Sample.fresh in
  let w1 := Sample.written in
  OutputDataMaker.make_sed_files w = (w1, inr tt) ∧
  (".." ∉ parts base_dir) ∧
  (∀ sed, sed ∈ seds (current_input w) →
     sed_below (table_meta (sed_table (process sed)))) ∧
  ∃ (w0 : world (SED Table)) (i : InputData (SED Table)),
    OutputDataMaker.input_data w = (w0, inr i) ∧
    (∀ sed, sed ∈ seds i →
       ∃ (p : PurePath) (before : list (SED Table)) (sed' : SED Table)
         (after : list (SED Table)),
         seds i = before ++ sed' :: after ∧
         OutputDataConfig.make_filename
           (table_meta (sed_table (process sed))) "sed" false = inr p ∧
         OutputDataConfig.make_filename
           (table_meta (sed_table (process sed'))) "sed" false = inr p ∧
         (∀ later, later ∈ after →
            OutputDataConfig.make_filename
              (table_meta (sed_table (process later))) "sed" false ≠ inr p) ∧
         fs w1 !! Pathlib.key p =
           Some (File (Text (table_ecsv (sed_table (process sed')))))) ∧
    (∀ k n,
       fs w !! k = Some n →
       (∀ sed p, sed ∈ seds i →
          OutputDataConfig.make_filename
            (table_meta (sed_table (process sed))) "sed" false = inr p →
          Pathlib.key p ≠ k) →
       fs w1 !! k = Some n).
Proof.
  intros w w1. split; [exact sample_make_sed_files|]. split; [exact sample_base_dir|].
  split; [exact sample_sed_below|].
  exact (make_sed_files_writes w w1 sample_make_sed_files sample_base_dir
           sample_sed_below).
Defined.

Lemma input_data_after_make_sed_files_witness :
  let w := Sample.fresh in
  let w1 := Sample.written in
  OutputDataMaker.make_sed_files w = (w1, inr tt) ∧
  ∃ (w0 : world (SED Table)) (i : InputData (SED Table)),
    OutputDataMaker.input_data w = (w0, inr i) ∧
    OutputDataMaker.input_data w1 =
      (w1, inr (mkInputData (datasets i) (sources i) (process <$> seds i))).
Proof.
  intros w w1. split; [exact sample_make_sed_files|].
  exact (input_data_after_make_sed_files w w1 sample_make_sed_files).
Defined.

Lemma sed_files_listed_witness :
  let w := Sample.fresh in
  let w1 := Sample.written in
  OutputDataMaker.make_sed_files w = (w1, inr tt) ∧
  (∀ name, fnmatch name "*" = true) ∧
  (∀ sed, sed ∈ seds (current_input w) →
     sed_below (table_meta (sed_table (process sed)))) ∧
  ∃ (w0 : world (SED Table)) (i : InputData (SED Table)) (files : list string),
    OutputDataMaker.input_data w = (w0, inr i) ∧
    OutputData.list_of_files (OutputData.init None None None) "*" w1 = (w1, inr files) ∧
    ∀ sed, sed ∈ seds i →
      ∃ rel, OutputDataConfig.make_filename
               (table_meta (sed_table (process sed))) "sed" true = inr rel ∧
             Pathlib.str rel ∈ files.
Proof.
  intros w w1. split; [exact sample_make_sed_files|]. split; [exact glob_star|].
  split; [exact sample_sed_below|].
  exact (sed_files_listed w w1 sample_make_sed_files glob_star sample_sed_below).
Defined.

Lemma recorded_files_after_make_all_witness :
  let w := Sample.fresh in
  let w' := Sample.generated in
  OutputDataMaker.make_all w = (w', inr tt) ∧
  ∃ (doc : OrderedDict.t) (recorded actual : list string),
    fs w' !! Pathlib.key OutputDataConfig.index_datasets_json =
      Some (File (Json (JObj doc))) ∧
    OrderedDict.getitem "files" doc = Some (JList (JStr <$> recorded)) ∧
    OutputData.list_of_files (OutputData.init None None None) "*" w' = (w', inr actual) ∧
    (∀ s, s ∈ recorded → s ∈ actual) ∧
    (∀ s, s ∈ actual →
       s ∈ recorded ∨ s = "gammacat-datasets.json" ∨ s = "gammacat-sources.json").
Proof.
  intros w w'. split; [exact sample_make_all|].
  exact (recorded_files_after_make_all w w' sample_make_all).
Defined.

Lemma make_all_creates_witness :
  let w := Sample.fresh in
  let w' := Sample.generated in
  let k := ("/", ["gamma-cat"; "docs"; "data"; "sources"; "tev-000001";
                  "gammacat_tev-000001_2010A_sed.ecsv"]) in
  let c := Text "#e_ref dnde" in
  OutputDataMaker.make_all w = (w', inr tt) ∧
  (".." ∉ parts base_dir) ∧
  (∀ sed, sed ∈ seds (current_input w) →
     sed_below (table_meta (sed_table (process sed)))) ∧
  fs w' !! k = Some (File c) ∧
  (fs w !! k = Some (File c) ∨
   k = Pathlib.key OutputDataConfig.index_datasets_json ∨
   k = Pathlib.key OutputDataConfig.index_sources_json ∨
   ∃ sed p, sed ∈ seds (current_input w) ∧
     OutputDataConfig.make_filename (table_meta (sed_table (process sed))) "sed" false
       = inr p ∧
     Pathlib.key p = k ∧ c = Text (table_ecsv (sed_table (process sed)))).
Proof.
  intros w w' k c.
  assert (fs w' !! k = Some (File c)) as Hk by (vm_compute; reflexivity).
  split; [exact sample_make_all|]. split; [exact sample_base_dir|].
  split; [exact sample_sed_below|]. split; [exact Hk|].
  exact (make_all_creates w w' k c sample_make_all sample_base_dir sample_sed_below Hk).
Defined.

Lemma read_after_make_index_files_witness :
  let w := Sample.with_catalogue in
  let w' := (OutputDataMaker.make_index_files w).1 in
  let c := Text "SIMPLE = T" in
  let table : Table := (("", ""), "SIMPLE = T") in
  OutputDataMaker.make_index_files w = (w', inr tt) ∧
  fs w !! Pathlib.key OutputDataConfig.gammacat_fits = Some (File c) ∧
  Sample.fits_read c = inr table ∧
  ∃ (w0 : world (SED Table)) (i : InputData (SED Table)) (files : list string)
    (self : OutputData.t),
    OutputDataMaker.input_data w = (w0, inr i) ∧
    OutputData.list_of_files (OutputData.init None None None) "*" w = (w, inr files) ∧
    OutputDataReader.read Sample.json_loads Sample.fits_read w' = (w', inr self) ∧
    OutputData.path self = OutputDataConfig.path ∧
    OutputData.gammacat self = Some table ∧
    OutputData.index_dataset self =
      Some (JObj [("info", info_dict); ("data", JList (datasets i));
                  ("files", JList (JStr <$> files))]) ∧
    OutputData.index_sources self =
      Some (JObj [("info", info_dict); ("data", JList (sources i))]) ∧
    OutputDataReader.__str__ Sample.table_len self =
      inr ("Output data summary:" +:+ OutputDataReader.newline +:+
           "Path: " +:+ Pathlib.str OutputDataConfig.path +:+ OutputDataReader.newline +:+
           "Number of sources: " +:+ pretty (Sample.table_len table) +:+
             OutputDataReader.newline +:+
           "Number of datasets: " +:+ pretty (length (datasets i)) +:+
             OutputDataReader.newline +:+
           "Number of files: " +:+ pretty (length files) +:+ OutputDataReader.newline).
Proof.
  intros w w' c table.
  assert ((OutputDataMaker.make_index_files w).2 = inr tt) as Hrun_returns
    by (vm_compute; reflexivity).
  pose proof (run_returns _ _ Hrun_returns
                : OutputDataMaker.make_index_files w = (w', inr tt)) as Hrun.
  assert (fs w !! Pathlib.key OutputDataConfig.gammacat_fits = Some (File c)) as Hfits
    by (vm_compute; reflexivity).
  split; [exact Hrun|]. split; [exact Hfits|]. split; [reflexivity|].
  exact (read_after_make_index_files Sample.json_loads Sample.fits_read Sample.table_len
           w w' c table Hrun Hfits eq_refl).
Defined.

Lemma read_after_make_all_raises_witness :
  let w := Sample.fresh in
  let w' := Sample.generated in
  OutputDataMaker.make_all w = (w', inr tt) ∧
  (∀ c, fs w !! Pathlib.key OutputDataConfig.gammacat_fits ≠ Some (File c)) ∧
  (∀ sed, sed ∈ seds (current_input w) →
     let m := table_meta (sed_table (process sed)) in
     root (Pathlib.parse_parts (source_str m)) = "" ∧
     root (Pathlib.parse_parts (source_dataset_filename m)) = "") ∧
  ∃ e, OutputDataReader.read Sample.json_loads Sample.fits_read w' = (w', inl e).
Proof.
  intros w w'.
  assert (∀ c, fs w !! Pathlib.key OutputDataConfig.gammacat_fits ≠ Some (File c))
    as Hnone.
  { intros c. unfold w, Sample.fresh. cbn [fs]. rewrite lookup_empty. discriminate. }
  assert (∀ sed, sed ∈ seds (current_input w) →
     let m := table_meta (sed_table (process sed)) in
     root (Pathlib.parse_parts (source_str m)) = "" ∧
     root (Pathlib.parse_parts (source_dataset_filename m)) = "") as Hrel.
  { intros sed Hin. apply list_elem_of_singleton in Hin. rewrite Hin.
    split; reflexivity. }
  split; [exact sample_make_all|]. split; [exact Hnone|]. split; [exact Hrel|].
  exact (read_after_make_all_raises Sample.json_loads Sample.fits_read w w'
           sample_make_all Hnone Hrel).
Defined.

Lemma make_all_log_witness :
  let w := Sample.fresh in
  let w' := Sample.generated in
  OutputDataMaker.make_all w = (w', inr tt) ∧
  logs w' =
    logs w ++
    match input_data_cache w with
    | None => [LogRecord INFO "Reading input data ..."]
    | Some _ => []
    end ++
    mjoin ((λ sed,
              [LogRecord DEBUG ("Processing SED: " +:+ sed_path sed);
               LogRecord INFO
                 ("Writing " +:+
                  Pathlib.str
                    (OutputDataConfig.path </> "sources"
                       </> source_str (table_meta (sed_table (process sed)))
                       </> (source_dataset_filename (table_meta (sed_table (process sed)))
                            +:+ "_sed.ecsv")))])
           <$> seds (current_input w)).
Proof.
  intros w w'. split; [exact sample_make_all|].
  exact (make_all_log w w' sample_make_all).
Defined.

Lemma make_index_files_needs_root_witness :
  let w := Sample.fresh in
  Os.is_dir (fs w) OutputDataConfig.path = false ∧
  ∃ (w' : world (SED Table)) (e : exn),
    OutputDataMaker.make_index_files_datasets w = (w', inl e) ∧
    OutputDataMaker.make_index_files w = (w', inl e) ∧
    fs w' = fs w.
Proof.
  intros w. split; [reflexivity|].
  exact (make_index_files_needs_root w eq_refl).
Defined.

Lemma first_validation_reports_index_files_witness :
  let w := Sample.fresh in
  let w' := Sample.generated in
  OutputDataMaker.make_all w = (w', inr tt) ∧
  (∀ name, fnmatch name "*" = true) ∧
  (∀ c, fs w !! Pathlib.key OutputDataConfig.index_datasets_json ≠ Some (File c)) ∧
  (∀ c, fs w !! Pathlib.key OutputDataConfig.index_sources_json ≠ Some (File c)) ∧
  (∀ sed, sed ∈ seds (current_input w) →
     let m := table_meta (sed_table (process sed)) in
     root (Pathlib.parse_parts (source_str m)) = "" ∧
     root (Pathlib.parse_parts (source_dataset_filename m)) = "") ∧
  ∃ (doc : OrderedDict.t) (recorded actual : list string),
    fs w' !! Pathlib.key OutputDataConfig.index_datasets_json =
      Some (File (Json (JObj doc))) ∧
    OrderedDict.getitem "files" doc = Some (JList (JStr <$> recorded)) ∧
    OutputData.list_of_files (OutputData.init None None None) "*" w' = (w', inr actual) ∧
    log_list_difference actual recorded w' =
      (mkWorld (fs w')
         (logs w' ++
          [LogRecord ERROR "Extra: ['gammacat-datasets.json', 'gammacat-sources.json']"])
         (input_data_cache w'), inr tt).
Proof.
  intros w w'.
  assert (∀ k c, fs w !! k ≠ Some (File c)) as Hnone.
  { intros k c. unfold w, Sample.fresh. cbn [fs]. rewrite lookup_empty. discriminate. }
  assert (∀ sed, sed ∈ seds (current_input w) →
     let m := table_meta (sed_table (process sed)) in
     root (Pathlib.parse_parts (source_str m)) = "" ∧
     root (Pathlib.parse_parts (source_dataset_filename m)) = "") as Hrel.
  { intros sed Hin. apply list_elem_of_singleton in Hin. rewrite Hin.
    split; reflexivity. }
  split; [exact sample_make_all|]. split; [exact glob_star|].
  split; [exact (Hnone _)|]. split; [exact (Hnone _)|]. split; [exact Hrel|].
  exact (first_validation_reports_index_files w w' sample_make_all glob_star
           (Hnone _) (Hnone _) Hrel).
Defined.

End sample_further.
